(** * AI Developer Tutor: dialogue router, orchestrator and quiz engine

    A shallow embedding of the TypeScript sources
    - [backend/src/langGraph/graphManager.ts]: the mode router
      [determineNode], the four mode executors, the orchestrator
      [executeGraph] with its quiz follow-up interception, and
      [generateQuizQuestions];
    - [backend/src/routes/quiz.ts]: the submit and update routes over stored
      quiz sessions;
    - the [handleUpgradeQuizSubmit] handler of the chat front end;
    followed by the properties of the design document that are stated about
    them (Part II), and
    - the chat routes (message, switch-node, read, rename) over stored chat
      sessions, with the store functions of
      [backend/src/config/database.ts] they call, and the socket handler of
      [chat:message];
    - the read and delete routes of the quiz sessions and the profile route
      of [backend/src/routes/auth.ts];
    followed by further properties of the code (Part III).

    Conventions.
    - Values of TypeScript type [any] are [JSValue]s.  A JavaScript object
      used as a bag of fields is a [gmap string JSValue]; a missing field
      reads as [JUndefined].  Numbers are integers.
    - A string is the sequence of the UTF-8 bytes of the JavaScript string.
      The case mappings and [JSON.parse] are built-ins of the runtime and
      are taken as a record of functions ([Builtins]); [ascii_builtins] is
      the instance used to run examples.  The regular expressions of the
      source are written out as matchers on bytes: their literals are
      ASCII, which under the [i] flag match ASCII letters only, [\d], [\w]
      and [\b] are ASCII classes, and [\s] and [trim] take the white-space
      characters of the language, of one, two or three bytes.
    - The text-completion service, the user and session store and the clock
      are collaborators ([Services]).  Every call to them is appended to a
      trace of [Event]s, so that "no call was made" is a statement about
      the trace.
    - Code that can throw lives in the state-and-exception monad [M] over
      that trace; [try]/[catch] is [try_catch].
    - The quiz session table is a list of typed rows, as the [QuizSession]
      interface of the store declares them.  The chat session table and the
      user table are maps from the row id to the row. *)

From stdpp Require Import gmap strings list fin_maps.
From Stdlib Require Import ZArith String Ascii DecimalString Lia.
From Stdlib Require DecimalZ.

#[local] Set Warnings "-register-all".
#[local] Open Scope string_scope.
#[local] Open Scope Z_scope.

(* ===================================================================== *)
(** * Part I: the embedding                                               *)
(* ===================================================================== *)

(** ** JavaScript values *)

Inductive JSValue : Type :=
| JUndefined
| JNull
| JBool (b : bool)
| JNum (z : Z)
| JStr (s : string)
| JArr (l : list JSValue)
| JObj (m : gmap string JSValue).

(** The double-quote character, used inside the prompt templates. *)
Definition dq : string := String (ascii_of_nat 34) EmptyString.

Definition show_Z (z : Z) : string := NilZero.string_of_int (Z.to_int z).

Module JS.

(** ToBoolean. *)
Definition truthy (v : JSValue) : bool :=
  match v with
  | JUndefined | JNull => false
  | JBool b => b
  | JNum z => negb (z =? 0)
  | JStr s => negb (String.eqb s "")
  | JArr _ | JObj _ => true
  end.

(** [a || b]. *)
Definition or_else (a b : JSValue) : JSValue := if truthy a then a else b.

(** [a === b].  Arrays and objects compare by reference; the two sides
    always come from different deserialisations here (a request body, a
    stored row), so two of them are never the same reference. *)
Definition strict_eq (a b : JSValue) : bool :=
  match a, b with
  | JUndefined, JUndefined => true
  | JNull, JNull => true
  | JBool x, JBool y => Bool.eqb x y
  | JNum x, JNum y => (x =? y)
  | JStr x, JStr y => String.eqb x y
  | _, _ => false
  end.

(** [o[k]] for an object held as a map. *)
Definition field (o : gmap string JSValue) (k : string) : JSValue :=
  default JUndefined (o !! k).

Definition nullish (v : JSValue) : bool :=
  match v with JUndefined | JNull => true | _ => false end.

(** [s.length] of a string: its number of UTF-16 code units.  Counted on
    the UTF-8 bytes, a continuation byte stands for none, the first byte
    of a four-byte character for two, and any other byte for one. *)
Definition code_units (c : ascii) : nat :=
  let n := nat_of_ascii c in
  if (n <? 128)%nat then 1%nat
  else if (n <? 192)%nat then 0%nat
  else if (n <? 240)%nat then 1%nat
  else 2%nat.

Fixpoint string_length (s : string) : nat :=
  match s with
  | EmptyString => 0%nat
  | String c r => (code_units c + string_length r)%nat
  end.

(** [v.length] on a non-nullish value. *)
Definition length_of (v : JSValue) : JSValue :=
  match v with
  | JArr l => JNum (Z.of_nat (List.length l))
  | JStr s => JNum (Z.of_nat (string_length s))
  | JObj m => field m "length"
  | _ => JUndefined
  end.

(** [v?.k]: [undefined] on [undefined] and [null], a property read
    otherwise.  Primitives and arrays carry none of the keys the code
    asks for, except [length]. *)
Definition opt_get (v : JSValue) (k : string) : JSValue :=
  match v with
  | JObj m => field m k
  | JArr _ | JStr _ => if String.eqb k "length" then length_of v else JUndefined
  | _ => JUndefined
  end.

(** [v[i]] for a number [i] on a non-nullish value. *)
Definition index (v : JSValue) (i : Z) : JSValue :=
  match v with
  | JArr l => if i <? 0 then JUndefined else default JUndefined (l !! Z.to_nat i)
  | JStr s =>
      if i <? 0 then JUndefined
      else match String.get (Z.to_nat i) s with
           | Some c => JStr (String c EmptyString)
           | None => JUndefined
           end
  | JObj m => field m (show_Z i)
  | _ => JUndefined
  end.

Definition join_with (sep : string) (l : list string) : string :=
  match l with
  | [] => ""
  | x :: r => fold_left (fun acc y => acc +:+ sep +:+ y) r x
  end.

(** ToString, as template literals and [Array.prototype.join] apply it. *)
Fixpoint to_string (v : JSValue) : string :=
  match v with
  | JUndefined => "undefined"
  | JNull => "null"
  | JBool true => "true"
  | JBool false => "false"
  | JNum z => show_Z z
  | JStr s => s
  | JArr l =>
      join_with ","
        (List.map (fun x => if nullish x then "" else to_string x) l)
  | JObj _ => "[object Object]"
  end.

(** [arr.join(sep)]. *)
Definition join (sep : string) (l : list JSValue) : string :=
  join_with sep (List.map (fun x => if nullish x then "" else to_string x) l).

(** The own enumerable properties copied by [{...v}]. *)
Definition spread (v : JSValue) : gmap string JSValue :=
  match v with
  | JObj m => m
  | JArr l => list_to_map (imap (fun i x => (show_Z (Z.of_nat i), x)) l)
  | JStr s =>
      list_to_map
        (imap (fun i c => (show_Z (Z.of_nat i), JStr (String c EmptyString)))
              (list_ascii_of_string s))
  | _ => ∅
  end.

(** [s.includes(sub)]. *)
Fixpoint includes (s sub : string) : bool :=
  String.prefix sub s ||
  match s with
  | EmptyString => false
  | String _ s' => includes s' sub
  end.

(** [s.charCodeAt(0)]; [None] stands for NaN. *)
Definition charCodeAt0 (s : string) : option Z :=
  match s with
  | EmptyString => None
  | String c _ => Some (Z.of_nat (nat_of_ascii c))
  end.

(** [String.fromCharCode(n)] for a code below 256. *)
Definition fromCharCode (n : Z) : string :=
  String (ascii_of_nat (Z.to_nat n)) EmptyString.

End JS.

(** ** Built-ins of the runtime *)

Record Builtins := {
  toLowerCase : string -> string;
  toUpperCase : string -> string;
  JSON_parse : string -> option JSValue;
}.

Definition lower_ascii (c : ascii) : ascii :=
  let n := nat_of_ascii c in
  if ((65 <=? n) && (n <=? 90))%nat then ascii_of_nat (n + 32) else c.

Definition upper_ascii (c : ascii) : ascii :=
  let n := nat_of_ascii c in
  if ((97 <=? n) && (n <=? 122))%nat then ascii_of_nat (n - 32) else c.

Fixpoint map_string (f : ascii -> ascii) (s : string) : string :=
  match s with
  | EmptyString => EmptyString
  | String c r => String (f c) (map_string f r)
  end.

(** The built-ins restricted to ASCII letters, with a parser that accepts
    nothing; enough to run the router and the follow-up interception. *)
Definition ascii_builtins : Builtins :=
  {| toLowerCase := map_string lower_ascii;
     toUpperCase := map_string upper_ascii;
     JSON_parse := fun _ => None |}.

(** ** Mode router *)

Inductive NodeType :=
| CodeFeedback | ConceptExplainer | QuizGenerator | MistakeAnalyzer | Router.

Definition node_tag (n : NodeType) : string :=
  match n with
  | CodeFeedback => "code-feedback"
  | ConceptExplainer => "concept-explainer"
  | QuizGenerator => "quiz-generator"
  | MistakeAnalyzer => "mistake-analyzer"
  | Router => "router"
  end.

Definition determineNode (B : Builtins) (userInput : string)
    (context : gmap string JSValue) : NodeType :=
  let input := toLowerCase B userInput in
  if JS.includes input "code" || JS.includes input "debug"
     || JS.includes input "review" || JS.includes input "feedback"
  then CodeFeedback
  else if JS.includes input "quiz" || JS.includes input "test"
          || JS.includes input "question" || JS.includes input "practice"
  then QuizGenerator
  else if JS.includes input "progress" || JS.includes input "mistake"
          || JS.includes input "track" || JS.includes input "analysis"
  then MistakeAnalyzer
  else ConceptExplainer.

(** ** Effects: a trace of collaborator calls, and exceptions *)

Inductive Exn :=
| TypeError (msg : string)
| SyntaxError (msg : string)
| ServiceError (msg : string).

Inductive Event :=
| EvGetUserById (userId : string)
| EvCompletion (prompt : string) (max_tokens : Z)
| EvUpdateChatSession (sessionId : string) (updates : gmap string JSValue)
| EvClock.

Inductive Result (A : Type) : Type :=
| Ok (a : A)
| Throw (e : Exn).
Arguments Ok {A} a.
Arguments Throw {A} e.

Definition M (A : Type) : Type := list Event -> Result A * list Event.

Definition ret {A : Type} (a : A) : M A := fun w => (Ok a, w).

Definition bind {A B : Type} (m : M A) (k : A -> M B) : M B :=
  fun w =>
    match m w with
    | (Ok a, w') => k a w'
    | (Throw e, w') => (Throw e, w')
    end.

Definition throw {A : Type} (e : Exn) : M A := fun w => (Throw e, w).

(** [try { m } catch (e) { h e }]: what [m] did before throwing stays done. *)
Definition try_catch {A : Type} (m : M A) (h : Exn -> M A) : M A :=
  fun w =>
    match m w with
    | (Ok a, w') => (Ok a, w')
    | (Throw e, w') => h e w'
    end.

Definition emit (e : Event) : M unit := fun w => (Ok tt, (w ++ [e])%list).

Notation "'let*' x ':=' c1 'in' c2" := (bind c1 (fun x => c2))
  (at level 10, x name, c1 at level 100, c2 at level 200).
Notation "c1 '>>' c2" := (bind c1 (fun _ => c2))
  (at level 100, c2 at level 200, right associativity).

(** ** Collaborators *)

(** What [openai.chat.completions.create] does with a prompt: it fails (or
    answers without a [choices] array, which throws inside the caller's
    [try]), answers with no content, or answers with a text. *)
Inductive Completion :=
| ApiError
| NoContent
| Content (s : string).

(** What [db.getUserById] does: it throws, it resolves to [null], or it
    resolves to a user row. *)
Inductive DbRead :=
| DbThrows
| DbNull
| DbFound (user : gmap string JSValue).

Record Services := {
  openai_create : string -> Completion;
  db_getUserById : string -> DbRead;
  (** [true]: the update call returns; [false]: it throws. *)
  db_updateChatSession : string -> gmap string JSValue -> bool;
  (** The ISO timestamp read at a given point of the trace. *)
  clock : nat -> string;
  (** The epoch milliseconds read at a given point of the trace. *)
  epoch_ms : nat -> Z;
}.

(** [new Date().toISOString()]. *)
Definition now (S : Services) : M string :=
  fun w => (Ok (clock S (List.length w)), (w ++ [EvClock])%list).

Definition getUserById (S : Services) (userId : string) : M JSValue :=
  emit (EvGetUserById userId) >>
  match db_getUserById S userId with
  | DbThrows => throw (ServiceError "getUserById")
  | DbNull => ret JNull
  | DbFound u => ret (JObj u)
  end.

(** ** Regular expressions used by the orchestrator *)

Definition nl : string := String (ascii_of_nat 10) EmptyString.

Module Re.

Definition is_digit (c : ascii) : bool :=
  let n := nat_of_ascii c in ((48 <=? n) && (n <=? 57))%nat.

(** The white-space characters of one byte: tab, line feed, vertical tab,
    form feed, carriage return, space. *)
Definition is_space (c : ascii) : bool :=
  let n := nat_of_ascii c in (((9 <=? n) && (n <=? 13)) || (n =? 32))%nat.

(** The white-space character of two bytes: U+00A0. *)
Definition is_space2 (a b : ascii) : bool :=
  ((nat_of_ascii a =? 194) && (nat_of_ascii b =? 160))%nat.

(** The white-space characters of three bytes: U+1680, U+2000 to U+200A,
    U+2028, U+2029, U+202F, U+205F, U+3000 and U+FEFF. *)
Definition is_space3 (a b c : ascii) : bool :=
  let x := nat_of_ascii a in
  let y := nat_of_ascii b in
  let z := nat_of_ascii c in
  (((x =? 225) && (y =? 154) && (z =? 128))
   || ((x =? 226) && (y =? 128)
       && (((128 <=? z) && (z <=? 138)) || (z =? 168) || (z =? 169) || (z =? 175)))
   || ((x =? 226) && (y =? 129) && (z =? 159))
   || ((x =? 227) && (y =? 128) && (z =? 128))
   || ((x =? 239) && (y =? 187) && (z =? 191)))%nat.

(** [\s*] at the start of [s]: the rest of [s] after its leading white
    space.  [\s] is every character of the classes WhiteSpace and
    LineTerminator of the language. *)
Fixpoint skip_spaces (s : string) : string :=
  match s with
  | EmptyString => EmptyString
  | String a r =>
      if is_space a then skip_spaces r
      else
        match r with
        | EmptyString => s
        | String b r1 =>
            if is_space2 a b then skip_spaces r1
            else
              match r1 with
              | EmptyString => s
              | String c r2 => if is_space3 a b c then skip_spaces r2 else s
              end
        end
  end.

(** A string of white space only. *)
Definition only_spaces (s : string) : bool :=
  match skip_spaces s with
  | EmptyString => true
  | String _ _ => false
  end.

(** [\w]. *)
Definition is_word (c : ascii) : bool :=
  let n := nat_of_ascii c in
  (((48 <=? n) && (n <=? 57)) || ((65 <=? n) && (n <=? 90))
   || ((97 <=? n) && (n <=? 122)) || (n =? 95))%nat.

(** Character comparison under the [i] flag. *)
Definition eq_ci (a b : ascii) : bool :=
  Ascii.eqb (lower_ascii a) (lower_ascii b).

(** Match a literal, ignoring case, at the start of [s]; the rest of [s]. *)
Fixpoint lit_ci (lit s : string) : option string :=
  match lit, s with
  | EmptyString, _ => Some s
  | String a lit', String b s' => if eq_ci a b then lit_ci lit' s' else None
  | String _ _, EmptyString => None
  end.

Fixpoint take_while (p : ascii -> bool) (s : string) : string :=
  match s with
  | EmptyString => EmptyString
  | String c s' => if p c then String c (take_while p s') else EmptyString
  end.

Fixpoint drop_while (p : ascii -> bool) (s : string) : string :=
  match s with
  | EmptyString => EmptyString
  | String c s' => if p c then drop_while p s' else s
  end.

(** The group [(\d+)] at the start of [s]. *)
Definition digits (s : string) : option string :=
  match take_while is_digit s with
  | EmptyString => None
  | d => Some d
  end.

(** [question\s*(\d+)] anchored at the start of [s]. *)
Definition at_question (s : string) : option string :=
  match lit_ci "question" s with
  | Some rest => digits (skip_spaces rest)
  | None => None
  end.

(** [q(\d+)] anchored at the start of [s]. *)
Definition at_q (s : string) : option string :=
  match lit_ci "q" s with
  | Some rest => digits rest
  | None => None
  end.

(** [answer to (\d+)] anchored at the start of [s]. *)
Definition at_answer_to (s : string) : option string :=
  match lit_ci "answer to " s with
  | Some rest => digits rest
  | None => None
  end.

(** The three alternatives of [(question\s*\d+|q\d+|answer to \d+)]. *)
Definition at_reference (s : string) : option string :=
  match at_question s with
  | Some d => Some d
  | None =>
      match at_q s with
      | Some d => Some d
      | None => at_answer_to s
      end
  end.

(** The leftmost position at which the anchored pattern matches; the
    captured group there. *)
Fixpoint search (pat : string -> option string) (s : string) : option string :=
  match pat s with
  | Some d => Some d
  | None =>
      match s with
      | EmptyString => None
      | String _ s' => search pat s'
      end
  end.

(** [/(question\s*\d+|q\d+|answer to \d+)/i.test(s)]. *)
Definition test_reference (s : string) : bool :=
  match search at_reference s with Some _ => true | None => false end.

(** [let match = s.match(/question\s*(\d+)/i); if (!match) match =
    s.match(/q(\d+)/i); if (!match) match = s.match(/answer to (\d+)/i)]:
    the group captured by the first of the three patterns that matches
    somewhere. *)
Definition reference_number (s : string) : option string :=
  match search at_question s with
  | Some d => Some d
  | None =>
      match search at_q s with
      | Some d => Some d
      | None => search at_answer_to s
      end
  end.

Definition is_label (c : ascii) : bool :=
  let n := nat_of_ascii (lower_ascii c) in ((97 <=? n) && (n <=? 100))%nat.

(** [s.match(/\b([A-D])\b/gi)]: every letter a-d, in either case, that
    stands alone between word boundaries.  [prev] tells whether the
    character before [s] is a word character. *)
Fixpoint labels_from (prev : bool) (s : string) : list string :=
  match s with
  | EmptyString => []
  | String c s' =>
      let next :=
        match s' with
        | EmptyString => false
        | String d _ => is_word d
        end in
      if is_label c && negb prev && negb next
      then String c EmptyString :: labels_from (is_word c) s'
      else labels_from (is_word c) s'
  end.

Definition labels (s : string) : list string := labels_from false s.

End Re.

(** [parseInt(d, 10)] on a string of decimal digits.  Numbers are
    integers here; the value is the one of the source up to 2^53, beyond
    which the source rounds to a double. *)
Definition parseInt (d : string) : Z :=
  fold_left (fun acc c => 10 * acc + (Z.of_nat (nat_of_ascii c) - 48))
            (list_ascii_of_string d) 0.

(** [[...new Set(l)]]: first occurrences, in order. *)
Fixpoint unique_from (seen l : list string) : list string :=
  match l with
  | [] => []
  | x :: r =>
      if existsb (String.eqb x) seen then unique_from seen r
      else x :: unique_from (x :: seen) r
  end.

(** ** Tutor state and turn results *)

Record Metadata := {
  timestamp : string;
  iteration_count : Z;
}.

Record TutorState := {
  st_current_node : NodeType;
  st_user_id : string;
  st_session_id : string;
  st_context : gmap string JSValue;
  st_metadata : Metadata;
}.

Record TurnResult := {
  response : string;
  current_node : NodeType;
  available_transitions : list NodeType;
  session_context : JSValue;
  metadata : Metadata;
}.

Definition all_transitions : list NodeType :=
  [CodeFeedback; ConceptExplainer; QuizGenerator; MistakeAnalyzer].

Definition transitions_value : JSValue :=
  JArr (List.map (fun n => JStr (node_tag n)) all_transitions).

(** ** Mode executors *)

Definition codeFeedbackPrompt (difficulty : string) (languages : string) (learningStyle : string) (userInput : string) (codeSection : string) : string :=
    "You are an expert programming tutor in Code Feedback Mode. Your role is to provide detailed, constructive code analysis and feedback.

Student Profile:
- Level: "
    +:+ difficulty
    +:+ "
- Preferred Languages: "
    +:+ languages
    +:+ "
- Learning Style: "
    +:+ learningStyle
    +:+ "

User Request: "
    +:+ dq
    +:+ userInput
    +:+ dq
    +:+ "

"
    +:+ codeSection
    +:+ "

Instructions:
- If code is provided, give specific feedback on bugs, improvements, and best practices
- If no code is provided, explain how you can help and ask for code to review
- Tailor your explanation to the "
    +:+ difficulty
    +:+ " level
- Be encouraging and educational
- Provide actionable suggestions

Response format: Start with "
    +:+ dq
    +:+ "[Code Feedback Mode]"
    +:+ dq
    +:+ " then provide your analysis.".

Definition codeFeedbackFallback (difficulty : string) (languages : string) (closing : string) : string :=
    "[Code Feedback Mode] Hello! I'm your AI code reviewer, ready to help you improve your "
    +:+ languages
    +:+ " code.

As a "
    +:+ difficulty
    +:+ " level developer, I can analyze your code for:
- 🐛 Bug detection and fixes
- ✨ Code optimization suggestions  
- 📚 Best practices recommendations
- 🔧 Debugging assistance

"
    +:+ closing.

Definition conceptExplainerPrompt (difficulty : string) (languages : string) (learningStyle : string) (userInput : string) : string :=
    "You are an expert programming tutor in Concept Explainer Mode. Your role is to explain programming concepts clearly and effectively.

Student Profile:
- Level: "
    +:+ difficulty
    +:+ "
- Preferred Languages: "
    +:+ languages
    +:+ "
- Learning Style: "
    +:+ learningStyle
    +:+ "

User Request: "
    +:+ dq
    +:+ userInput
    +:+ dq
    +:+ "

Instructions:
- Explain the requested concept in simple, clear terms appropriate for a "
    +:+ difficulty
    +:+ " level
- Use "
    +:+ learningStyle
    +:+ " learning approaches with practical examples
- If the request is general, offer to explain popular "
    +:+ languages
    +:+ " concepts
- Provide code examples when helpful
- Use analogies and real-world comparisons for complex concepts
- Be encouraging and build confidence
- Break down complex topics into digestible parts

Response format: Start with "
    +:+ dq
    +:+ "[Concept Explainer Mode]"
    +:+ dq
    +:+ " then provide your explanation.".

Definition conceptExplainerFallback (difficulty : string) (languages : string) (learningStyle : string) (closing : string) : string :=
    "[Concept Explainer Mode] Hello! I'm your AI programming tutor, specialized in explaining "
    +:+ languages
    +:+ " concepts! 📚

🎯 Tailored for your "
    +:+ difficulty
    +:+ " level using "
    +:+ learningStyle
    +:+ " learning approaches.

I can help explain:
• "
    +:+ languages
    +:+ " fundamentals and advanced topics
• Programming patterns and best practices  
• Problem-solving techniques
• Code organization and architecture

"
    +:+ closing
    +:+ "

💡 I'll use simple terms, real examples, and step-by-step breakdowns!".

Definition conceptExplainerGreatQuestion (userInput : string) : string :=
    "Great question about "
    +:+ dq
    +:+ userInput
    +:+ dq
    +:+ "! I'd love to break this down for you with practical examples.".

Definition quizGeneratorPrompt (difficulty : string) (languages : string) (userInput : string) : string :=
    "You are an expert programming tutor in Quiz Mode. Your role is to create engaging, educational programming quizzes and practice questions.

Student Profile:
- Level: "
    +:+ difficulty
    +:+ "
- Preferred Languages: "
    +:+ languages
    +:+ "
- Request: "
    +:+ dq
    +:+ userInput
    +:+ dq
    +:+ "

Instructions:
- Create questions appropriate for "
    +:+ difficulty
    +:+ " level programmers
- Focus on "
    +:+ languages
    +:+ " programming concepts
- If user wants to "
    +:+ dq
    +:+ "start quiz"
    +:+ dq
    +:+ " or "
    +:+ dq
    +:+ "create quiz"
    +:+ dq
    +:+ ", generate 1-2 multiple choice questions with code examples
- Include clear explanations for answers
- Make questions practical and relevant to real programming scenarios
- If user asks for specific topics, create questions about those topics
- Use code snippets when appropriate
- Always explain the reasoning behind correct answers

Response format: Start with "
    +:+ dq
    +:+ "[Quiz Mode]"
    +:+ dq
    +:+ " then provide your quiz content with questions, options, and explanations.".

Definition quizGeneratorFallback (difficultyUpper : string) (languages : string) (closing : string) : string :=
    "[Quiz Mode] 🧠 Ready to test your "
    +:+ languages
    +:+ " programming knowledge? 

🎯 **"
    +:+ difficultyUpper
    +:+ " Level Quiz Available**

I can create personalized quizzes featuring:
• "
    +:+ languages
    +:+ " syntax and concepts
• Code output prediction challenges  
• Debugging exercises
• Best practices questions
• Logic and problem-solving

"
    +:+ closing
    +:+ "

💡 Say "
    +:+ dq
    +:+ "start quiz"
    +:+ dq
    +:+ " for a random challenge, or request questions on specific topics!".

Definition quizGeneratorChallenge (languages : string) : string :=
    "**🚀 Quick "
    +:+ languages
    +:+ " Challenge:**
  
  What will this code output?
  ```javascript
  const arr = [1, 2, 3];
  console.log(arr.map(x => x * 2));
  ```
  
  a) [1, 2, 3]
  b) [2, 4, 6]  
  c) [1, 4, 9]
  d) undefined
  
  **Answer: b) [2, 4, 6]** - map() creates a new array with each element multiplied by 2!".

Definition mistakeAnalyzerPrompt (difficulty : string) (languages : string) (sessionsCompleted : string) (userInput : string) : string :=
    "You are an expert programming tutor in Progress Analysis Mode. Your role is to analyze learning patterns, identify common mistakes, and provide personalized improvement guidance.

Student Profile:
- Level: "
    +:+ difficulty
    +:+ "
- Preferred Languages: "
    +:+ languages
    +:+ "
- Sessions Completed: "
    +:+ sessionsCompleted
    +:+ "
- Request: "
    +:+ dq
    +:+ userInput
    +:+ dq
    +:+ "

Instructions:
- If user asks about progress, provide encouraging analysis of their learning journey
- If user mentions specific mistakes or errors, analyze the root cause and provide solutions
- Give practical advice for improvement based on their "
    +:+ difficulty
    +:+ " level
- Identify common mistake patterns for "
    +:+ languages
    +:+ " programming
- Suggest specific practice exercises and learning resources
- Be supportive and focus on growth rather than criticism
- Provide actionable next steps for improvement
- Include both strengths and areas for growth

Response format: Start with "
    +:+ dq
    +:+ "[Progress Analyzer Mode]"
    +:+ dq
    +:+ " then provide your analysis with learning profile, recommendations, and actionable steps.".

Definition mistakeAnalyzerFallback (difficulty : string) (languages : string) (sessionsCompleted : string) (learningStyle : string) (closing : string) : string :=
    "[Progress Analyzer Mode] 📊 Let's analyze your "
    +:+ languages
    +:+ " programming journey! 

**Your Learning Profile:**
- Current Level: "
    +:+ difficulty
    +:+ "
- Sessions Completed: "
    +:+ sessionsCompleted
    +:+ "
- Focus Languages: "
    +:+ languages
    +:+ "
- Learning Style: "
    +:+ learningStyle
    +:+ "

"
    +:+ closing
    +:+ "

💡 What specific area would you like personalized feedback on?".

Definition mistakeAnalyzerErrorFocus (difficulty : string) : string :=
    "🔍 **Error Analysis Focus:**
  
  **Common "
    +:+ difficulty
    +:+ " Level Challenges:**
  • Syntax errors and typos
  • Logic bugs in conditionals/loops
  • Scope and variable confusion
  • Async/await misunderstanding
  
  **Improvement Strategy:**
  ✅ Test code frequently in small chunks
  ✅ Use console.log() for debugging
  ✅ Read error messages carefully
  ✅ Practice with online coding platforms
  
  **Share your specific error for detailed analysis!**".

Definition mistakeAnalyzerGrowth (difficulty : string) (languages : string) : string :=
    "📈 **Growth Opportunities:**
  
  **Strengths to Build On:**
  ✅ Active learning engagement
  ✅ "
    +:+ difficulty
    +:+ " level "
    +:+ languages
    +:+ " understanding
  ✅ Problem-solving mindset
  
  **Next Level Skills:**
  🎯 Advanced "
    +:+ languages
    +:+ " patterns
  🎯 Code organization & best practices
  🎯 Testing and debugging techniques
  🎯 Performance optimization basics
  
  **Action Plan:**
  1. Practice coding challenges daily
  2. Build small projects using new concepts
  3. Review and refactor old code
  4. Study other developers' solutions".

Definition quizGenPrompt (total_questions : string) (topic : string) (difficultyLabelUpper : string) (languages : string) (difficultyLabel : string) : string :=
    "You are an expert programming tutor in Quiz Mode. Create "
    +:+ total_questions
    +:+ " multiple choice questions about "
    +:+ dq
    +:+ topic
    +:+ dq
    +:+ " for a "
    +:+ difficultyLabelUpper
    +:+ " level student using "
    +:+ languages
    +:+ ". Make the questions appropriately challenging for a "
    +:+ difficultyLabel
    +:+ " level. Each question should have 4 options (a, b, c, d) and indicate the correct answer and a brief explanation. Respond in JSON array format: [{question, options: {a, b, c, d}, answer, explanation}].".

Definition fallbackResponse : string :=
    "I'm here to help you learn programming! You can ask me to:

• **Review your code** - Just paste it and I'll provide feedback
• **Explain concepts** - Ask about any programming topic
• **Create quizzes** - Test your knowledge with interactive questions
• **Track progress** - See your learning journey and improvements

What would you like to work on today?".

(** [languages?.join(', ') || 'JavaScript']: calling [join] on anything but
    an array throws. *)
Definition joinLanguages (languages : JSValue) : M JSValue :=
  match languages with
  | JUndefined | JNull => ret (JStr "JavaScript")
  | JArr l => ret (JS.or_else (JStr (JS.join ", " l)) (JStr "JavaScript"))
  | _ => throw (TypeError "preferred_languages?.join is not a function")
  end.

Section Executors.

Context (B : Builtins) (S : Services).

(** [state.context.user_preferences?.k]. *)
Definition preference (state : TutorState) (k : string) : JSValue :=
  JS.opt_get (JS.field (st_context state) "user_preferences") k.

(** [state.context.user_preferences?.difficulty || 'beginner']. *)
Definition difficulty_of (state : TutorState) : JSValue :=
  JS.or_else (preference state "difficulty") (JStr "beginner").

(** [state.context.user_preferences?.learning_style || 'hands-on']. *)
Definition learning_style_of (state : TutorState) : JSValue :=
  JS.or_else (preference state "learning_style") (JStr "hands-on").

(** [state.context.user_preferences?.preferred_languages?.join(', ')
    || 'JavaScript']. *)
Definition languages_of (state : TutorState) : M JSValue :=
  joinLanguages (preference state "preferred_languages").

(** [v.toLowerCase().includes(k1) || v.toLowerCase().includes(k2) || ...]:
    throws unless [v] is a string. *)
Definition lower_includes_any (v : JSValue) (ks : list string) : M bool :=
  match v with
  | JStr s => ret (existsb (JS.includes (toLowerCase B s)) ks)
  | _ => throw (TypeError "userInput.toLowerCase is not a function")
  end.

(** [v.toUpperCase()]. *)
Definition upper_of (v : JSValue) : M string :=
  match v with
  | JStr s => ret (toUpperCase B s)
  | _ => throw (TypeError "toUpperCase is not a function")
  end.

(** The [try { create(...) ; return content || dflt } catch { fallback }]
    block shared by the four executors. *)
Definition complete (prompt : string) (max_tokens : Z) (dflt : string)
    (fallback : M string) : M string :=
  emit (EvCompletion prompt max_tokens) >>
  match openai_create S prompt with
  | Content s => ret (if String.eqb s "" then dflt else s)
  | NoContent => ret dflt
  | ApiError => fallback
  end.

Definition executeCodeFeedbackNode (state : TutorState) : M string :=
  let difficulty := difficulty_of state in
  let* languages := languages_of state in
  let userInput := JS.field (st_context state) "user_input" in
  let last_code_snippet := JS.field (st_context state) "last_code_snippet" in
  let prompt :=
    codeFeedbackPrompt (JS.to_string difficulty) (JS.to_string languages)
      (JS.to_string (learning_style_of state)) (JS.to_string userInput)
      (if JS.truthy last_code_snippet
       then "Code to analyze: " +:+ JS.to_string last_code_snippet
       else "No code provided yet.") in
  complete prompt 500
    "[Code Feedback Mode] I'm ready to help you with code analysis! Please share your code and I'll provide detailed feedback."
    (let* hit := lower_includes_any userInput ["code"; "review"] in
     ret (codeFeedbackFallback (JS.to_string difficulty) (JS.to_string languages)
            (if hit
             then "Please paste your code here and I'll give you detailed, actionable feedback!"
             else "Feel free to ask specific coding questions or share code for review!"))).

Definition executeConceptExplainerNode (state : TutorState) : M string :=
  let difficulty := difficulty_of state in
  let learningStyle := learning_style_of state in
  let* languages := languages_of state in
  let userInput := JS.field (st_context state) "user_input" in
  let prompt :=
    conceptExplainerPrompt (JS.to_string difficulty) (JS.to_string languages)
      (JS.to_string learningStyle) (JS.to_string userInput) in
  complete prompt 600
    "[Concept Explainer Mode] I'm ready to explain any programming concept! What would you like to learn about?"
    (let* hit := lower_includes_any userInput ["explain"; "what"; "how"] in
     ret (conceptExplainerFallback (JS.to_string difficulty) (JS.to_string languages)
            (JS.to_string learningStyle)
            (if hit
             then conceptExplainerGreatQuestion (JS.to_string userInput)
             else "What programming concept would you like me to explain today? Just ask!"))).

Definition executeQuizGeneratorNode (state : TutorState) : M string :=
  let difficulty := difficulty_of state in
  let* languages := languages_of state in
  let userInput := JS.field (st_context state) "user_input" in
  let prompt :=
    quizGeneratorPrompt (JS.to_string difficulty) (JS.to_string languages)
      (JS.to_string userInput) in
  complete prompt 800
    "[Quiz Mode] I'm ready to create personalized programming quizzes for you! What topic would you like to be quizzed on?"
    (let* difficultyUpper := upper_of difficulty in
     let* hit := lower_includes_any userInput ["quiz"; "test"; "question"] in
     ret (quizGeneratorFallback difficultyUpper (JS.to_string languages)
            (if hit
             then quizGeneratorChallenge (JS.to_string languages)
             else "What specific topic would you like me to quiz you on? Just ask!"))).

Definition executeMistakeAnalyzerNode (state : TutorState) : M string :=
  let difficulty := difficulty_of state in
  let* languages := languages_of state in
  let userInput := JS.field (st_context state) "user_input" in
  let sessionsCompleted :=
    JS.or_else (JS.opt_get (JS.field (st_context state) "conversation_history") "length")
               (JNum 0) in
  let prompt :=
    mistakeAnalyzerPrompt (JS.to_string difficulty) (JS.to_string languages)
      (JS.to_string sessionsCompleted) (JS.to_string userInput) in
  complete prompt 700
    "[Progress Analyzer Mode] I'm ready to analyze your programming progress and help you improve! What would you like to work on?"
    (let* hit := lower_includes_any userInput ["mistake"; "error"; "wrong"] in
     ret (mistakeAnalyzerFallback (JS.to_string difficulty) (JS.to_string languages)
            (JS.to_string sessionsCompleted) (JS.to_string (learning_style_of state))
            (if hit
             then mistakeAnalyzerErrorFocus (JS.to_string difficulty)
             else mistakeAnalyzerGrowth (JS.to_string difficulty) (JS.to_string languages)))).

End Executors.

(** ** Dialogue orchestrator *)

Section Orchestrator.

Context (B : Builtins) (S : Services).

(** The preferences used when the user store is unreachable. *)
Definition fallback_preferences : JSValue :=
  JObj (list_to_map
    [("difficulty", JStr "beginner");
     ("preferred_languages", JArr [JStr "javascript"; JStr "react"; JStr "typescript"]);
     ("learning_style", JStr "hands-on");
     ("explanation_mode", JStr "simple");
     ("topics_of_interest",
        JArr [JStr "web-development"; JStr "frontend";
              JStr "javascript-fundamentals"; JStr "react-hooks"]);
     ("session_count", JNum 1);
     ("preferred_pace", JStr "moderate")]).

(** [try { user = await db.getUserById(userId); user?.preferences }
     catch { fallback }]. *)
Definition loadUserPreferences (userId : string) : M JSValue :=
  try_catch
    (let* user := getUserById S userId in ret (JS.opt_get user "preferences"))
    (fun _ => ret fallback_preferences).

(** [q.options.map((opt, idx) => `${String.fromCharCode(65 + idx)}) ${opt}`)]:
    throws unless [q.options] is an array. *)
Definition option_lines (options : JSValue) : M (list JSValue) :=
  match options with
  | JArr l =>
      ret (imap (fun idx opt =>
                   JStr (JS.fromCharCode (65 + Z.of_nat idx) +:+ ") " +:+ JS.to_string opt)) l)
  | JUndefined | JNull =>
      throw (TypeError "Cannot read properties of undefined (reading 'map')")
  | _ => throw (TypeError "q.options.map is not a function")
  end.

(** [idx !== correctIdx] on numbers, [None] standing for NaN. *)
Definition differs (idx correctIdx : option Z) : bool :=
  match idx, correctIdx with
  | Some a, Some b => negb (a =? b)
  | _, _ => true
  end.

(** [q.options[idx]], with [None] for the index NaN. *)
Definition option_at (options : JSValue) (idx : option Z) : JSValue :=
  match idx with
  | Some i => JS.index options i
  | None => JUndefined
  end.

(** One round of the loop over the distinct answer labels. *)
Definition why_not (q : JSValue) (correctIdx : option Z) (resp label : string) : string :=
  let idx := option_map (fun c => c - 65) (JS.charCodeAt0 label) in
  let options := JS.opt_get q "options" in
  if differs idx correctIdx && JS.truthy (option_at options idx)
  then resp +:+ nl +:+ nl +:+ "Option " +:+ label +:+ ") "
       +:+ JS.to_string (option_at options idx)
       +:+ " is not correct because it does not satisfy the requirements of the question or is not the best answer."
  else resp.

(** The text served for question [qNum] (0-based) of the quiz. *)
Definition explainQuestion (userInput : string) (qNum : Z) (q : JSValue) : M string :=
  let answerMatch := Re.labels userInput in
  let correctIdx :=
    match JS.opt_get q "correct_answer" with
    | JStr s => option_map (fun c => c - 65) (JS.charCodeAt0 (toUpperCase B s))
    | _ => Some (-1)
    end in
  let* lines := option_lines (JS.opt_get q "options") in
  let response :=
    "Q" +:+ show_Z (qNum + 1) +:+ ": " +:+ JS.to_string (JS.opt_get q "question")
    +:+ nl +:+ nl +:+ "Options:" +:+ nl +:+ JS.join nl lines
    +:+ nl +:+ nl +:+ "Correct Answer: " +:+ JS.to_string (JS.opt_get q "correct_answer")
    +:+ nl +:+ nl +:+ "Explanation: " +:+ JS.to_string (JS.opt_get q "explanation") in
  let uniqueLabels := unique_from [] (List.map (toUpperCase B) answerMatch) in
  ret (fold_left (why_not q correctIdx) uniqueLabels response).

Definition noSuchQuestion (qNum : Z) : string :=
  "Sorry, your current quiz does not have a question " +:+ show_Z (qNum + 1)
  +:+ ". Please check the question number and try again.".

(** The quiz follow-up interception at the head of [executeGraph]:
    [Some r] when it returns [r], [None] when control falls through to the
    normal pipeline. *)
Definition quizFollowUp (userInput : string) (currentContext : JSValue)
    : M (option TurnResult) :=
  if JS.truthy currentContext
     && JS.truthy (JS.opt_get currentContext "quizContext")
     && Re.test_reference userInput
  then
    let quiz := JS.opt_get currentContext "quizContext" in
    match Re.reference_number userInput with
    | Some d =>
        let qNum := parseInt d - 1 in
        if JS.truthy (JS.opt_get quiz "questions")
           && JS.truthy (JS.index (JS.opt_get quiz "questions") qNum)
        then
          let q := JS.index (JS.opt_get quiz "questions") qNum in
          let* response := explainQuestion userInput qNum q in
          let* t := now S in
          ret (Some {| response := response;
                       current_node := QuizGenerator;
                       available_transitions := all_transitions;
                       session_context := currentContext;
                       metadata := {| timestamp := t; iteration_count := 0 |} |})
        else
          let* t := now S in
          ret (Some {| response := noSuchQuestion qNum;
                       current_node := QuizGenerator;
                       available_transitions := all_transitions;
                       session_context := currentContext;
                       metadata := {| timestamp := t; iteration_count := 0 |} |})
    | None => ret None
    end
  else ret None.

(** [const state: TutorState = { ... context: { user_preferences,
    conversation_history: currentContext?.conversation_history || [],
    available_transitions: [], user_input: userInput, ...currentContext },
    ... }]: the spread comes last, so a key of [currentContext] replaces
    the key written before it. *)
Definition initialState (userId sessionId userInput : string)
    (currentContext userPreferences : JSValue) : M TutorState :=
  let context : gmap string JSValue :=
    JS.spread currentContext ∪
    list_to_map
      [("user_preferences", userPreferences);
       ("conversation_history",
          JS.or_else (JS.opt_get currentContext "conversation_history") (JArr []));
       ("available_transitions", JArr []);
       ("user_input", JStr userInput)] in
  let* t := now S in
  ret {| st_current_node := Router;
         st_user_id := userId;
         st_session_id := sessionId;
         st_context := context;
         st_metadata := {| timestamp := t; iteration_count := 0 |} |}.

(** The [switch (targetNode)] of [executeGraph]. *)
Definition dispatch (targetNode : NodeType) (state : TutorState) : M string :=
  match targetNode with
  | CodeFeedback => executeCodeFeedbackNode B S state
  | ConceptExplainer => executeConceptExplainerNode B S state
  | QuizGenerator => executeQuizGeneratorNode B S state
  | MistakeAnalyzer => executeMistakeAnalyzerNode B S state
  | Router => executeConceptExplainerNode B S state
  end.

(** [state.context.conversation_history.push({ timestamp, user_input, node,
    response })]. *)
Definition pushHistory (userInput : string) (targetNode : NodeType)
    (response : string) (context : gmap string JSValue)
    : M (gmap string JSValue) :=
  match JS.field context "conversation_history" with
  | JArr h =>
      let* t := now S in
      let entry : gmap string JSValue :=
        list_to_map
          [("timestamp", JStr t); ("user_input", JStr userInput);
           ("node", JStr (node_tag targetNode)); ("response", JStr response)] in
      ret (<["conversation_history" := JArr (h ++ [JObj entry])%list]> context)
  | JUndefined | JNull =>
      throw (TypeError "Cannot read properties of undefined (reading 'push')")
  | _ =>
      let* t := now S in
      throw (TypeError "state.context.conversation_history.push is not a function")
  end.

(** [saveSessionState]: the update is attempted and a failure is logged
    and swallowed. *)
Definition saveSessionState (sessionId : string) (state : TutorState) : M unit :=
  let updates : gmap string JSValue :=
    list_to_map
      [("current_node", JStr (node_tag (st_current_node state)));
       ("context", JObj (st_context state));
       ("conversation_history", JS.field (st_context state) "conversation_history");
       ("available_transitions", transitions_value)] in
  try_catch
    (emit (EvUpdateChatSession sessionId updates) >>
     if db_updateChatSession S sessionId updates then ret tt
     else throw (ServiceError "updateChatSession"))
    (fun _ => ret tt).

(** The body of the outer [try] of [executeGraph]. *)
Definition executeGraph_try (userId sessionId userInput : string)
    (currentContext : JSValue) : M TurnResult :=
  let* userPreferences := loadUserPreferences userId in
  let* intercepted := quizFollowUp userInput currentContext in
  match intercepted with
  | Some r => ret r
  | None =>
      let* state := initialState userId sessionId userInput currentContext userPreferences in
      let targetNode := determineNode B userInput (st_context state) in
      let state :=
        {| st_current_node := targetNode;
           st_user_id := st_user_id state;
           st_session_id := st_session_id state;
           st_context := st_context state;
           st_metadata := st_metadata state |} in
      let* response := dispatch targetNode state in
      let context := <["node_output" := JStr response]> (st_context state) in
      let* context := pushHistory userInput targetNode response context in
      let state :=
        {| st_current_node := targetNode;
           st_user_id := st_user_id state;
           st_session_id := st_session_id state;
           st_context := context;
           st_metadata := st_metadata state |} in
      saveSessionState sessionId state >>
      ret {| response := response;
             current_node := targetNode;
             available_transitions := all_transitions;
             session_context := JObj (st_context state);
             metadata := st_metadata state |}
  end.

(** The [catch] of [executeGraph]. *)
Definition executeGraph_catch (userInput : string) (_ : Exn) : M TurnResult :=
  let* t := now S in
  ret {| response := fallbackResponse;
         current_node := ConceptExplainer;
         available_transitions := all_transitions;
         session_context :=
           JObj (list_to_map [("user_input", JStr userInput);
                              ("conversation_history", JArr [])]);
         metadata := {| timestamp := t; iteration_count := 0 |} |}.

Definition executeGraph (userId sessionId userInput : string)
    (currentContext : JSValue) : M TurnResult :=
  try_catch (executeGraph_try userId sessionId userInput currentContext)
            (executeGraph_catch userInput).

End Orchestrator.

(** ** Quiz engine: question generation *)

Module Text.

(** [s.replace(/```json|```/gi, '')]: every code fence, with its optional
    [json] tag, is removed.  [skip] counts the characters of a fence that
    are still to be dropped. *)
Fixpoint strip_fences_from (skip : nat) (s : string) : string :=
  match s with
  | EmptyString => EmptyString
  | String c s' =>
      match skip with
      | Datatypes.S k => strip_fences_from k s'
      | O =>
          match Re.lit_ci "```json" s, Re.lit_ci "```" s with
          | Some _, _ => strip_fences_from 6 s'
          | None, Some _ => strip_fences_from 2 s'
          | None, None => String c (strip_fences_from 0 s')
          end
      end
  end.

Definition strip_fences (s : string) : string := strip_fences_from 0 s.

Definition rev_string (s : string) : string :=
  string_of_list_ascii (List.rev (list_ascii_of_string s)).

(** [s.trimEnd()]: the string is cut at the first position from which
    only white space follows.  Such a position is the start of a
    character, since no white-space character starts with a byte that
    continues another character. *)
Fixpoint trim_end (s : string) : string :=
  match s with
  | EmptyString => EmptyString
  | String c r => if Re.only_spaces s then EmptyString else String c (trim_end r)
  end.

(** [s.trim()]: white space is what [\s] matches. *)
Definition trim (s : string) : string := trim_end (Re.skip_spaces s).

Definition is_close (c : ascii) : bool := Ascii.eqb c "]"%char.
Definition is_open (c : ascii) : bool := Ascii.eqb c "["%char.

(** The longest prefix of [s] that ends with a closing bracket. *)
Definition upto_last_close (s : string) : option string :=
  match rev_string (Re.drop_while (fun c => negb (is_close c)) (rev_string s)) with
  | EmptyString => None
  | t => Some t
  end.

(** [s.match(/\[.*\]/s)]: from the first opening bracket to the last
    closing bracket after it. *)
Definition find_array (s : string) : option string :=
  match Re.drop_while (fun c => negb (is_open c)) s with
  | EmptyString => None
  | String c rest =>
      match upto_last_close rest with
      | Some t => Some (String c t)
      | None => None
      end
  end.

End Text.

(** The option normalisation inside the mapping callback of
    [generateQuizQuestions]: a labelled object is read at the keys a, b, c,
    d; an array is taken as it is; anything else gives no options. *)
Definition optionsArr (options : JSValue) : list JSValue :=
  match options with
  | JObj m => List.map (fun key => JS.or_else (JS.field m key) (JStr "")) ["a"; "b"; "c"; "d"]
  | JArr l => l
  | _ => []
  end.

(** The object that stands in when no quiz could be produced. *)
Definition placeholderQuestion (text : string) : JSValue :=
  JObj {[ "question" := JStr text ]}.

Section QuizGeneration.

Context (B : Builtins) (S : Services).

(** [Date.now()]. *)
Definition date_now : M Z :=
  fun w => (Ok (epoch_ms S (List.length w)), (w ++ [EvClock])%list).

(** [q.k] on an element of the parsed array: throws on [null]. *)
Definition member (q : JSValue) (k : string) : M JSValue :=
  if JS.nullish q
  then throw (TypeError "Cannot read properties of null")
  else ret (JS.opt_get q k).

(** The callback of [rawQuestions.map((q, idx) => ...)]. *)
Definition mapQuestion (topic quizDifficulty : string) (idx : nat) (q : JSValue)
    : M JSValue :=
  let* options := member q "options" in
  let* stamp := date_now in
  ret (JObj (list_to_map
    [("id", JStr (show_Z stamp +:+ "_" +:+ show_Z (Z.of_nat idx)));
     ("type", JStr "mcq");
     ("question", JS.or_else (JS.opt_get q "question") (JStr ""));
     ("options", JArr (optionsArr options));
     ("code_snippet", JS.or_else (JS.opt_get q "code_snippet") (JStr ""));
     ("correct_answer", JS.or_else (JS.opt_get q "answer") (JStr ""));
     ("explanation", JS.or_else (JS.opt_get q "explanation") (JStr ""));
     ("difficulty", JStr quizDifficulty);
     ("concepts", JArr [JStr topic])])).

Fixpoint mapQuestions (topic quizDifficulty : string) (idx : nat)
    (qs : list JSValue) : M (list JSValue) :=
  match qs with
  | [] => ret []
  | q :: rest =>
      let* q' := mapQuestion topic quizDifficulty idx q in
      let* rest' := mapQuestions topic quizDifficulty (Datatypes.S idx) rest in
      ret (q' :: rest')
  end.

(** The statements before the [try]: preferences, effective difficulty and
    the prompt.  They are not guarded, so a stored difficulty that is not a
    string, or stored languages that are not an array, make the call throw. *)
Definition quizPrelude (topic : string) (total_questions : JSValue)
    (userId : string) (difficulty : JSValue) : M (string * string) :=
  let total_questions :=
    match total_questions with JUndefined => JNum 5 | v => v end in
  let* userPreferences :=
    try_catch
      (let* user := getUserById S userId in
       ret (JS.or_else (JS.opt_get user "preferences") (JObj ∅)))
      (fun _ => ret (JObj ∅)) in
  let* quizDifficulty :=
    match JS.or_else difficulty
            (JS.or_else (JS.opt_get userPreferences "difficulty") (JStr "beginner")) with
    | JStr s => ret (toLowerCase B s)
    | _ => throw (TypeError "toLowerCase is not a function")
    end in
  let difficultyLabel :=
    match quizDifficulty with
    | EmptyString => toUpperCase B ""
    | String c rest => toUpperCase B (String c EmptyString) +:+ rest
    end in
  let* languages := joinLanguages (JS.opt_get userPreferences "preferred_languages") in
  ret (quizDifficulty,
       quizGenPrompt (JS.to_string total_questions) topic
         (toUpperCase B difficultyLabel) (JS.to_string languages) difficultyLabel).

(** The body of the [try] of [generateQuizQuestions]. *)
Definition generateQuiz_try (topic quizDifficulty prompt : string)
    : M (list JSValue) :=
  emit (EvCompletion prompt 1200) >>
  let* content :=
    match openai_create S prompt with
    | ApiError => throw (ServiceError "chat.completions.create")
    | NoContent => ret ""
    | Content s => ret s
    end in
  let content := Text.trim (Text.strip_fences content) in
  match Text.find_array content with
  | Some text =>
      let* rawQuestions :=
        match JSON_parse B text with
        | Some v => ret v
        | None => throw (SyntaxError "JSON.parse")
        end in
      match rawQuestions with
      | JArr qs => mapQuestions topic quizDifficulty 0 qs
      | _ => throw (TypeError "rawQuestions.map is not a function")
      end
  | None =>
      ret [placeholderQuestion ("No quiz generated for topic: " +:+ topic)]
  end.

Definition generateQuizQuestions (topic : string) (total_questions : JSValue)
    (userId : string) (difficulty : JSValue) : M (list JSValue) :=
  let* prelude := quizPrelude topic total_questions userId difficulty in
  let quizDifficulty := fst prelude in
  let prompt := snd prelude in
  try_catch
    (generateQuiz_try topic quizDifficulty prompt)
    (fun _ => ret [placeholderQuestion ("Failed to generate quiz for topic: " +:+ topic)]).

End QuizGeneration.

(** The [QuizQuestion] interface of the record store, as a check on a
    value: the required fields are present with their types, the optional
    ones are absent or well typed. *)
Definition is_string (v : JSValue) : bool :=
  match v with JStr _ => true | _ => false end.

Definition is_string_array (v : JSValue) : bool :=
  match v with JArr l => forallb is_string l | _ => false end.

Definition optional (check : JSValue -> bool) (v : JSValue) : bool :=
  match v with JUndefined => true | _ => check v end.

Definition is_QuizQuestion (v : JSValue) : bool :=
  match v with
  | JObj m =>
      is_string (JS.field m "id")
      && match JS.field m "type" with
         | JStr t => existsb (String.eqb t) ["mcq"; "code_completion"; "explain_output"; "debug"]
         | _ => false
         end
      && is_string (JS.field m "question")
      && optional is_string_array (JS.field m "options")
      && optional is_string (JS.field m "code_snippet")
      && is_string (JS.field m "correct_answer")
      && is_string (JS.field m "explanation")
      && is_string (JS.field m "difficulty")
      && is_string_array (JS.field m "concepts")
  | _ => false
  end.

(** ** Quiz engine: stored sessions and grading *)

(** A row of the [quiz_sessions] table.  Questions and answers are JSON
    objects; their fields are read by name. *)
Record QuizSession := {
  qs_id : string;
  qs_user_id : string;
  qs_questions : list (gmap string JSValue);
  qs_answers : list (gmap string JSValue);
  qs_score : Z;
  qs_total_questions : Z;
  qs_completed : bool;
  qs_time_taken : Z;
  qs_created_at : string;
  qs_completed_at : option string;
}.

(** [Partial<QuizSession>]: the columns an update sets. *)
Record QuizSessionUpdates := {
  up_user_id : option string;
  up_questions : option (list (gmap string JSValue));
  up_answers : option (list (gmap string JSValue));
  up_score : option Z;
  up_total_questions : option Z;
  up_completed : option bool;
  up_time_taken : option Z;
  up_completed_at : option string;
}.

Definition apply_updates (u : QuizSessionUpdates) (s : QuizSession) : QuizSession :=
  {| qs_id := qs_id s;
     qs_user_id := default (qs_user_id s) (up_user_id u);
     qs_questions := default (qs_questions s) (up_questions u);
     qs_answers := default (qs_answers s) (up_answers u);
     qs_score := default (qs_score s) (up_score u);
     qs_total_questions := default (qs_total_questions s) (up_total_questions u);
     qs_completed := default (qs_completed s) (up_completed u);
     qs_time_taken := default (qs_time_taken s) (up_time_taken u);
     qs_created_at := qs_created_at s;
     qs_completed_at :=
       match up_completed_at u with
       | Some t => Some t
       | None => qs_completed_at s
       end |}.

Module Db.

(** [db.getUserQuizSessions(userId)]: the rows owned by the user. *)
Definition getUserQuizSessions (userId : string) (table : list QuizSession)
    : list QuizSession :=
  List.filter (fun s => String.eqb (qs_user_id s) userId) table.

(** [db.updateQuizSession(sessionId, updates)]: the row with that id takes
    the given columns. *)
Definition updateQuizSession (sessionId : string) (updates : QuizSessionUpdates)
    (table : list QuizSession) : list QuizSession :=
  List.map (fun s => if String.eqb (qs_id s) sessionId then apply_updates updates s else s)
           table.

End Db.

(** [questions.find(qq => qq.id === id)]. *)
Definition findQuestion (questions : list (gmap string JSValue)) (id : JSValue)
    : option (gmap string JSValue) :=
  List.find (fun qq => JS.strict_eq (JS.field qq "id") id) questions.

(** [q && ans.user_answer === q.correct_answer]. *)
Definition is_correct (questions : list (gmap string JSValue))
    (ans : gmap string JSValue) : JSValue :=
  match findQuestion questions (JS.field ans "question_id") with
  | Some q => JBool (JS.strict_eq (JS.field ans "user_answer") (JS.field q "correct_answer"))
  | None => JUndefined
  end.

(** The object the mapping callback returns for one answer. *)
Definition detailedAnswer (ans : gmap string JSValue) (correct : JSValue)
    (stamp : string) : gmap string JSValue :=
  list_to_map
    [("question_id", JS.field ans "question_id");
     ("user_answer", JS.field ans "user_answer");
     ("is_correct", correct);
     ("time_taken", JS.or_else (JS.field ans "time_taken") (JNum 0));
     ("timestamp", JStr stamp)].

(** [answers.map(ans => { ...; if (is_correct) score++; return {...} })]:
    the callback runs over the answers in order and bumps the captured
    counter [score]. *)
Fixpoint detailAnswers (questions : list (gmap string JSValue)) (stamp : string)
    (answers : list (gmap string JSValue)) (score : Z)
    : list (gmap string JSValue) * Z :=
  match answers with
  | [] => ([], score)
  | ans :: rest =>
      let correct := is_correct questions ans in
      let score := if JS.truthy correct then score + 1 else score in
      let '(rest', score') := detailAnswers questions stamp rest score in
      (detailedAnswer ans correct stamp :: rest', score')
  end.

(** One entry of [wrong_explanations]. *)
Definition explainWrong (questions : list (gmap string JSValue))
    (a : gmap string JSValue) : gmap string JSValue :=
  let q := findQuestion questions (JS.field a "question_id") in
  let read k := match q with Some q => JS.field q k | None => JUndefined end in
  list_to_map
    [("question", read "question");
     ("correct_answer", read "correct_answer");
     ("explanation", read "explanation")].

Inductive SubmitResponse :=
| Unauthorized
| NotFound
| Graded (score : Z) (total_questions : Z)
         (wrong_explanations : list (gmap string JSValue)).

(** [POST /api/quiz/sessions/:sessionId/submit].  [req_user] is the id of
    the authenticated user, if any; [stamp] is the clock reading. *)
Definition submitAnswers (req_user : option string) (sessionId : string)
    (answers : list (gmap string JSValue)) (stamp : string)
    (table : list QuizSession) : SubmitResponse * list QuizSession :=
  match req_user with
  | None => (Unauthorized, table)
  | Some userId =>
      if String.eqb userId "" then (Unauthorized, table)
      else
        let sessions := Db.getUserQuizSessions userId table in
        match List.find (fun s => String.eqb (qs_id s) sessionId) sessions with
        | None => (NotFound, table)
        | Some session =>
            let questions := qs_questions session in
            let '(detailedAnswers, score) := detailAnswers questions stamp answers 0 in
            let table' :=
              Db.updateQuizSession sessionId
                {| up_user_id := None; up_questions := None;
                   up_answers := Some detailedAnswers;
                   up_score := Some score;
                   up_total_questions := None;
                   up_completed := Some true;
                   up_time_taken := None;
                   up_completed_at := Some stamp |} table in
            let wrongExplanations :=
              List.map (explainWrong questions)
                (List.filter (fun a => negb (JS.truthy (JS.field a "is_correct")))
                             detailedAnswers) in
            (Graded score (Z.of_nat (List.length questions)) wrongExplanations, table')
        end
  end.

(** [PATCH /api/quiz/sessions/:sessionId]: the request body goes to the
    store as it is. *)
Definition patchSession (sessionId : string) (updates : QuizSessionUpdates)
    (table : list QuizSession) : list QuizSession :=
  Db.updateQuizSession sessionId updates table.

(** ** Upgrade-tier flow of the chat front end *)

Inductive ApiCall :=
| SubmitQuizAnswers (quizId : string) (answers : list (gmap string JSValue))
| UpdateUserPreferences (preferences : gmap string JSValue).

(** The two methods of the API service the handler calls.  [None] is a
    rejected request. *)
Record Api := {
  (** resolves to [(res.data.score, res.data.total_questions)] *)
  submitQuizAnswers : string -> list (gmap string JSValue) -> option (Z * Z);
  (** resolves to [updated.data.user], when the reply carries one *)
  updateUserPreferences : gmap string JSValue -> option (option (gmap string JSValue));
}.

Record UpgradeResult := {
  ur_score : Z;
  ur_total : Z;
  ur_passed : bool;
}.

(** The part of the component state the handler reads and writes.  [user]
    is the signed-in user of the auth store, [upgradeQuiz] the session
    returned when the upgrade quiz was started. *)
Record ClientState := {
  user : option (gmap string JSValue);
  upgradeQuiz : option QuizSession;
  upgradeQuizAnswers : gmap string JSValue;
  upgradeQuizSubmitting : bool;
  upgradeQuizResult : option UpgradeResult;
}.

Definition setUpgradeQuizSubmitting (b : bool) (st : ClientState) : ClientState :=
  {| user := user st; upgradeQuiz := upgradeQuiz st;
     upgradeQuizAnswers := upgradeQuizAnswers st;
     upgradeQuizSubmitting := b;
     upgradeQuizResult := upgradeQuizResult st |}.

Definition setUpgradeQuizResult (r : UpgradeResult) (st : ClientState) : ClientState :=
  {| user := user st; upgradeQuiz := upgradeQuiz st;
     upgradeQuizAnswers := upgradeQuizAnswers st;
     upgradeQuizSubmitting := upgradeQuizSubmitting st;
     upgradeQuizResult := Some r |}.

Definition setUser (u : gmap string JSValue) (st : ClientState) : ClientState :=
  {| user := Some u; upgradeQuiz := upgradeQuiz st;
     upgradeQuizAnswers := upgradeQuizAnswers st;
     upgradeQuizSubmitting := upgradeQuizSubmitting st;
     upgradeQuizResult := upgradeQuizResult st |}.

(** [if (newLevel === 'beginner') newLevel = 'intermediate'; else if
    (newLevel === 'intermediate') newLevel = 'advanced'; else newLevel =
    'advanced']. *)
Definition newLevel (difficulty : JSValue) : JSValue :=
  if JS.strict_eq difficulty (JStr "beginner") then JStr "intermediate"
  else if JS.strict_eq difficulty (JStr "intermediate") then JStr "advanced"
  else JStr "advanced".

(** [upgradeQuiz.questions.map(q => ({ question_id: q.id, user_answer:
    upgradeQuizAnswers[q.id], time_taken: 0 }))]. *)
Definition upgradeAnswers (quiz : QuizSession) (chosen : gmap string JSValue)
    : list (gmap string JSValue) :=
  List.map (fun q =>
              list_to_map
                [("question_id", JS.field q "id");
                 ("user_answer", JS.field chosen (JS.to_string (JS.field q "id")));
                 ("time_taken", JNum 0)])
           (qs_questions quiz).

(** [handleUpgradeQuizSubmit]: the new component state, the API calls made
    in order, and whether the handler ran to its end ([false]: a request
    was rejected, or [user.preferences] was missing, and the statements
    after it were skipped). *)
Definition handleUpgradeQuizSubmit (api : Api) (st : ClientState)
    : ClientState * list ApiCall * bool :=
  match upgradeQuiz st with
  | None => (st, [], true)
  | Some quiz =>
      let st := setUpgradeQuizSubmitting true st in
      let answers := upgradeAnswers quiz (upgradeQuizAnswers st) in
      let call1 := SubmitQuizAnswers (qs_id quiz) answers in
      match submitQuizAnswers api (qs_id quiz) answers with
      | None => (st, [call1], false)
      | Some (score, total) =>
          let passed := 6 <=? score in
          let st :=
            setUpgradeQuizResult
              {| ur_score := score; ur_total := total; ur_passed := passed |} st in
          match passed, user st with
          | true, Some u =>
              let preferences := JS.field u "preferences" in
              if JS.nullish preferences then (st, [call1], false)
              else
                let level := newLevel (JS.opt_get preferences "difficulty") in
                let sent := <["difficulty" := level]> (JS.spread preferences) in
                let call2 := UpdateUserPreferences sent in
                match updateUserPreferences api sent with
                | None => (st, [call1; call2], false)
                | Some (Some u') =>
                    (setUpgradeQuizSubmitting false (setUser u' st), [call1; call2], true)
                | Some None =>
                    (setUpgradeQuizSubmitting false st, [call1; call2], true)
                end
          | _, _ => (setUpgradeQuizSubmitting false st, [call1], true)
          end
      end
  end.

(** ** Vocabulary of the properties *)

(** [contains s sub]: [sub] occurs in [s] as a contiguous substring. *)
Definition contains (s sub : string) : Prop :=
  exists pre post, s = pre +:+ sub +:+ post.

(** [mentions s ks]: [s] contains at least one keyword of [ks]. *)
Definition mentions (s : string) (ks : list string) : Prop :=
  exists k, In k ks /\ contains s k.

Definition code_keywords : list string := ["code"; "debug"; "review"; "feedback"].
Definition quiz_keywords : list string := ["quiz"; "test"; "question"; "practice"].
Definition progress_keywords : list string := ["progress"; "mistake"; "track"; "analysis"].

(** Collaborators that are all down: the completion service fails, the
    user store finds nobody, session writes go through. *)
Definition offline_services : Services :=
  {| openai_create := fun _ => ApiError;
     db_getUserById := fun _ => DbNull;
     db_updateChatSession := fun _ _ => true;
     clock := fun _ => "2024-05-01T10:00:00.000Z";
     epoch_ms := fun _ => 1714557600000 |}.


(** A completion service that echoes a fixed text. *)
Definition echo_services (text : string) : Services :=
  {| openai_create := fun _ => Content text;
     db_getUserById := fun _ => DbNull;
     db_updateChatSession := fun _ _ => true;
     clock := fun _ => "2024-05-01T10:00:00.000Z";
     epoch_ms := fun _ => 1714557600000 |}.

(** The context the chat front end sends along with a follow-up question:
    [{ quizContext: { questions } }]. *)
Definition quiz_context (questions : list JSValue) : JSValue :=
  JObj {[ "quizContext" := JObj {[ "questions" := JArr questions ]} ]}.

(** The prompts sent to the completion service in a trace. *)
Definition prompts_of (w : list Event) : list string :=
  omap (fun e => match e with EvCompletion p _ => Some p | _ => None end) w.

(** The stored question list of a quiz whose generation failed. *)
Definition failed_quiz : list JSValue :=
  [placeholderQuestion "Failed to generate quiz for topic: JavaScript"].

(** An answer counts as right when the first question of [Q] whose id is
    the answer's [question_id] has a [correct_answer] strictly equal to the
    answer's [user_answer]. *)
Definition answered_correctly (Q : list (gmap string JSValue))
    (a : gmap string JSValue) : bool :=
  match findQuestion Q (JS.field a "question_id") with
  | Some q => JS.strict_eq (JS.field a "user_answer") (JS.field q "correct_answer")
  | None => false
  end.

(** The question an answer's [question_id] picks in [Q], said without the
    search of the route: the first question, in the order of [Q], whose
    [id] is strictly equal to it. *)
Definition matched_question (Q : list (gmap string JSValue)) (id : JSValue)
    (q : gmap string JSValue) : Prop :=
  exists before after,
    Q = (before ++ q :: after)%list /\
    JS.strict_eq (JS.field q "id") id = true /\
    forall p, In p before -> JS.strict_eq (JS.field p "id") id = false.

(** No question of [Q] has that id. *)
Definition unmatched (Q : list (gmap string JSValue)) (id : JSValue) : Prop :=
  forall p, In p Q -> JS.strict_eq (JS.field p "id") id = false.

(** The stored session a submission of [userId] to [sessionId] is graded
    against, said without the search of the route: the first row of the
    table that belongs to the user and has that id. *)
Definition addressed_session (userId sessionId : string) (table : list QuizSession)
    (session : QuizSession) : Prop :=
  exists before after,
    table = (before ++ session :: after)%list /\
    qs_user_id session = userId /\
    qs_id session = sessionId /\
    forall s, In s before -> ~ (qs_user_id s = userId /\ qs_id s = sessionId).

(** The session a user addresses by id, among the user's own. *)
Definition owned_session (userId sessionId : string) (table : list QuizSession)
    : option QuizSession :=
  List.find (fun s => String.eqb (qs_id s) sessionId)
            (Db.getUserQuizSessions userId table).

(** A PATCH body that sets [completed] and nothing else. *)
Definition set_completed (b : bool) : QuizSessionUpdates :=
  {| up_user_id := None; up_questions := None; up_answers := None;
     up_score := None; up_total_questions := None; up_completed := Some b;
     up_time_taken := None; up_completed_at := None |}.

(** A stored five-question quiz and a submission with two right answers:
    the answer to q3 differs from the stored one by case only, the answer
    to q4 by a trailing blank, and q5 is answered wrongly. *)
Definition demo_question (id text answer : string) : gmap string JSValue :=
  list_to_map
    [("id", JStr id); ("type", JStr "mcq"); ("question", JStr text);
     ("options", JArr [JStr "w"; JStr "x"; JStr "y"; JStr "z"]);
     ("correct_answer", JStr answer);
     ("explanation", JStr ("because " +:+ answer))].

Definition demo_questions : list (gmap string JSValue) :=
  [demo_question "q1" "first?" "a"; demo_question "q2" "second?" "b";
   demo_question "q3" "third?" "c"; demo_question "q4" "fourth?" "d";
   demo_question "q5" "fifth?" "a"].

Definition demo_answer (id answer : string) : gmap string JSValue :=
  list_to_map [("question_id", JStr id); ("user_answer", JStr answer);
               ("time_taken", JNum 0)].

Definition demo_answers : list (gmap string JSValue) :=
  [demo_answer "q1" "a"; demo_answer "q2" "b"; demo_answer "q3" "C";
   demo_answer "q4" "d "; demo_answer "q5" "b"].

Definition demo_session : QuizSession :=
  {| qs_id := "s1"; qs_user_id := "u1";
     qs_questions := demo_questions; qs_answers := [];
     qs_score := 0; qs_total_questions := 5; qs_completed := false;
     qs_time_taken := 0; qs_created_at := "2024-05-01T09:00:00.000Z";
     qs_completed_at := None |}.

Definition demo_table : list QuizSession := [demo_session].

(** The difficulty tiers and the one-step promotion of the design. *)
Inductive Tier := Beginner | Intermediate | Advanced.

Definition tier_tag (t : Tier) : string :=
  match t with
  | Beginner => "beginner"
  | Intermediate => "intermediate"
  | Advanced => "advanced"
  end.

Definition next_tier (t : Tier) : Tier :=
  match t with
  | Beginner => Intermediate
  | Intermediate => Advanced
  | Advanced => Advanced
  end.

(** A signed-in beginner with a started upgrade quiz, and an API whose
    submit call reports a given score out of ten. *)
Definition demo_preferences : gmap string JSValue :=
  list_to_map
    [("difficulty", JStr "beginner");
     ("preferred_languages", JArr [JStr "javascript"]);
     ("learning_style", JStr "text");
     ("explanation_mode", JStr "simple");
     ("topics_of_interest", JArr [])].

Definition demo_user : gmap string JSValue :=
  list_to_map [("id", JStr "u1"); ("username", JStr "ada");
               ("preferences", JObj demo_preferences)].

Definition demo_client : ClientState :=
  {| user := Some demo_user;
     upgradeQuiz := Some demo_session;
     upgradeQuizAnswers := ∅;
     upgradeQuizSubmitting := false;
     upgradeQuizResult := None |}.

Definition scoring_api (score : Z) : Api :=
  {| submitQuizAnswers := fun _ _ => Some (score, 10);
     updateUserPreferences := fun p =>
       Some (Some (<["preferences" := JObj p]> demo_user)) |}.

(** The two fields of the [UserPreferences] interface the generator reads,
    typed as declared: a string difficulty and an array of languages, each
    possibly absent. *)
Definition typed_preferences (p : JSValue) : Prop :=
  match p with
  | JObj m =>
      (JS.field m "difficulty" = JUndefined \/ exists s, JS.field m "difficulty" = JStr s) /\
      (JS.field m "preferred_languages" = JUndefined
       \/ exists l, JS.field m "preferred_languages" = JArr l)
  | JUndefined | JNull => True
  | _ => False
  end.

(** The [difficulty?: string] parameter of [generateQuizQuestions]. *)
Definition typed_difficulty (d : JSValue) : Prop :=
  d = JUndefined \/ exists s, d = JStr s.

(** No completion request and no session write in a stretch of trace. *)
Definition quiet (e : Event) : bool :=
  match e with
  | EvCompletion _ _ | EvUpdateChatSession _ _ => false
  | EvGetUserById _ | EvClock => true
  end.

(* ===================================================================== *)
(** * Part I, continued: the callers of the orchestrator and the remaining
      quiz routes                                                         *)
(* ===================================================================== *)

(** ** Chat session store *)

(** A row of the [chat_sessions] table.  The three JSON columns hold
    whatever the orchestrator wrote. *)
Record ChatSession := {
  cs_id : string;
  cs_user_id : string;
  cs_session_name : string;
  cs_current_node : string;
  cs_conversation_history : JSValue;
  cs_context : JSValue;
  cs_available_transitions : JSValue;
  cs_created_at : string;
  cs_updated_at : string;
  cs_last_activity : string;
}.

(** What the store supplies on its own: the id given to the next inserted
    row, its clock, and the local date used in session names. *)
Record StoreEnv := {
  next_id : string;
  db_now : string;
  locale_date : string;
}.

Module ChatDb.

(** [db.createChatSession(sessionData)]: the row is inserted under a new id
    with the three timestamps set; an id that is taken makes the insert
    fail and the call resolve to [null]. *)
Definition createChatSession (env : StoreEnv) (user_id session_name current_node : string)
    (conversation_history context available_transitions : JSValue)
    (table : gmap string ChatSession) : option ChatSession * gmap string ChatSession :=
  match table !! next_id env with
  | Some _ => (None, table)
  | None =>
      let row :=
        {| cs_id := next_id env; cs_user_id := user_id;
           cs_session_name := session_name; cs_current_node := current_node;
           cs_conversation_history := conversation_history;
           cs_context := context;
           cs_available_transitions := available_transitions;
           cs_created_at := db_now env; cs_updated_at := db_now env;
           cs_last_activity := db_now env |} in
      (Some row, <[next_id env := row]> table)
  end.

(** [db.getChatSession(sessionId)]. *)
Definition getChatSession (sessionId : string) (table : gmap string ChatSession)
    : option ChatSession :=
  table !! sessionId.

(** The value an update object sends for a column: a property that is
    [undefined] is left out of the request. *)
Definition sent_column (updates : gmap string JSValue) (k : string) : option JSValue :=
  match updates !! k with
  | Some JUndefined | None => None
  | Some v => Some v
  end.

(** The value a JSON column holds for a value written to it: the
    properties of an object that are [undefined] are left out.  One level
    down nothing is left out: the values the routes write there were read
    from the store or are built by the orchestrator from strings, and hold
    no [undefined]. *)
Definition defined (v : JSValue) : option JSValue :=
  match v with
  | JUndefined => None
  | _ => Some v
  end.

Definition stored (v : JSValue) : JSValue :=
  match v with
  | JObj m => JObj (omap defined m)
  | _ => v
  end.

(** The columns of [updates] written onto a row, with [updated_at] and
    [last_activity] refreshed.  The two text columns take string values. *)
Definition apply_columns (env : StoreEnv) (updates : gmap string JSValue)
    (row : ChatSession) : ChatSession :=
  {| cs_id := cs_id row;
     cs_user_id := cs_user_id row;
     cs_session_name :=
       match sent_column updates "session_name" with
       | Some (JStr s) => s
       | _ => cs_session_name row
       end;
     cs_current_node :=
       match sent_column updates "current_node" with
       | Some (JStr s) => s
       | _ => cs_current_node row
       end;
     cs_conversation_history :=
       default (cs_conversation_history row)
               (stored <$> sent_column updates "conversation_history");
     cs_context := default (cs_context row) (stored <$> sent_column updates "context");
     cs_available_transitions :=
       default (cs_available_transitions row)
               (stored <$> sent_column updates "available_transitions");
     cs_created_at := cs_created_at row;
     cs_updated_at := db_now env;
     cs_last_activity := db_now env |}.

(** [db.updateChatSession(sessionId, updates)]. *)
Definition updateChatSession (env : StoreEnv) (sessionId : string)
    (updates : gmap string JSValue) (table : gmap string ChatSession)
    : gmap string ChatSession :=
  match table !! sessionId with
  | Some row => <[sessionId := apply_columns env updates row]> table
  | None => table
  end.

End ChatDb.

(** The session writes recorded in a stretch of trace, applied to the
    table in order.  A write whose call returned is applied; a write whose
    call threw is not. *)
Definition commit (S : Services) (env : StoreEnv) (events : list Event)
    (table : gmap string ChatSession) : gmap string ChatSession :=
  fold_left
    (fun t e =>
       match e with
       | EvUpdateChatSession sessionId updates =>
           if db_updateChatSession S sessionId updates
           then ChatDb.updateChatSession env sessionId updates t
           else t
       | _ => t
       end)
    events table.

(** ** Chat routes *)

Inductive RouteError :=
| ValidationError (msg : string)
| InternalError (msg : string).

Record ChatData := {
  cd_response : string;
  cd_sessionId : string;
  cd_currentNode : NodeType;
  cd_availableTransitions : list NodeType;
  cd_metadata : Metadata;
}.

Inductive ChatReply :=
| ChatSuccess (data : ChatData)
| ChatFailure (sessionId : string)
| ChatRejected (e : RouteError).

Section ChatRoutes.

Context (B : Builtins) (S : Services) (env : StoreEnv).

(** The turn itself, as both chat routes run it: [executeGraph] on the
    trace, then the recorded session writes on the table. *)
Definition runTurn (userId sessionId userInput : string) (context : JSValue)
    (table : gmap string ChatSession) (w : list Event)
    : Result TurnResult * gmap string ChatSession * list Event :=
  let '(result, w') := executeGraph B S userId sessionId userInput context w in
  (result, commit S env (drop (List.length w) w') table, w').

(** [session?.context || {}]. *)
Definition sessionContext (session : option ChatSession) : JSValue :=
  match session with
  | Some s => JS.or_else (cs_context s) (JObj ∅)
  | None => JObj ∅
  end.

(** [POST /api/chat/message].  [message] and [sessionId] are the fields of
    the request body, [userId] the authenticated user. *)
Definition postMessage (userId : string) (message : JSValue)
    (sessionId : option string) (table : gmap string ChatSession)
    (w : list Event) : ChatReply * gmap string ChatSession * list Event :=
  match message with
  | JUndefined | JNull =>
      (ChatRejected (ValidationError "Message is required"), table, w)
  | JStr m =>
      if String.eqb (Text.trim m) ""
      then (ChatRejected (ValidationError "Message is required"), table, w)
      else
        let created :=
          match sessionId with
          | Some sid =>
              if String.eqb sid ""
              then
                match ChatDb.createChatSession env userId
                        ("Chat Session " +:+ locale_date env) "router"
                        (JArr []) (JObj ∅) (JArr []) table with
                | (Some row, table') => Some (cs_id row, table')
                | (None, _) => None
                end
              else Some (sid, table)
          | None =>
              match ChatDb.createChatSession env userId
                      ("Chat Session " +:+ locale_date env) "router"
                      (JArr []) (JObj ∅) (JArr []) table with
              | (Some row, table') => Some (cs_id row, table')
              | (None, _) => None
              end
          end in
        match created with
        | None =>
            (ChatRejected (InternalError "Failed to create chat session"), table, w)
        | Some (currentSessionId, table1) =>
            let session := ChatDb.getChatSession currentSessionId table1 in
            match runTurn userId currentSessionId (Text.trim m)
                    (sessionContext session) table1 w with
            | (Ok result, table2, w') =>
                (ChatSuccess
                   {| cd_response := response result;
                      cd_sessionId := currentSessionId;
                      cd_currentNode := current_node result;
                      cd_availableTransitions := available_transitions result;
                      cd_metadata := metadata result |},
                 table2, w')
            | (Throw _, table2, w') => (ChatFailure currentSessionId, table2, w')
            end
        end
  | _ =>
      (ChatRejected (InternalError "message?.trim is not a function"), table, w)
  end.

Record SwitchData := {
  sd_message : string;
  sd_response : string;
  sd_currentNode : NodeType;
  sd_availableTransitions : list NodeType;
}.

Inductive SwitchReply :=
| SwitchSuccess (data : SwitchData)
| SwitchFailure
| SwitchRejected (e : RouteError).

(** [langGraphManager.getAvailableNodes()]. *)
Definition getAvailableNodes : list NodeType :=
  [CodeFeedback; ConceptExplainer; QuizGenerator; MistakeAnalyzer].

(** [POST /api/chat/switch-node].  An absent body field is [None]. *)
Definition switchNode (userId : string) (sessionId nodeType message : option string)
    (table : gmap string ChatSession) (w : list Event)
    : SwitchReply * gmap string ChatSession * list Event :=
  let falsy (o : option string) :=
    match o with Some s => String.eqb s "" | None => true end in
  if falsy sessionId
  then (SwitchRejected (ValidationError "Session ID is required"), table, w)
  else if falsy nodeType
  then (SwitchRejected (ValidationError "Node type is required"), table, w)
  else
    let sid := default "" sessionId in
    let node := default "" nodeType in
    match ChatDb.getChatSession sid table with
    | None => (SwitchRejected (ValidationError "Chat session not found"), table, w)
    | Some session =>
        if negb (String.eqb (cs_user_id session) userId)
        then (SwitchRejected (ValidationError "Access denied to this chat session"), table, w)
        else if negb (existsb (fun n => String.eqb (node_tag n) node) getAvailableNodes)
        then (SwitchRejected
                (ValidationError
                   ("Invalid node type. Available: "
                    +:+ JS.join_with ", " (List.map node_tag getAvailableNodes))),
              table, w)
        else
          let switchMessage :=
            if falsy message then "Switch to " +:+ node +:+ " mode"
            else default "" message in
          let context :=
            JObj (<["requested_node" := JStr node]> (JS.spread (cs_context session))) in
          match runTurn userId sid switchMessage context table w with
          | (Ok result, table', w') =>
              (SwitchSuccess
                 {| sd_message := "Switched to " +:+ node +:+ " mode";
                    sd_response := response result;
                    sd_currentNode := current_node result;
                    sd_availableTransitions := available_transitions result |},
               table', w')
          | (Throw _, table', w') => (SwitchFailure, table', w')
          end
    end.

End ChatRoutes.

(** ** The remaining quiz routes *)

Inductive SessionResponse :=
| SessionUnauthorized
| SessionNotFound
| SessionFound (session : QuizSession).

(** [GET /api/quiz/sessions/:sessionId]. *)
Definition getSession (req_user : option string) (sessionId : string)
    (table : list QuizSession) : SessionResponse :=
  match req_user with
  | None => SessionUnauthorized
  | Some userId =>
      if String.eqb userId "" then SessionUnauthorized
      else
        let sessions := Db.getUserQuizSessions userId table in
        match List.find (fun s => String.eqb (qs_id s) sessionId) sessions with
        | None => SessionNotFound
        | Some session => SessionFound session
        end
  end.

(** [GET /api/quiz/sessions]; [None] is the 401 reply. *)
Definition getSessions (req_user : option string) (table : list QuizSession)
    : option (list QuizSession) :=
  match req_user with
  | None => None
  | Some userId =>
      if String.eqb userId "" then None
      else Some (Db.getUserQuizSessions userId table)
  end.

Inductive DeleteResponse :=
| DeleteUnauthorized
| DeleteNotFound
| Deleted
| DeleteFailed.

(** [DELETE /api/quiz/sessions/:sessionId].  The store's own
    [deleteQuizSession] is a parameter: it reports whether the row was
    deleted and gives the table it leaves. *)
Definition deleteSession
    (deleteQuizSession : string -> list QuizSession -> bool * list QuizSession)
    (req_user : option string) (sessionId : string) (table : list QuizSession)
    : DeleteResponse * list QuizSession :=
  match req_user with
  | None => (DeleteUnauthorized, table)
  | Some userId =>
      if String.eqb userId "" then (DeleteUnauthorized, table)
      else
        let sessions := Db.getUserQuizSessions userId table in
        match List.find (fun s => String.eqb (qs_id s) sessionId) sessions with
        | None => (DeleteNotFound, table)
        | Some _ =>
            let '(deleted, table') := deleteQuizSession sessionId table in
            (if deleted then Deleted else DeleteFailed, table')
        end
  end.

(** [quiz.questions.map(q => ({ question_id: q.id, user_answer:
    quizAnswers[q.id], time_taken: 0 }))] of [handleSubmitQuiz]: the same
    answer sheet as the upgrade handler builds. *)
Definition quizAnswerSheet (quiz : QuizSession) (quizAnswers : gmap string JSValue)
    : list (gmap string JSValue) :=
  upgradeAnswers quiz quizAnswers.

(** ** Reading and renaming chat sessions *)




Inductive RenameReply :=
| Renamed (id name : string)
| RenameRejected (e : RouteError).

(** [POST /api/chat/sessions/:sessionId/rename]. *)
Definition renameSession (env : StoreEnv) (userId sessionId : string)
    (name : JSValue) (table : gmap string ChatSession)
    : RenameReply * gmap string ChatSession :=
  match name with
  | JUndefined | JNull =>
      (RenameRejected (ValidationError "Session name is required"), table)
  | JStr n =>
      if String.eqb (Text.trim n) ""
      then (RenameRejected (ValidationError "Session name is required"), table)
      else
        match ChatDb.getChatSession sessionId table with
        | None => (RenameRejected (ValidationError "Chat session not found"), table)
        | Some session =>
            if negb (String.eqb (cs_user_id session) userId)
            then (RenameRejected (ValidationError "Access denied to this chat session"),
                  table)
            else
              let table' :=
                ChatDb.updateChatSession env sessionId
                  {[ "session_name" := JStr (Text.trim n) ]} table in
              match ChatDb.getChatSession sessionId table' with
              | Some updated => (Renamed (cs_id updated) (cs_session_name updated), table')
              | None =>
                  (RenameRejected (InternalError "Cannot read properties of null"), table')
              end
        end
  | _ => (RenameRejected (InternalError "name?.trim is not a function"), table)
  end.

(** ** Profile route *)

Module UserDb.

(** [db.getUserById(userId)] on a table of user rows. *)
Definition getUserById (userId : string) (users : gmap string (gmap string JSValue))
    : option (gmap string JSValue) :=
  users !! userId.

(** [db.updateUserPreferences(userId, preferences)]: the row takes the
    preferences and a new [updated_at]; no row, no result. *)
Definition updateUserPreferences (env : StoreEnv) (userId : string)
    (preferences : JSValue) (users : gmap string (gmap string JSValue))
    : option (gmap string JSValue) * gmap string (gmap string JSValue) :=
  match users !! userId with
  | Some u =>
      let u' := <["updated_at" := JStr (db_now env)]> (<["preferences" := preferences]> u) in
      (Some u', <[userId := u']> users)
  | None => (None, users)
  end.

End UserDb.

Inductive ProfileReply :=
| ProfileUpdated (user : gmap string JSValue)
| ProfileRejected (e : RouteError).

(** [valid.includes(v)] on a list of strings. *)
Definition includes_string (valid : list string) (v : JSValue) : bool :=
  existsb (fun s => JS.strict_eq v (JStr s)) valid.

Definition validDifficulties : list string := ["beginner"; "intermediate"; "advanced"].
Definition validLearningStyles : list string := ["visual"; "text"; "hands-on"].
Definition validExplanationModes : list string := ["simple"; "technical"].

(** The user object of the reply. *)
Definition profileUser (u : gmap string JSValue) : gmap string JSValue :=
  list_to_map
    [("id", JS.field u "id"); ("name", JS.field u "name");
     ("username", JS.field u "username"); ("email", JS.field u "email");
     ("preferences", JS.field u "preferences")].

(** [PUT /api/auth/profile].  [name] and [preferences] are the fields of
    the request body.  The trimmed name is put into [updates] and never
    read again. *)
Definition putProfile (env : StoreEnv) (userId : string) (name preferences : JSValue)
    (users : gmap string (gmap string JSValue))
    : ProfileReply * gmap string (gmap string JSValue) :=
  let name_ok :=
    match name with
    | JStr _ => true
    | _ => negb (JS.truthy name)
    end in
  if negb name_ok
  then (ProfileRejected (InternalError "name.trim is not a function"), users)
  else if JS.truthy preferences then
    let rejected (valid : list string) (k : string) :=
      JS.truthy (JS.opt_get preferences k)
      && negb (includes_string valid (JS.opt_get preferences k)) in
    if rejected validDifficulties "difficulty"
    then (ProfileRejected (ValidationError "Invalid difficulty level"), users)
    else if rejected validLearningStyles "learning_style"
    then (ProfileRejected (ValidationError "Invalid learning style"), users)
    else if rejected validExplanationModes "explanation_mode"
    then (ProfileRejected (ValidationError "Invalid explanation mode"), users)
    else
      match UserDb.getUserById userId users with
      | None =>
          (ProfileRejected (InternalError "Cannot read properties of null"), users)
      | Some currentUser =>
          let merged :=
            JObj (JS.spread preferences ∪ JS.spread (JS.field currentUser "preferences")) in
          match UserDb.updateUserPreferences env userId merged users with
          | (Some updatedUser, users') => (ProfileUpdated (profileUser updatedUser), users')
          | (None, users') =>
              (ProfileRejected (InternalError "Failed to update profile"), users')
          end
      end
  else
    match UserDb.getUserById userId users with
    | Some updatedUser => (ProfileUpdated (profileUser updatedUser), users)
    | None => (ProfileRejected (InternalError "Failed to update profile"), users)
    end.

(** ** Socket handler for chat messages *)

(** What the handler of [chat:message] does on its socket, in order. *)
Inductive SocketAction :=
| EmitError (message : string)
| EmitFailure (sessionId : option string)
| EmitThinking (thinking : bool)
| JoinRoom (room : string)
| EmitResponse (data : ChatData) (timestamp : string)
| EmitMessageReceived (room userId username message timestamp : string).

Section SocketHandlers.

Context (B : Builtins) (S : Services) (env : StoreEnv).

(** [socket.on('chat:message', ...)] for the connected user [userId],
    [username].  The body of the handler is one [try]; its [catch] emits
    the failure event. *)
Definition onChatMessage (userId username : string) (message : JSValue)
    (sessionId : option string) (table : gmap string ChatSession)
    (w : list Event) : list SocketAction * gmap string ChatSession * list Event :=
  match message with
  | JUndefined | JNull => ([EmitError "Message cannot be empty"], table, w)
  | JStr m =>
      if String.eqb (Text.trim m) ""
      then ([EmitError "Message cannot be empty"], table, w)
      else
        let create :=
          match ChatDb.createChatSession env userId
                  ("Chat Session " +:+ locale_date env) "router"
                  (JArr []) (JObj ∅) (JArr []) table with
          | (Some row, table') =>
              Some (cs_id row, table', [JoinRoom ("session:" +:+ cs_id row)])
          | (None, _) => None
          end in
        let created :=
          match sessionId with
          | Some sid => if String.eqb sid "" then create else Some (sid, table, [])
          | None => create
          end in
        match created with
        | None =>
            ([EmitThinking true; EmitError "Failed to create chat session"], table, w)
        | Some (currentSessionId, table1, joined) =>
            let session := ChatDb.getChatSession currentSessionId table1 in
            match runTurn B S env userId currentSessionId (Text.trim m)
                    (sessionContext session) table1 w with
            | (Ok result, table2, w1) =>
                let sent := clock S (List.length w1) in
                let w2 := (w1 ++ [EvClock])%list in
                let received := clock S (List.length w2) in
                (((EmitThinking true :: joined) ++
                 [EmitThinking false;
                  EmitResponse
                    {| cd_response := response result;
                       cd_sessionId := currentSessionId;
                       cd_currentNode := current_node result;
                       cd_availableTransitions := available_transitions result;
                       cd_metadata := metadata result |} sent;
                  EmitMessageReceived ("session:" +:+ currentSessionId) userId username
                    (Text.trim m) received])%list,
                 table2, (w2 ++ [EvClock])%list)
            | (Throw _, table2, w1) =>
                (((EmitThinking true :: joined) ++
                 [EmitThinking false; EmitFailure sessionId])%list, table2, w1)
            end
        end
  | _ => ([EmitThinking false; EmitFailure sessionId], table, w)
  end.

End SocketHandlers.

(** ** Vocabulary of the further properties *)





(** The interception condition of [executeGraph]. *)
Definition intercepts (userInput : string) (currentContext : JSValue) : bool :=
  JS.truthy currentContext
  && JS.truthy (JS.opt_get currentContext "quizContext")
  && Re.test_reference userInput.



(** The columns [saveSessionState] writes. *)
Definition session_write (node : NodeType) (context : gmap string JSValue)
    : gmap string JSValue :=
  list_to_map
    [("current_node", JStr (node_tag node));
     ("context", JObj context);
     ("conversation_history", JS.field context "conversation_history");
     ("available_transitions", transitions_value)].

(** The same collaborators with another behaviour of the session write. *)
Definition with_session_writes (S : Services)
    (writes : string -> gmap string JSValue -> bool) : Services :=
  {| openai_create := openai_create S;
     db_getUserById := db_getUserById S;
     db_updateChatSession := writes;
     clock := clock S;
     epoch_ms := epoch_ms S |}.




(** A string that [trim] empties: white space only. *)
Definition blank (s : string) : bool := Re.only_spaces s.



(** A value the expression [v || ''] turns into a string: a string, or
    anything falsy. *)
Definition text_or_blank (v : JSValue) : bool :=
  match v with
  | JStr _ => true
  | _ => negb (JS.truthy v)
  end.

(** An element of the parsed reply the mapping callback turns into a full
    [QuizQuestion]: not [null], its texts strings or falsy, its options a
    labelled object of such texts, an array of strings, or no object. *)
Definition raw_question_ok (q : JSValue) : bool :=
  negb (JS.nullish q)
  && text_or_blank (JS.opt_get q "question")
  && text_or_blank (JS.opt_get q "code_snippet")
  && text_or_blank (JS.opt_get q "answer")
  && text_or_blank (JS.opt_get q "explanation")
  && match JS.opt_get q "options" with
     | JObj m => forallb (fun key => text_or_blank (JS.field m key)) ["a"; "b"; "c"; "d"]
     | JArr l => forallb is_string l
     | _ => true
     end.

(** A completion service that answers every prompt with a given text, and
    a parser that reads every bracketed text as a given value. *)
Definition scripted_services (reply : string) : Services :=
  {| openai_create := fun _ => Content reply;
     db_getUserById := fun _ => DbNull;
     db_updateChatSession := fun _ _ => true;
     clock := fun _ => "2024-05-01T10:00:00.000Z";
     epoch_ms := fun n => 1714557600000 + Z.of_nat n |}.

Definition scripted_builtins (parsed : JSValue) : Builtins :=
  {| toLowerCase := toLowerCase ascii_builtins;
     toUpperCase := toUpperCase ascii_builtins;
     JSON_parse := fun _ => Some parsed |}.

(** The questions of [Q] whose chosen answer is the stored correct one. *)
Definition chosen_right (chosen : gmap string JSValue) (q : gmap string JSValue) : bool :=
  JS.strict_eq (JS.field chosen (JS.to_string (JS.field q "id")))
               (JS.field q "correct_answer").

(** The ids of a question list. *)
Definition question_ids (Q : list (gmap string JSValue)) : list JSValue :=
  List.map (fun q => JS.field q "id") Q.

(** Two answers agree on the fields a submission is read at. *)
Definition same_answer (a b : gmap string JSValue) : Prop :=
  JS.field a "question_id" = JS.field b "question_id" /\
  JS.field a "user_answer" = JS.field b "user_answer" /\
  JS.field a "time_taken" = JS.field b "time_taken".



(** A value a choice field of the preferences may take: falsy, or one of
    the listed strings. *)
Definition valid_choice (valid : list string) (v : JSValue) : bool :=
  negb (JS.truthy v) || includes_string valid v.

(** The difficulty the executors and the generator work with. *)
Definition effective_difficulty (preferences : JSValue) : JSValue :=
  JS.or_else (JS.opt_get preferences "difficulty") (JStr "beginner").

(** A stored user and a store that holds only this user. *)
Definition demo_users : gmap string (gmap string JSValue) :=
  {[ "u1" := demo_user ]}.

Definition demo_env : StoreEnv :=
  {| next_id := "c1"; db_now := "2024-05-01T10:00:00.000Z";
     locale_date := "5/1/2024" |}.

(** A user row whose difficulty in effect is one of the three tiers. *)
Definition tier_ok (u : gmap string JSValue) : bool :=
  includes_string validDifficulties (effective_difficulty (JS.field u "preferences")).


(** The chat responses among the actions of a socket handler. *)
Definition responses_of (actions : list SocketAction) : list ChatData :=
  omap (fun a => match a with EmitResponse data _ => Some data | _ => None end) actions.

(** The data of a successful reply of the message route. *)
Definition reply_data (r : ChatReply) : list ChatData :=
  match r with ChatSuccess data => [data] | _ => [] end.

(** A session that has seen no quiz: its stored context, its row, a table
    that holds only this row, and an executor state over that context. *)
Definition demo_context : gmap string JSValue :=
  list_to_map
    [("user_input", JStr "hello"); ("user_preferences", JUndefined);
     ("conversation_history", JArr [])].

Definition demo_chat : ChatSession :=
  {| cs_id := "c0"; cs_user_id := "u1";
     cs_session_name := "Chat Session 4/30/2024";
     cs_current_node := "concept-explainer";
     cs_conversation_history := JArr [];
     cs_context := JObj demo_context;
     cs_available_transitions := JArr [];
     cs_created_at := "2024-04-30T09:00:00.000Z";
     cs_updated_at := "2024-04-30T09:00:00.000Z";
     cs_last_activity := "2024-04-30T09:00:00.000Z" |}.

Definition demo_chats : gmap string ChatSession := {[ "c0" := demo_chat ]}.





(** The no-break space U+00A0, a white-space character of two bytes, and
    the ideographic space U+3000, one of three bytes. *)
Definition nbsp : string :=
  String (ascii_of_nat 194) (String (ascii_of_nat 160) EmptyString).

Definition wide_space : string :=
  String (ascii_of_nat 227)
    (String (ascii_of_nat 128) (String (ascii_of_nat 128) EmptyString)).


(** Two elements of a parsed reply, as the prompt asks for them. *)
Definition demo_raw_question (text answer : string) : JSValue :=
  JObj (list_to_map
    [("question", JStr text);
     ("options", JObj (list_to_map [("a", JStr "1"); ("b", JStr "2");
                                    ("c", JStr "3"); ("d", JStr "4")]));
     ("answer", JStr answer);
     ("explanation", JStr "by arithmetic")]).

Definition demo_parsed : JSValue :=
  JArr [demo_raw_question "What is 1 + 1?" "b"; demo_raw_question "What is 2 + 2?" "d"].

(** The answers a user ticked for the first two questions of the stored
    quiz: the first right, the second wrong. *)
Definition demo_chosen : gmap string JSValue :=
  list_to_map [("q1", JStr "a"); ("q2", JStr "x")].

(* ===================================================================== *)
(** * Part II: properties                                                 *)
(* ===================================================================== *)

(** ** Substring search *)

Lemma prefix_split (p s : string) :
  String.prefix p s = true <-> exists post, s = p +:+ post.
Proof.
  revert s. induction p as [|c p IH]; intros s.
  - split; [intros _; by exists s | by destruct s].
  - destruct s as [|d s]; simpl.
    + split; [done | intros [post H]; discriminate].
    + destruct (Ascii.ascii_dec c d) as [->|Hne].
      * rewrite IH. split; intros [post H]; exists post; [by rewrite H | by inversion H].
      * split; [done | intros [post H]; inversion H; congruence].
Qed.

Lemma includes_contains (s sub : string) :
  JS.includes s sub = true <-> contains s sub.
Proof.
  induction s as [|c s IH].
  - change (JS.includes "" sub) with (String.prefix sub "" || false).
    rewrite orb_false_r, prefix_split. split.
    + intros [post H]. by exists "", post.
    + intros [pre [post H]]. destruct pre; simpl in H; [by exists post | discriminate].
  - change (JS.includes (String c s) sub)
      with (String.prefix sub (String c s) || JS.includes s sub).
    rewrite orb_true_iff, prefix_split, IH. split.
    + intros [[post H] | [pre [post H]]].
      * by exists "", post.
      * exists (String c pre), post. simpl. by rewrite H.
    + intros [pre [post H]]. destruct pre as [|d pre]; simpl in H.
      * left. by exists post.
      * right. inversion H. by exists pre, post.
Qed.

Lemma any_includes_mentions (s : string) (ks : list string) :
  existsb (JS.includes s) ks = true <-> mentions s ks.
Proof.
  rewrite existsb_exists. unfold mentions.
  split; intros [k [Hin Hk]]; exists k; split; auto; by apply includes_contains.
Qed.

Lemma append_assoc (a b c : string) : (a +:+ b) +:+ c = a +:+ (b +:+ c).
Proof.
  induction a as [|x a IH]; [done |].
  change (String x ((a +:+ b) +:+ c) = String x (a +:+ b +:+ c)). by f_equal.
Qed.

Lemma append_nil_r (s : string) : s +:+ "" = s.
Proof.
  induction s as [|c s IH]; [done |].
  change (String c (s +:+ "") = String c s). by f_equal.
Qed.

Lemma contains_refl (s : string) : contains s s.
Proof. exists "", "". simpl. by rewrite append_nil_r. Qed.

Lemma contains_app_l (s t sub : string) : contains s sub -> contains (s +:+ t) sub.
Proof.
  intros (pre & post & ->). exists pre, (post +:+ t).
  by rewrite !append_assoc.
Qed.

Lemma contains_app_r (s t sub : string) : contains t sub -> contains (s +:+ t) sub.
Proof.
  intros (pre & post & ->). exists (s +:+ pre), post.
  by rewrite !append_assoc.
Qed.

Lemma contains_trans (s t u : string) : contains s t -> contains t u -> contains s u.
Proof.
  intros (pre & post & ->) H. by apply contains_app_r, contains_app_l.
Qed.

Create HintDb contains.
#[local] Hint Resolve contains_refl contains_app_l contains_app_r : contains.

Lemma join_fold_keeps (sep : string) (r : list string) (acc sub : string) :
  contains acc sub ->
  contains (fold_left (fun a y => a +:+ sep +:+ y) r acc) sub.
Proof.
  revert acc. induction r as [|y r IH]; intros acc H; simpl; [done |].
  apply IH. auto with contains.
Qed.

Lemma join_fold_member (sep : string) (r : list string) (acc x : string) :
  In x r -> contains (fold_left (fun a y => a +:+ sep +:+ y) r acc) x.
Proof.
  revert acc. induction r as [|y r IH]; intros acc; [done |]. intros [-> | Hin]; simpl.
  - apply join_fold_keeps. auto with contains.
  - by apply IH.
Qed.

Lemma join_with_member (sep : string) (l : list string) (x : string) :
  In x l -> contains (JS.join_with sep l) x.
Proof.
  destruct l as [|y r]; [done |]. intros [-> | Hin]; simpl.
  - apply join_fold_keeps, contains_refl.
  - by apply join_fold_member.
Qed.

(** ** Mode router *)

Lemma determineNode_groups (B : Builtins) (userInput : string)
    (context : gmap string JSValue) :
  determineNode B userInput context =
    let input := toLowerCase B userInput in
    if existsb (JS.includes input) code_keywords then CodeFeedback
    else if existsb (JS.includes input) quiz_keywords then QuizGenerator
    else if existsb (JS.includes input) progress_keywords then MistakeAnalyzer
    else ConceptExplainer.
Proof.
  unfold determineNode. simpl. by rewrite !orb_false_r, !orb_assoc.
Qed.

(** C2. The router is a total function of the input string.  With [input]
    the lower-cased user text: a code keyword in [input] gives
    'code-feedback'; otherwise a quiz keyword gives 'quiz-generator';
    otherwise a progress keyword gives 'mistake-analyzer'; otherwise the
    result is 'concept-explainer'.  The first group that matches wins, the
    context plays no role, and the empty string (which lower-cases to
    itself) goes to 'concept-explainer'. *)
Theorem determineNode_first_match_wins (B : Builtins) (userInput : string)
    (context : gmap string JSValue) :
  let input := toLowerCase B userInput in
  let tag := node_tag (determineNode B userInput context) in
  (mentions input code_keywords -> tag = "code-feedback") /\
  (~ mentions input code_keywords -> mentions input quiz_keywords ->
     tag = "quiz-generator") /\
  (~ mentions input code_keywords -> ~ mentions input quiz_keywords ->
     mentions input progress_keywords -> tag = "mistake-analyzer") /\
  (~ mentions input code_keywords -> ~ mentions input quiz_keywords ->
     ~ mentions input progress_keywords -> tag = "concept-explainer") /\
  (toLowerCase B "" = "" ->
     node_tag (determineNode B "" context) = "concept-explainer").
Proof.
  intros input tag. subst tag. rewrite determineNode_groups. fold input.
  cbv zeta.
  destruct (existsb (JS.includes input) code_keywords) eqn:Hc;
  destruct (existsb (JS.includes input) quiz_keywords) eqn:Hq;
  destruct (existsb (JS.includes input) progress_keywords) eqn:Hp;
  repeat match goal with
  | H : existsb _ _ = true |- _ => apply any_includes_mentions in H
  | H : existsb _ _ = false |- _ =>
      apply not_true_iff_false in H; rewrite any_includes_mentions in H
  end;
  (repeat split; try (intros; simpl; first [reflexivity | contradiction]));
  intros Hl; unfold determineNode; rewrite Hl; reflexivity.
Qed.

Lemma determineNode_first_match_wins_witness :
  node_tag (determineNode ascii_builtins "Please DEBUG my quiz" ∅) = "code-feedback" /\
  node_tag (determineNode ascii_builtins "" ∅) = "concept-explainer".
Proof.
  split.
  - apply (proj1 (determineNode_first_match_wins ascii_builtins "Please DEBUG my quiz" ∅)).
    exists "debug". split; [simpl; auto |].
    by exists "please ", " my quiz".
  - apply (determineNode_first_match_wins ascii_builtins "" ∅). reflexivity.
Defined.

(** ** The monad *)

Lemma bind_Ok {A B : Type} (m : M A) (k : A -> M B) w b w' :
  bind m k w = (Ok b, w') ->
  exists a w1, m w = (Ok a, w1) /\ k a w1 = (Ok b, w').
Proof.
  unfold bind. destruct (m w) as [[a|e] w1]; [eauto | discriminate].
Qed.

(** Peel one successful [bind] off a hypothesis [H : bind m k w = (Ok b, w')]. *)
Ltac unbind H :=
  let a := fresh "a" in
  let w := fresh "w" in
  let Hm := fresh "Hm" in
  apply bind_Ok in H as (a & w & Hm & H).

Lemma bind_Throw {A B : Type} (m : M A) (k : A -> M B) w e w' :
  bind m k w = (Throw e, w') ->
  m w = (Throw e, w') \/ exists a w1, m w = (Ok a, w1) /\ k a w1 = (Throw e, w').
Proof.
  unfold bind. destruct (m w) as [[a|e1] w1]; [eauto | intros [= -> ->]; auto].
Qed.

(** ** Mode executors and the steps of a turn *)

Section ExecutorRuns.

Context (B : Builtins) (S : Services).



End ExecutorRuns.

Lemma bind_run {A B : Type} (m : M A) (k : A -> M B) w a w1 :
  m w = (Ok a, w1) -> bind m k w = k a w1.
Proof. unfold bind. by intros ->. Qed.

Lemma determineNode_context (B : Builtins) (userInput : string)
    (c c' : gmap string JSValue) :
  determineNode B userInput c = determineNode B userInput c'.
Proof. reflexivity. Qed.

Section TurnRuns.

Context (B : Builtins) (S : Services).



Lemma executeGraph_runs userId sessionId userInput currentContext w :
  exists r w', executeGraph B S userId sessionId userInput currentContext w = (Ok r, w').
Proof.
  unfold executeGraph, try_catch.
  destruct (executeGraph_try _ _ _ _ _ _ _) as [[r|e] w1]; [eauto |].
  unfold executeGraph_catch, bind, now, ret. eauto.
Qed.



Lemma saveSessionState_value sessionId state w :
  saveSessionState S sessionId state w
  = (Ok tt, (w ++ [EvUpdateChatSession sessionId
                     (session_write (st_current_node state) (st_context state))])%list).
Proof.
  unfold saveSessionState, session_write, try_catch, bind, emit, ret, throw.
  by destruct (db_updateChatSession S sessionId _).
Qed.


End TurnRuns.


(** ** Dialogue orchestrator *)

Section OrchestratorFacts.

Context (B : Builtins) (S : Services).

Lemma loadUserPreferences_runs userId w :
  exists p, loadUserPreferences S userId w = (Ok p, (w ++ [EvGetUserById userId])%list).
Proof.
  unfold loadUserPreferences, try_catch, getUserById, bind, emit, ret, throw.
  destruct (db_getUserById S userId); eauto.
Qed.


(** Whatever the interception returns is tagged 'quiz-generator', carries
    the caller's context untouched and iteration count 0, and costs one
    clock reading and nothing else. *)
Lemma quizFollowUp_returns userInput currentContext w r w' :
  quizFollowUp B S userInput currentContext w = (Ok (Some r), w') ->
  current_node r = QuizGenerator /\
  available_transitions r = all_transitions /\
  session_context r = currentContext /\
  iteration_count (metadata r) = 0 /\
  w' = (w ++ [EvClock])%list.
Proof.
  unfold quizFollowUp.
  destruct (JS.truthy currentContext && _ && _); [| discriminate].
  destruct (Re.reference_number userInput) as [d|]; [| discriminate].
  destruct (JS.truthy _ && JS.truthy _).
  - intros H. apply bind_Ok in H as (resp & w1 & Hq & H).
    assert (w1 = w) as ->.
    { unfold explainQuestion in Hq. apply bind_Ok in Hq as (l & w2 & Hl & Hq).
      unfold option_lines in Hl. injection Hq as _ <-.
      destruct (JS.opt_get _ "options"); by inversion Hl. }
    unfold bind, now, ret in H. by injection H as <- <-.
  - unfold bind, now, ret. by intros [= <- <-].
Qed.

(** When the interception does not fire, or throws, the trace is as it
    was. *)
Lemma quizFollowUp_silent userInput currentContext w o w' :
  quizFollowUp B S userInput currentContext w = (o, w') ->
  o <> Ok None -> (exists r, o = Ok (Some r)) \/ w' = w.
Proof.
  intros H Hne. destruct o as [[r|]|e]; [eauto | done |]. right.
  unfold quizFollowUp in H.
  destruct (JS.truthy currentContext && _ && _); [| discriminate].
  destruct (Re.reference_number userInput) as [d|]; [| discriminate].
  destruct (JS.truthy _ && JS.truthy _); [| discriminate].
  apply bind_Throw in H as [H | (resp & w1 & _ & H)]; [| discriminate].
  unfold explainQuestion in H.
  apply bind_Throw in H as [H | (l & w1 & _ & H)]; [| discriminate].
  unfold option_lines in H. destruct (JS.opt_get _ "options"); by inversion H.
Qed.




End OrchestratorFacts.

Section FollowUpFacts.

Context (B : Builtins) (S : Services).

Lemma why_not_extends q correctIdx labels resp sub :
  contains resp sub ->
  contains (fold_left (why_not q correctIdx) labels resp) sub.
Proof.
  revert resp. induction labels as [|l labels IH]; intros resp H; simpl; [done |].
  apply IH. unfold why_not. destruct (_ && _); auto 10 with contains.
Qed.

Lemma option_line_member (options : list JSValue) (opt : JSValue) :
  In opt options ->
  contains
    (JS.join nl (imap (fun idx o =>
        JStr (JS.fromCharCode (65 + Z.of_nat idx) +:+ ") " +:+ JS.to_string o)) options))
    (JS.to_string opt).
Proof.
  intros Hin. apply list_elem_of_In, list_elem_of_lookup in Hin as [i Hi].
  eapply contains_trans.
  - apply join_with_member.
    apply in_map_iff. eexists. split; [reflexivity |].
    apply list_elem_of_In, elem_of_lookup_imap. by exists i, opt.
  - simpl. auto with contains.
Qed.

Lemma explainQuestion_text userInput qNum q w resp w' :
  explainQuestion B userInput qNum q w = (Ok resp, w') ->
  exists options,
    JS.opt_get q "options" = JArr options /\
    contains resp (JS.to_string (JS.opt_get q "question")) /\
    (forall opt, In opt options -> contains resp (JS.to_string opt)) /\
    contains resp (JS.to_string (JS.opt_get q "correct_answer")) /\
    contains resp (JS.to_string (JS.opt_get q "explanation")).
Proof.
  unfold explainQuestion. intros H.
  apply bind_Ok in H as (lines & w1 & Hl & H). injection H as <- _.
  unfold option_lines in Hl.
  destruct (JS.opt_get q "options") as [| | | | |options|] eqn:Hopt; try discriminate.
  injection Hl as <- _. exists options. split; [done |].
  repeat split; try (apply why_not_extends; auto 20 with contains).
  intros opt Hin. apply why_not_extends.
  do 8 apply contains_app_r. apply contains_app_l.
  by apply option_line_member.
Qed.
End FollowUpFacts.

(** ** The matchers on concrete inputs *)

Example search_question :
  Re.search Re.at_question "see Question   12abc" = Some "12".
Proof. reflexivity. Qed.

Example search_q : Re.search Re.at_q "FAQ7" = Some "7".
Proof. reflexivity. Qed.

Example search_answer_to :
  Re.search Re.at_answer_to "the Answer to 3?" = Some "3"
  /\ Re.search Re.at_answer_to "answer to  3" = None.
Proof. split; reflexivity. Qed.

Example reference_prefers_question :
  Re.reference_number "q3 or question 5" = Some "5".
Proof. reflexivity. Qed.

Example no_reference : Re.test_reference "explain closures" = false.
Proof. reflexivity. Qed.

Example labels_standing_alone :
  Re.labels "why not A or c? but not ab, D" = ["A"; "c"; "D"].
Proof. reflexivity. Qed.

Example parseInt_leading_zero : parseInt "012" = 12.
Proof. reflexivity. Qed.

Example fenced_array :
  Text.find_array (Text.trim (Text.strip_fences
    ("  ```JSON" +:+ nl +:+ "[ {a:1}, [2] ] and ] more```  ")))
  = Some "[ {a:1}, [2] ] and ]".
Proof. reflexivity. Qed.

Example no_array : Text.find_array "] nothing [ here" = None.
Proof. reflexivity. Qed.

(** White space of more than one byte: the no-break space U+00A0 and the
    ideographic space U+3000 are matched by [\s] and removed by [trim]. *)
Example wide_space_is_matched :
  Re.test_reference ("question" +:+ nbsp +:+ "1") = true /\
  Re.reference_number ("Question " +:+ wide_space +:+ nbsp +:+ "12?") = Some "12".
Proof. split; reflexivity. Qed.

Example wide_space_is_trimmed :
  Text.trim (nbsp +:+ " hi there " +:+ wide_space) = "hi there" /\
  Text.trim (wide_space +:+ nbsp) = "" /\
  blank (nbsp +:+ " " +:+ wide_space) = true /\
  blank (nbsp +:+ "x") = false.
Proof. repeat split; reflexivity. Qed.

Example length_in_code_units :
  JS.length_of (JStr ("a" +:+ nbsp +:+ wide_space)) = JNum 3.
Proof. reflexivity. Qed.

(** ** Question references *)

Lemma search_here (pat : string -> option string) (s d : string) :
  pat s = Some d -> Re.search pat s = Some d.
Proof. intros H. destruct s; simpl; by rewrite H. Qed.

Lemma search_later (pat : string -> option string) (c : ascii) (s : string) :
  is_Some (Re.search pat s) -> is_Some (Re.search pat (String c s)).
Proof. intros H. simpl. by destruct (pat (String c s)). Qed.

(** Whenever the test pattern matches, one of the three extraction
    patterns matches as well: the [if (match)] of the interception never
    fails after the test has passed. *)
Lemma test_reference_number (s : string) :
  Re.test_reference s = true -> is_Some (Re.reference_number s).
Proof.
  unfold Re.test_reference. intros H.
  assert (is_Some (Re.search Re.at_question s) \/ is_Some (Re.search Re.at_q s)
          \/ is_Some (Re.search Re.at_answer_to s)) as Hany.
  { induction s as [|c s IH].
    - simpl in H. unfold Re.at_reference in H.
      destruct (Re.at_question "") eqn:E1; [left; by rewrite (search_here _ _ _ E1) |].
      destruct (Re.at_q "") eqn:E2; [right; left; by rewrite (search_here _ _ _ E2) |].
      destruct (Re.at_answer_to "") eqn:E3; [| done].
      right; right; by rewrite (search_here _ _ _ E3).
    - cbn [Re.search] in H. unfold Re.at_reference in H at 1.
      destruct (Re.at_question (String c s)) eqn:E1;
        [left; by rewrite (search_here _ _ _ E1) |].
      destruct (Re.at_q (String c s)) eqn:E2;
        [right; left; by rewrite (search_here _ _ _ E2) |].
      destruct (Re.at_answer_to (String c s)) eqn:E3;
        [right; right; by rewrite (search_here _ _ _ E3) |].
      destruct (IH H) as [H1 | [H2 | H3]]; auto using search_later. }
  unfold Re.reference_number.
  destruct (Re.search Re.at_question s); [done |].
  destruct (Re.search Re.at_q s); [done |].
  destruct Hany as [[? [=]] | [[? [=]] | H3]]. done.
Qed.

Section FollowUpCases.

Context (B : Builtins) (S : Services).

(** The three ways an intercepted turn can go, by the state of the
    referenced question: absent, present with an option list, or present
    without one. *)
Lemma quizFollowUp_cases userInput currentContext w :
  JS.truthy currentContext = true ->
  JS.truthy (JS.opt_get currentContext "quizContext") = true ->
  Re.test_reference userInput = true ->
  exists d,
    Re.reference_number userInput = Some d /\
    let qNum := parseInt d - 1 in
    let questions := JS.opt_get (JS.opt_get currentContext "quizContext") "questions" in
    let q := JS.index questions qNum in
    (JS.truthy questions && JS.truthy q = false ->
       exists r, quizFollowUp B S userInput currentContext w
                   = (Ok (Some r), (w ++ [EvClock])%list) /\
                 response r = noSuchQuestion qNum /\
                 current_node r = QuizGenerator) /\
    (JS.truthy questions && JS.truthy q = true ->
       forall options, JS.opt_get q "options" = JArr options ->
       exists r, quizFollowUp B S userInput currentContext w
                   = (Ok (Some r), (w ++ [EvClock])%list) /\
                 current_node r = QuizGenerator /\
                 contains (response r) (JS.to_string (JS.opt_get q "question")) /\
                 (forall opt, In opt options -> contains (response r) (JS.to_string opt)) /\
                 contains (response r) (JS.to_string (JS.opt_get q "correct_answer")) /\
                 contains (response r) (JS.to_string (JS.opt_get q "explanation"))) /\
    (JS.truthy questions && JS.truthy q = true ->
       (forall options, JS.opt_get q "options" <> JArr options) ->
       exists e, quizFollowUp B S userInput currentContext w = (Throw e, w)).
Proof.
  intros Hc Hq Ht. destruct (test_reference_number _ Ht) as [d Hd].
  exists d. split; [done |]. cbv zeta.
  unfold quizFollowUp. rewrite Hc, Hq, Ht, Hd. cbn [andb].
  split; [| split].
  - intros ->. eexists. split; [reflexivity |]. done.
  - intros -> options Hopt.
    destruct (explainQuestion B userInput (parseInt d - 1)
                (JS.index (JS.opt_get (JS.opt_get currentContext "quizContext") "questions")
                          (parseInt d - 1)) w) as [[resp|e] w1] eqn:He.
    + pose proof (explainQuestion_text _ _ _ _ _ _ _ He) as (options' & Ho & H1 & H2 & H3 & H4).
      assert (w1 = w) as ->.
      { unfold explainQuestion, bind, option_lines in He. rewrite Hopt in He.
        by injection He as _ ->. }
      unfold bind. rewrite He. eexists. split; [reflexivity |].
      cbn [response current_node]. rewrite Hopt in Ho. injection Ho as <-. done.
    + unfold explainQuestion, bind, option_lines in He. rewrite Hopt in He. done.
  - intros -> Hno.
    unfold bind, explainQuestion, option_lines.
    destruct (JS.opt_get _ "options") as [| | | | |options|] eqn:Ho;
      try (eexists; reflexivity).
    by destruct (Hno options).
Qed.

End FollowUpCases.

Section InterceptedTurn.

Context (B : Builtins) (S : Services).

(** A turn the interception answers: the result is the interception's, and
    the trace holds the user lookup and one clock reading, nothing else. *)
Lemma executeGraph_intercepted userId sessionId userInput currentContext w r w2 :
  quizFollowUp B S userInput currentContext (w ++ [EvGetUserById userId])%list
    = (Ok (Some r), w2) ->
  executeGraph B S userId sessionId userInput currentContext w
    = (Ok r, (w ++ [EvGetUserById userId; EvClock])%list).
Proof.
  intros H. pose proof (quizFollowUp_returns _ _ _ _ _ _ _ H) as (_ & _ & _ & _ & ->).
  unfold executeGraph, try_catch, executeGraph_try, bind.
  destruct (loadUserPreferences_runs S userId w) as [p ->].
  rewrite H. unfold ret. by rewrite <- app_assoc.
Qed.

(** The state handed to the executors reads [user_input] from the prior
    context whenever the prior context has that key. *)
Lemma initialState_user_input userId sessionId userInput currentContext prefs w st w' :
  initialState S userId sessionId userInput currentContext prefs w = (Ok st, w') ->
  JS.field (st_context st) "user_input"
    = match JS.spread currentContext !! "user_input" with
      | Some v => v
      | None => JStr userInput
      end.
Proof.
  unfold initialState, bind, now, ret. intros [= <- _]. cbn [st_context].
  unfold JS.field. rewrite lookup_union.
  destruct (JS.spread currentContext !! "user_input"); reflexivity.
Qed.

End InterceptedTurn.

(** C3 (evaluation at a failing input).  A quiz whose generation failed is
    stored as one placeholder object without an option list.  With that
    quiz as the active quiz, the input "what about question 1" matches the
    reference pattern and question 1 exists, yet the turn does not answer
    with the question: building the option lines throws, the top-level
    handler takes over, and the result is the generic fallback text tagged
    'concept-explainer'. *)
Theorem followUp_breaks_on_placeholder_question :
  fst (generateQuizQuestions ascii_builtins offline_services
         "JavaScript" (JNum 5) "u1" JUndefined []) = Ok failed_quiz /\
  Re.test_reference "what about question 1" = true /\
  JS.index (JArr failed_quiz) (parseInt "1" - 1)
    = placeholderQuestion "Failed to generate quiz for topic: JavaScript" /\
  exists r w,
    executeGraph ascii_builtins offline_services "u1" "s1"
      "what about question 1" (quiz_context failed_quiz) [] = (Ok r, w) /\
    node_tag (current_node r) = "concept-explainer" /\
    response r = fallbackResponse /\
    ~ contains (response r) "Failed to generate quiz for topic: JavaScript".
Proof.
  split; [vm_compute; reflexivity |].
  split; [vm_compute; reflexivity |].
  split; [vm_compute; reflexivity |].
  eexists _, _. split; [vm_compute; reflexivity |].
  split; [reflexivity |]. split; [reflexivity |].
  intros H. apply includes_contains in H. vm_compute in H. discriminate.
Qed.

(** C10 (evaluation at a failing input).  On the same turn the interception
    condition holds, no completion request and no session write are made
    and the iteration count is 0, but the returned session context is a
    fresh object holding only the user input and an empty history, not the
    context the caller supplied. *)
Theorem followUp_replaces_context_on_placeholder_question :
  JS.truthy (JS.opt_get (quiz_context failed_quiz) "quizContext") = true /\
  Re.test_reference "what about question 1" = true /\
  exists r w,
    executeGraph ascii_builtins offline_services "u1" "s1"
      "what about question 1" (quiz_context failed_quiz) [] = (Ok r, w) /\
    session_context r
      = JObj (list_to_map [("user_input", JStr "what about question 1");
                           ("conversation_history", JArr [])]) /\
    session_context r <> quiz_context failed_quiz /\
    iteration_count (metadata r) = 0 /\
    forallb quiet w = true.
Proof.
  split; [vm_compute; reflexivity |].
  split; [vm_compute; reflexivity |].
  eexists _, _. split; [vm_compute; reflexivity |].
  split; [reflexivity |]. split; [| split; reflexivity].
  intros H. apply (f_equal (fun v => JS.truthy (JS.opt_get v "quizContext"))) in H.
  vm_compute in H. discriminate.
Qed.

(** C6 (evaluation at a failing input).  Two turns of one session, the
    second called with the context the first one returned and stored: the
    second turn is routed on its own text ("review my code", hence
    'code-feedback'), but the state given to the executor carries the first
    turn's text as [user_input], and the prompt sent to the completion
    service quotes "explain closures" and not the current request. *)
Theorem second_turn_executor_reads_first_input :
  exists r1 w1 r2 w2 prompt,
    executeGraph ascii_builtins offline_services "u1" "s1"
      "explain closures" (JObj ∅) [] = (Ok r1, w1) /\
    executeGraph ascii_builtins offline_services "u1" "s1"
      "review my code" (session_context r1) w1 = (Ok r2, w2) /\
    node_tag (current_node r2) = "code-feedback" /\
    JS.opt_get (session_context r2) "user_input" = JStr "explain closures" /\
    last (prompts_of w2) = Some prompt /\
    contains prompt ("User Request: " +:+ dq +:+ "explain closures" +:+ dq) /\
    ~ contains prompt "review my code".
Proof.
  eexists _, _, _, _, _.
  split; [vm_compute; reflexivity |].
  split; [vm_compute; reflexivity |].
  split; [vm_compute; reflexivity |].
  split; [vm_compute; reflexivity |].
  split; [vm_compute; reflexivity |].
  split.
  - apply includes_contains. vm_compute. reflexivity.
  - intros H. apply includes_contains in H. vm_compute in H. discriminate.
Qed.



(** An executor that throws before its own [try]: stored languages that
    are a string make [join] fail, and the turn ends in the fallback. *)
Example executor_failure_is_contained :
  exists e w r w',
    executeGraph_try ascii_builtins offline_services "u1" "s1" "explain closures"
      (JObj {[ "user_preferences" := JObj {[ "preferred_languages" := JStr "js" ]} ]}) []
      = (Throw e, w) /\
    executeGraph ascii_builtins offline_services "u1" "s1" "explain closures"
      (JObj {[ "user_preferences" := JObj {[ "preferred_languages" := JStr "js" ]} ]}) []
      = (Ok r, w') /\
    response r = fallbackResponse.
Proof.
  eexists _, _, _, _. split; [vm_compute; reflexivity |].
  split; [vm_compute; reflexivity | reflexivity].
Qed.

(** A history that is not an array makes the append fail after the
    executor has answered; the turn still ends in the fallback. *)
Example history_failure_is_contained :
  exists e w r w',
    executeGraph_try ascii_builtins (echo_services "[Concept Explainer Mode] ...")
      "u1" "s1" "explain closures" (JObj {[ "conversation_history" := JNull ]}) []
      = (Throw e, w) /\
    prompts_of w <> [] /\
    executeGraph ascii_builtins (echo_services "[Concept Explainer Mode] ...")
      "u1" "s1" "explain closures" (JObj {[ "conversation_history" := JNull ]}) []
      = (Ok r, w') /\
    response r = fallbackResponse.
Proof.
  eexists _, _, _, _. split; [vm_compute; reflexivity |].
  split; [discriminate |].
  split; [vm_compute; reflexivity | reflexivity].
Qed.

(** ** Grading *)

Lemma is_correct_truthy Q a : JS.truthy (is_correct Q a) = answered_correctly Q a.
Proof.
  unfold is_correct, answered_correctly.
  by destruct (findQuestion Q (JS.field a "question_id")).
Qed.

(** The counter threaded through the mapping callback ends at its start
    value plus the number of right answers. *)
Lemma detailAnswers_counts Q stamp A score :
  detailAnswers Q stamp A score
    = (List.map (fun a => detailedAnswer a (is_correct Q a) stamp) A,
       score + Z.of_nat (List.length (List.filter (answered_correctly Q) A))).
Proof.
  revert score. induction A as [|a A IH]; intros score; simpl.
  - f_equal. lia.
  - rewrite IH, is_correct_truthy.
    destruct (answered_correctly Q a); simpl; f_equal; lia.
Qed.

Lemma wrong_of_detailed Q stamp A :
  List.map (explainWrong Q)
    (List.filter (fun a => negb (JS.truthy (JS.field a "is_correct")))
       (List.map (fun a => detailedAnswer a (is_correct Q a) stamp) A))
  = List.map (explainWrong Q)
      (List.filter (fun a => negb (answered_correctly Q a)) A).
Proof.
  rewrite filter_map_swap, map_map.
  erewrite filter_ext; [reflexivity |].
  intros a. cbn beta. by rewrite <- is_correct_truthy.
Qed.

Lemma strict_eq_strings s t : JS.strict_eq (JStr s) (JStr t) = true <-> s = t.
Proof. apply String.eqb_eq. Qed.

Lemma submitAnswers_found userId sessionId A stamp table session :
  userId <> "" ->
  owned_session userId sessionId table = Some session ->
  submitAnswers (Some userId) sessionId A stamp table
  = (Graded
       (Z.of_nat (List.length (List.filter (answered_correctly (qs_questions session)) A)))
       (Z.of_nat (List.length (qs_questions session)))
       (List.map (explainWrong (qs_questions session))
          (List.filter (fun a => negb (answered_correctly (qs_questions session) a)) A)),
     Db.updateQuizSession sessionId
       {| up_user_id := None; up_questions := None;
          up_answers :=
            Some (List.map (fun a => detailedAnswer a (is_correct (qs_questions session) a) stamp) A);
          up_score :=
            Some (Z.of_nat (List.length (List.filter (answered_correctly (qs_questions session)) A)));
          up_total_questions := None;
          up_completed := Some true;
          up_time_taken := None;
          up_completed_at := Some stamp |} table).
Proof.
  intros Hu Hs. unfold submitAnswers, owned_session in *.
  apply String.eqb_neq in Hu. rewrite Hu, Hs, detailAnswers_counts.
  by rewrite wrong_of_detailed.
Qed.

(** What [find] returns, said on the list: the first element that passes
    the test, or nothing when no element passes. *)
Lemma find_first {A : Type} (p : A -> bool) (l : list A) (x : A) :
  List.find p l = Some x <->
  exists before after,
    l = (before ++ x :: after)%list /\ p x = true /\
    forall y, In y before -> p y = false.
Proof.
  split.
  - induction l as [|y l IH]; simpl; [done |].
    destruct (p y) eqn:E.
    + intros [= ->]. exists [], l. by split.
    + intros H. destruct (IH H) as (b & a & -> & Hx & Hb).
      exists (y :: b), a. split; [done |]. split; [done |].
      intros z [<- | Hz]; [done | by apply Hb].
  - intros (b & a & -> & Hx & Hb). induction b as [|y b IH]; simpl.
    + by rewrite Hx.
    + rewrite (Hb y) by by left. apply IH. intros z Hz. apply Hb. by right.
Qed.

Lemma find_nothing {A : Type} (p : A -> bool) (l : list A) :
  List.find p l = None <-> forall y, In y l -> p y = false.
Proof.
  split.
  - intros H y Hy. by apply (find_none p l H).
  - induction l as [|y l IH]; simpl; [done |]. intros H.
    rewrite (H y) by by left. apply IH. intros z Hz. apply H. by right.
Qed.

Lemma find_filter {A : Type} (p q : A -> bool) (l : list A) :
  List.find p (List.filter q l) = List.find (fun x => q x && p x) l.
Proof.
  induction l as [|y l IH]; simpl; [done |].
  destruct (q y); simpl; [by rewrite IH | done].
Qed.

Lemma findQuestion_matched Q id q :
  findQuestion Q id = Some q <-> matched_question Q id q.
Proof. exact (find_first (fun qq => JS.strict_eq (JS.field qq "id") id) Q q). Qed.

Lemma findQuestion_unmatched Q id :
  findQuestion Q id = None <-> unmatched Q id.
Proof. exact (find_nothing (fun qq => JS.strict_eq (JS.field qq "id") id) Q). Qed.

Lemma owned_session_addressed userId sessionId table session :
  addressed_session userId sessionId table session ->
  owned_session userId sessionId table = Some session.
Proof.
  intros (b & a & -> & Hu & Hi & Hb).
  unfold owned_session, Db.getUserQuizSessions. rewrite find_filter.
  apply (find_first (fun s => String.eqb (qs_user_id s) userId
                                 && String.eqb (qs_id s) sessionId)).
  exists b, a. split; [done |]. split.
  - apply andb_true_iff. split; by apply String.eqb_eq.
  - intros s Hs. apply andb_false_iff.
    destruct (String.eqb_spec (qs_user_id s) userId) as [E1|E1]; [| by left].
    destruct (String.eqb_spec (qs_id s) sessionId) as [E2|E2]; [| by right].
    by destruct (Hb s Hs).
Qed.

(** C1. For a stored session with question list Q, the first row of the
    table that belongs to the authenticated user and has the addressed id,
    and a submitted answer list A, the submit route answers with: score =
    the number of right answers of A; total_questions = the length of Q;
    and wrong_explanations = one entry {question, correct_answer,
    explanation} for each answer that is not right, in order.  An answer
    is right exactly when Q has a question whose [id] is strictly equal to
    the answer's [question_id] and the [user_answer] is strictly equal to
    the [correct_answer] of the first such question; on two strings strict
    equality is equality of the strings, with no folding of case or white
    space.  The entry of an answer that is not right is read off that
    first question, and holds three [undefined] when Q has no question of
    that id.  In particular five questions, five answers and exactly two
    right answers give score 2 and three explanations. *)
Theorem submitAnswers_grades userId sessionId A stamp table session :
  userId <> "" ->
  addressed_session userId sessionId table session ->
  let Q := qs_questions session in
  let right_answers := List.filter (answered_correctly Q) A in
  let wrong_answers := List.filter (fun a => negb (answered_correctly Q a)) A in
  fst (submitAnswers (Some userId) sessionId A stamp table)
    = Graded (Z.of_nat (List.length right_answers))
             (Z.of_nat (List.length Q))
             (List.map (explainWrong Q) wrong_answers) /\
  (forall a,
      answered_correctly Q a = true <->
      exists q,
        matched_question Q (JS.field a "question_id") q /\
        JS.strict_eq (JS.field a "user_answer") (JS.field q "correct_answer") = true) /\
  (forall s t, JS.strict_eq (JStr s) (JStr t) = true <-> s = t) /\
  (forall a q,
      matched_question Q (JS.field a "question_id") q ->
      explainWrong Q a
        = list_to_map [("question", JS.field q "question");
                       ("correct_answer", JS.field q "correct_answer");
                       ("explanation", JS.field q "explanation")]) /\
  (forall a,
      unmatched Q (JS.field a "question_id") ->
      explainWrong Q a
        = list_to_map [("question", JUndefined); ("correct_answer", JUndefined);
                       ("explanation", JUndefined)]) /\
  (List.length Q = 5%nat -> List.length A = 5%nat ->
   List.length right_answers = 2%nat ->
   exists wrong_explanations,
     fst (submitAnswers (Some userId) sessionId A stamp table)
       = Graded 2 5 wrong_explanations /\
     List.length wrong_explanations = 3%nat).
Proof.
  intros Hu Hs Q right_answers wrong_answers.
  apply owned_session_addressed in Hs.
  rewrite (submitAnswers_found _ _ _ _ _ _ Hu Hs). cbn [fst].
  split; [reflexivity |]. split; [| split; [| split; [| split]]].
  - intros a. unfold answered_correctly. split.
    + destruct (findQuestion Q (JS.field a "question_id")) as [q|] eqn:E; [| done].
      intros H. exists q. split; [by apply findQuestion_matched | done].
    + intros (q & Hq & H). apply findQuestion_matched in Hq. by rewrite Hq.
  - apply strict_eq_strings.
  - intros a q Hq. apply findQuestion_matched in Hq. unfold explainWrong. by rewrite Hq.
  - intros a Hq. apply findQuestion_unmatched in Hq. unfold explainWrong. by rewrite Hq.
  - intros HQ HA HR. eexists. split.
    + fold Q right_answers. by rewrite HQ, HR.
    + rewrite length_map. fold Q.
      pose proof (filter_length (answered_correctly Q) A) as H.
      fold right_answers in H. lia.
Qed.

Lemma submitAnswers_grades_witness :
  exists wrong_explanations,
    fst (submitAnswers (Some "u1") "s1" demo_answers "2024-05-01T10:00:00.000Z" demo_table)
      = Graded 2 5 wrong_explanations /\
    List.length wrong_explanations = 3%nat.
Proof.
  destruct (submitAnswers_grades "u1" "s1" demo_answers "2024-05-01T10:00:00.000Z"
              demo_table demo_session) as (_ & _ & _ & _ & _ & H).
  - discriminate.
  - exists [], []. split; [reflexivity |]. split; [reflexivity |].
    split; [reflexivity |]. intros s [].
  - apply H; reflexivity.
Defined.

(** ** Stored sessions *)

Lemma find_map_stable {A : Type} (p : A -> bool) (f : A -> A) (l : list A) :
  (forall x, p (f x) = p x) ->
  List.find p (List.map f l) = option_map f (List.find p l).
Proof.
  intros Hp. induction l as [|x l IH]; simpl; [done |].
  rewrite Hp. by destruct (p x).
Qed.

Lemma filter_map_stable {A : Type} (p : A -> bool) (f : A -> A) (l : list A) :
  (forall x, p (f x) = p x) ->
  List.filter p (List.map f l) = List.map f (List.filter p l).
Proof.
  intros Hp. rewrite filter_map_swap. f_equal. by apply filter_ext.
Qed.

(** An update that leaves the owner column alone does not move a session
    in or out of a user's sessions. *)
Lemma owned_session_updated userId sessionId sid updates table :
  up_user_id updates = None ->
  owned_session userId sessionId (Db.updateQuizSession sid updates table)
  = option_map (fun s => if String.eqb (qs_id s) sid then apply_updates updates s else s)
      (owned_session userId sessionId table).
Proof.
  intros Hu. unfold owned_session, Db.getUserQuizSessions, Db.updateQuizSession.
  rewrite filter_map_stable, find_map_stable; [done | |];
    intros s; destruct (String.eqb (qs_id s) sid); simpl; by rewrite ?Hu.
Qed.

(** What an update does to each row. *)
Lemma updateQuizSession_rows sid updates table :
  Forall2 (fun s s' =>
             qs_id s' = qs_id s /\
             (qs_id s = sid -> s' = apply_updates updates s) /\
             (qs_id s <> sid -> s' = s))
          table (Db.updateQuizSession sid updates table).
Proof.
  unfold Db.updateQuizSession. induction table as [|s table IH]; simpl; constructor; [| done].
  destruct (String.eqb_spec (qs_id s) sid); simpl; repeat split; intros; done.
Qed.

(** C7 (amended).  An answer submission leaves every row's questions and
    total_questions as they were, leaves the other sessions alone, and
    stores on the addressed session completed = true together with one
    stored answer per submitted answer.  A further submission is graded
    again, reports total_questions = the number of stored questions, and
    again leaves completed = true and total_questions untouched.  The
    generic update route, in contrast, stores whatever value of [completed]
    its body carries. *)
Theorem submission_completes userId sessionId A stamp table session :
  userId <> "" ->
  owned_session userId sessionId table = Some session ->
  let table1 := snd (submitAnswers (Some userId) sessionId A stamp table) in
  Forall2 (fun s s' =>
             qs_id s' = qs_id s /\
             qs_questions s' = qs_questions s /\
             qs_total_questions s' = qs_total_questions s /\
             (qs_id s = sessionId ->
                qs_completed s' = true /\
                List.length (qs_answers s') = List.length A) /\
             (qs_id s <> sessionId -> s' = s))
          table table1 /\
  (forall A2 stamp2,
      exists score2 wrong2,
        fst (submitAnswers (Some userId) sessionId A2 stamp2 table1)
          = Graded score2 (Z.of_nat (List.length (qs_questions session))) wrong2 /\
        Forall2 (fun s s' =>
                   qs_total_questions s' = qs_total_questions s /\
                   (qs_id s = sessionId ->
                      qs_completed s' = true /\
                      List.length (qs_answers s') = List.length A2))
                table (snd (submitAnswers (Some userId) sessionId A2 stamp2 table1))) /\
  (forall b,
      Forall2 (fun s s' => qs_id s = sessionId -> qs_completed s' = b)
              table (patchSession sessionId (set_completed b) table1)).
Proof.
  intros Hu Hs table1. subst table1.
  rewrite (submitAnswers_found _ _ _ _ _ _ Hu Hs). cbn [snd].
  set (updates := {| up_user_id := None; up_completed := Some true |}).
  split; [| split].
  - eapply Forall2_impl; [apply updateQuizSession_rows |].
    intros s s' (Hid & Hup & Hsame). split; [done |].
    destruct (String.eqb_spec (qs_id s) sessionId) as [He | Hne].
    + rewrite (Hup He). cbn. by rewrite length_map.
    + rewrite (Hsame Hne). done.
  - intros A2 stamp2.
    assert (owned_session userId sessionId (Db.updateQuizSession sessionId updates table)
            = Some (apply_updates updates session)) as Hs1.
    { rewrite owned_session_updated, Hs by done. cbn.
      unfold owned_session in Hs. apply find_some in Hs as [_ ->%String.eqb_eq].
      by rewrite String.eqb_refl. }
    rewrite (submitAnswers_found _ _ _ _ _ _ Hu Hs1). cbn [fst snd].
    eexists _, _. split; [reflexivity |].
    unfold Db.updateQuizSession. rewrite map_map.
    apply Forall2_fmap_r, Forall_Forall2_diag, Forall_forall.
    intros s _. unfold compose. cbv beta. destruct (String.eqb (qs_id s) sessionId) eqn:E.
    + change (qs_id (apply_updates updates s)) with (qs_id s). rewrite E. cbn.
      split; [done |]. intros _. by rewrite length_map.
    + rewrite E. split; [done |]. intros He%String.eqb_eq. congruence.
  - intros b. unfold patchSession, Db.updateQuizSession. rewrite map_map.
    apply Forall2_fmap_r, Forall_Forall2_diag, Forall_forall.
    intros s _ He%String.eqb_eq. unfold compose. cbv beta. rewrite He.
    change (qs_id (apply_updates updates s)) with (qs_id s). by rewrite He.
Qed.

Lemma submission_completes_witness :
  Forall2 (fun s s' => qs_id s = "s1" -> qs_completed s' = true)
    demo_table
    (snd (submitAnswers (Some "u1") "s1" demo_answers "2024-05-01T10:00:00.000Z" demo_table)) /\
  exists score2 wrong2,
    fst (submitAnswers (Some "u1") "s1" [] "2024-05-01T11:00:00.000Z"
           (snd (submitAnswers (Some "u1") "s1" demo_answers
                   "2024-05-01T10:00:00.000Z" demo_table)))
      = Graded score2 5 wrong2.
Proof.
  destruct (submission_completes "u1" "s1" demo_answers "2024-05-01T10:00:00.000Z"
              demo_table demo_session) as (Hrows & Hagain & _);
    [discriminate | reflexivity |].
  split.
  - eapply Forall2_impl; [exact Hrows |].
    intros s s' (_ & _ & _ & Hdone & _) He. by apply Hdone.
  - destruct (Hagain [] "2024-05-01T11:00:00.000Z") as (score2 & wrong2 & H & _).
    by exists score2, wrong2.
Defined.

(** C7 (counterexample).  After a one-answer submission to the five-question
    demo quiz the session is completed with one stored answer against five
    questions, and a PATCH with body {completed: false} puts the flag back
    to false. *)
Lemma completed_flag_can_revert :
  let table1 :=
    snd (submitAnswers (Some "u1") "s1" [demo_answer "q1" "a"]
           "2024-05-01T10:00:00.000Z" demo_table) in
  let table2 := patchSession "s1" (set_completed false) table1 in
  List.map qs_completed demo_table = [false] /\
  List.map qs_completed table1 = [true] /\
  List.map qs_completed table2 = [false] /\
  List.map (fun s => (List.length (qs_answers s), List.length (qs_questions s))) table1
    = [(1%nat, 5%nat)].
Proof. vm_compute. repeat split. Qed.

(** ** Upgrade-tier flow *)

Lemma newLevel_next_tier (t : Tier) :
  newLevel (JStr (tier_tag t)) = JStr (tier_tag (next_tier t)).
Proof. by destruct t. Qed.

(** C9. The signed-in user holds preferences with difficulty tier [tier], and
    the submit call of the upgrade quiz reports [score].  With a score of 6
    or more the handler sends exactly one preferences update, carrying the
    user's preferences with the difficulty moved one step along beginner,
    intermediate, advanced (advanced stays advanced) and every other field
    as it was, and adopts the user the server sends back.  With a score
    below 6 no update is sent and the user is unchanged. *)
Theorem upgrade_promotes_one_step api st quiz u preferences tier score total :
  upgradeQuiz st = Some quiz ->
  user st = Some u ->
  JS.field u "preferences" = JObj preferences ->
  JS.field preferences "difficulty" = JStr (tier_tag tier) ->
  submitQuizAnswers api (qs_id quiz) (upgradeAnswers quiz (upgradeQuizAnswers st))
    = Some (score, total) ->
  let submitted :=
    SubmitQuizAnswers (qs_id quiz) (upgradeAnswers quiz (upgradeQuizAnswers st)) in
  let promoted : gmap string JSValue :=
    <["difficulty" := JStr (tier_tag (next_tier tier))]> preferences in
  let st' := fst (fst (handleUpgradeQuizSubmit api st)) in
  let calls := snd (fst (handleUpgradeQuizSubmit api st)) in
  (6 <= score ->
     calls = [submitted; UpdateUserPreferences promoted] /\
     (forall k, k <> "difficulty" -> promoted !! k = preferences !! k) /\
     (forall u', updateUserPreferences api promoted = Some (Some u') -> user st' = Some u')) /\
  (score < 6 -> calls = [submitted] /\ user st' = user st).
Proof.
  intros Hq Hu Hp Hd Hsub submitted promoted st' calls.
  subst st' calls. unfold handleUpgradeQuizSubmit.
  rewrite Hq. cbn [upgradeQuizAnswers setUpgradeQuizSubmitting]. rewrite Hsub.
  cbn [user setUpgradeQuizResult setUpgradeQuizSubmitting]. rewrite Hu.
  split.
  - intros Hs. apply Z.leb_le in Hs. rewrite Hs, Hp. cbn [JS.nullish JS.opt_get JS.spread].
    rewrite Hd, newLevel_next_tier. fold promoted.
    destruct (updateUserPreferences api promoted) as [[u'|]|] eqn:Hupd;
      (split; [reflexivity |]); (split; [by intros k Hk; apply lookup_insert_ne |]);
      intros u'' [=]; by subst.
  - intros Hs. apply Z.leb_gt in Hs. by rewrite Hs.
Qed.

Lemma upgrade_promotes_one_step_witness :
  snd (fst (handleUpgradeQuizSubmit (scoring_api 7) demo_client))
    = [SubmitQuizAnswers "s1" (upgradeAnswers demo_session ∅);
       UpdateUserPreferences (<["difficulty" := JStr "intermediate"]> demo_preferences)] /\
  snd (fst (handleUpgradeQuizSubmit (scoring_api 5) demo_client))
    = [SubmitQuizAnswers "s1" (upgradeAnswers demo_session ∅)].
Proof.
  split.
  - apply (upgrade_promotes_one_step (scoring_api 7) demo_client demo_session
             demo_user demo_preferences Beginner 7 10); try reflexivity; try lia.
  - apply (upgrade_promotes_one_step (scoring_api 5) demo_client demo_session
             demo_user demo_preferences Beginner 5 10); try reflexivity; try lia.
Defined.

(** ** Quiz generation *)

Lemma or_else_string (X : string) : JS.or_else (JStr X) (JStr "") = JStr X.
Proof.
  unfold JS.or_else. simpl. destruct (String.eqb_spec X ""); by subst.
Qed.

Lemma or_else_is_string (a b : JSValue) :
  (a = JUndefined \/ exists s, a = JStr s) -> (exists s, b = JStr s) ->
  exists s, JS.or_else a b = JStr s.
Proof.
  intros [-> | [s ->]] [t ->]; unfold JS.or_else; simpl; [eauto |].
  destruct (String.eqb s ""); simpl; eauto.
Qed.

Section QuizGenerationFacts.

Context (B : Builtins) (S : Services).

Lemma mapQuestion_options topic quizDifficulty idx q w q' w' :
  mapQuestion S topic quizDifficulty idx q w = (Ok q', w') ->
  JS.opt_get q' "options" = JArr (optionsArr (JS.opt_get q "options")).
Proof.
  unfold mapQuestion, member. intros H.
  apply bind_Ok in H as (options & w1 & Ho & H).
  destruct (JS.nullish q); [discriminate |]. injection Ho as <- <-.
  apply bind_Ok in H as (stamp & w2 & _ & H). by injection H as <- _.
Qed.

(** The statements before the [try] complete on inputs typed as declared. *)
Lemma quizPrelude_runs topic total_questions userId difficulty w :
  typed_difficulty difficulty ->
  (forall u, db_getUserById S userId = DbFound u ->
             typed_preferences (JS.field u "preferences")) ->
  exists quizDifficulty prompt w1,
    quizPrelude B S topic total_questions userId difficulty w
      = (Ok (quizDifficulty, prompt), w1).
Proof.
  intros Hd Hu.
  assert (exists m, try_catch
            (let* user := getUserById S userId in
             ret (JS.or_else (JS.opt_get user "preferences") (JObj ∅)))
            (fun _ => ret (JObj ∅)) w = (Ok (JObj m), (w ++ [EvGetUserById userId])%list)
          /\ typed_preferences (JObj m)) as (m & Hload & Hdiff & Hlang).
  { unfold try_catch, getUserById, bind, emit, ret, throw.
    destruct (db_getUserById S userId) as [| |u] eqn:Hdb;
      try (exists ∅; split; [reflexivity | split; by left]).
    specialize (Hu u eq_refl). cbn [JS.opt_get].
    destruct (JS.field u "preferences") as [| | | | | |m] eqn:Hf; try done;
      try (exists ∅; split; [reflexivity | split; by left]).
    exists m. split; [reflexivity | done]. }
  unfold quizPrelude. unfold bind at 1. rewrite Hload.
  destruct (or_else_is_string difficulty
              (JS.or_else (JS.opt_get (JObj m) "difficulty") (JStr "beginner")))
    as [s Hs]; [done | by apply or_else_is_string; eauto |].
  rewrite Hs. unfold bind, ret. cbn [JS.opt_get].
  destruct Hlang as [-> | [l ->]]; cbn [joinLanguages]; unfold ret; eauto.
Qed.


(** C4 (amended).  Once the statements before the [try] have completed,
    every failure of the completion step ends in a one-element list: a
    thrown request gives the placeholder "Failed to generate quiz for
    topic: T", a text without a bracketed array gives "No quiz generated for
    topic: T", and a bracketed text that does not parse gives the former
    again.  The placeholder carries the question text and no other field,
    so it is not a full [QuizQuestion]. *)
Theorem generateQuiz_failure_gives_placeholder
    topic total_questions userId difficulty w quizDifficulty prompt w1 :
  quizPrelude B S topic total_questions userId difficulty w
    = (Ok (quizDifficulty, prompt), w1) ->
  let result := fst (generateQuizQuestions B S topic total_questions userId difficulty w) in
  let content :=
    match openai_create S prompt with Content s => s | _ => "" end in
  let cleaned := Text.trim (Text.strip_fences content) in
  let failed := placeholderQuestion ("Failed to generate quiz for topic: " +:+ topic) in
  let nothing := placeholderQuestion ("No quiz generated for topic: " +:+ topic) in
  (openai_create S prompt = ApiError -> result = Ok [failed]) /\
  (openai_create S prompt <> ApiError -> Text.find_array cleaned = None ->
     result = Ok [nothing]) /\
  (openai_create S prompt <> ApiError ->
     forall text, Text.find_array cleaned = Some text -> JSON_parse B text = None ->
     result = Ok [failed]) /\
  (forall k, k <> "question" ->
     JS.opt_get failed k = JUndefined /\ JS.opt_get nothing k = JUndefined) /\
  is_QuizQuestion failed = false /\ is_QuizQuestion nothing = false.
Proof.
  intros Hpre result content cleaned failed nothing. subst result.
  unfold generateQuizQuestions, bind. rewrite Hpre. cbn [fst snd].
  unfold try_catch, generateQuiz_try, bind, emit, ret, throw.
  fold content. repeat split.
  - intros Herr. subst content cleaned. by rewrite Herr.
  - intros Hne Hnone. subst cleaned content.
    destruct (openai_create S prompt); [done | |];
      cbv beta iota in *; by rewrite Hnone.
  - intros Hne text Hsome Hparse. subst cleaned content.
    destruct (openai_create S prompt); [done | |];
      cbv beta iota in *; by rewrite Hsome, Hparse.
  - unfold failed, placeholderQuestion. cbn. unfold JS.field.
    by rewrite lookup_singleton_ne.
  - unfold nothing, placeholderQuestion. cbn. unfold JS.field.
    by rewrite lookup_singleton_ne.
Qed.

End QuizGenerationFacts.

Lemma generateQuiz_failure_gives_placeholder_witness :
  fst (generateQuizQuestions ascii_builtins offline_services
         "JavaScript" (JNum 5) "u1" JUndefined []) = Ok failed_quiz /\
  fst (generateQuizQuestions ascii_builtins (echo_services "Sorry, I cannot do that.")
         "JavaScript" (JNum 5) "u1" JUndefined [])
    = Ok [placeholderQuestion "No quiz generated for topic: JavaScript"].
Proof.
  split.
  - edestruct (generateQuiz_failure_gives_placeholder ascii_builtins offline_services
                 "JavaScript" (JNum 5) "u1" JUndefined []) as (H & _);
      [vm_compute; reflexivity | apply H; reflexivity].
  - edestruct (generateQuiz_failure_gives_placeholder ascii_builtins
                 (echo_services "Sorry, I cannot do that.")
                 "JavaScript" (JNum 5) "u1" JUndefined []) as (_ & H & _);
      [vm_compute; reflexivity | apply H; [discriminate | reflexivity]].
Defined.

(** C4 (counterexample).  With the completion service down the generator
    returns a non-empty list whose element fails the [QuizQuestion] check:
    it has no id, type, correct_answer, explanation, difficulty or
    concepts. *)
Lemma placeholder_is_not_a_QuizQuestion :
  exists questions,
    fst (generateQuizQuestions ascii_builtins offline_services
           "JavaScript" (JNum 5) "u1" JUndefined []) = Ok questions /\
    questions <> [] /\
    forallb is_QuizQuestion questions = false.
Proof.
  exists failed_quiz. split; [vm_compute; reflexivity |]. split; [discriminate | reflexivity].
Qed.

(** ** Option normalisation *)

(** C5 (amended).  A labelled option object is read at the keys a, b, c, d
    in this order, a missing or falsy entry becoming the empty string, so
    {a: X, b: Y, c: Z, d: W} gives [X, Y, Z, W] and the result always has
    four elements.  An array is returned as it is, whatever its length, so
    normalising twice is normalising once.  The generated question stores
    exactly this list as its options. *)
Theorem optionsArr_normalises :
  (forall m : gmap string JSValue,
      optionsArr (JObj m)
        = [JS.or_else (JS.field m "a") (JStr ""); JS.or_else (JS.field m "b") (JStr "");
           JS.or_else (JS.field m "c") (JStr ""); JS.or_else (JS.field m "d") (JStr "")]) /\
  (forall (X Y Z W : string) (m : gmap string JSValue),
      m !! "a" = Some (JStr X) -> m !! "b" = Some (JStr Y) ->
      m !! "c" = Some (JStr Z) -> m !! "d" = Some (JStr W) ->
      optionsArr (JObj m) = [JStr X; JStr Y; JStr Z; JStr W]) /\
  (forall l, optionsArr (JArr l) = l) /\
  (forall v, optionsArr (JArr (optionsArr v)) = optionsArr v) /\
  (forall m : gmap string JSValue, List.length (optionsArr (JObj m)) = 4%nat) /\
  (forall l, List.length (optionsArr (JArr l)) = List.length l) /\
  (forall S topic quizDifficulty idx q w q' w',
      mapQuestion S topic quizDifficulty idx q w = (Ok q', w') ->
      JS.opt_get q' "options" = JArr (optionsArr (JS.opt_get q "options"))).
Proof.
  repeat split; try reflexivity.
  - intros X Y Z W m Ha Hb Hc Hd. cbn. unfold JS.field.
    rewrite Ha, Hb, Hc, Hd. cbn. by rewrite !or_else_string.
  - intros S topic quizDifficulty idx q w q' w'. apply mapQuestion_options.
Qed.

Lemma optionsArr_normalises_witness :
  optionsArr (JObj (list_to_map [("a", JStr "X"); ("b", JStr "Y");
                                 ("c", JStr "Z"); ("d", JStr "W")]))
    = [JStr "X"; JStr "Y"; JStr "Z"; JStr "W"].
Proof.
  apply (proj1 (proj2 optionsArr_normalises)); reflexivity.
Defined.

(** C5 (counterexample).  An option array of two strings comes back
    unchanged, with two elements and not four. *)
Lemma optionsArr_keeps_short_array :
  optionsArr (JArr [JStr "X"; JStr "Y"]) = [JStr "X"; JStr "Y"] /\
  List.length (optionsArr (JArr [JStr "X"; JStr "Y"])) <> 4%nat.
Proof. split; [reflexivity | discriminate]. Qed.

(* ===================================================================== *)
(** * Part III: further properties of the code                            *)
(* ===================================================================== *)

(** ** Mode executors *)

Section ExecutorFacts.

Context (B : Builtins) (S : Services).


End ExecutorFacts.




(** ** A turn through the normal pipeline *)

Section NormalTurn.

Context (B : Builtins) (S : Services).


End NormalTurn.


(** ** What decides the node and the reply of a turn *)

Section TurnOutcome.

Context (B : Builtins) (S : Services).

Lemma quizFollowUp_fires userInput currentContext w r w' :
  quizFollowUp B S userInput currentContext w = (Ok (Some r), w') ->
  intercepts userInput currentContext = true.
Proof.
  unfold quizFollowUp, intercepts.
  by destruct (JS.truthy currentContext && _ && _).
Qed.

(** The three ways a turn can end. *)
Lemma executeGraph_outcome userId sessionId userInput currentContext w r w' :
  executeGraph B S userId sessionId userInput currentContext w = (Ok r, w') ->
  (intercepts userInput currentContext = true /\
   current_node r = QuizGenerator /\ session_context r = currentContext) \/
  (intercepts userInput currentContext = false /\
   current_node r = determineNode B userInput ∅) \/
  (current_node r = ConceptExplainer /\ response r = fallbackResponse).
Proof.
  unfold executeGraph, try_catch.
  destruct (executeGraph_try _ _ _ _ _ _ _) as [[r0|e] w1] eqn:Htry.
  - intros [= -> ->]. unfold executeGraph_try in Htry.
    unbind Htry. apply bind_Ok in Htry as (o & w2 & Hq & Htry).
    destruct o as [r0|].
    + injection Htry as -> _. left.
      pose proof (quizFollowUp_fires _ _ _ _ _ Hq).
      by apply quizFollowUp_returns in Hq as (? & _ & ? & _).
    + right. left. split.
      * unfold quizFollowUp in Hq. unfold intercepts.
        destruct (JS.truthy currentContext && _ && _) eqn:Hc; [| done].
        apply andb_prop in Hc as [_ Ht].
        destruct (test_reference_number _ Ht) as [d Hd]. rewrite Hd in Hq.
        destruct (JS.truthy _ && JS.truthy _).
        -- apply bind_Ok in Hq as (? & ? & _ & Hq).
           unfold bind, now, ret in Hq. discriminate.
        -- unfold bind, now, ret in Hq. discriminate.
      * do 4 unbind Htry. by injection Htry as <- _.
  - unfold executeGraph_catch, bind, now, ret. intros [= <- _]. by right; right.
Qed.

(** A failing session write changes neither the reply nor the trace. *)
Lemma executeGraph_write_blind writes userId sessionId userInput currentContext w :
  executeGraph B (with_session_writes S writes) userId sessionId userInput currentContext w
  = executeGraph B S userId sessionId userInput currentContext w.
Proof.
  unfold executeGraph, try_catch.
  assert (executeGraph_try B (with_session_writes S writes) userId sessionId
            userInput currentContext w
          = executeGraph_try B S userId sessionId userInput currentContext w) as ->;
    [| reflexivity].
  unfold executeGraph_try.
  change (loadUserPreferences (with_session_writes S writes))
    with (loadUserPreferences S).
  change (quizFollowUp B (with_session_writes S writes)) with (quizFollowUp B S).
  change (initialState (with_session_writes S writes)) with (initialState S).
  change (dispatch B (with_session_writes S writes)) with (dispatch B S).
  change (pushHistory (with_session_writes S writes)) with (pushHistory S).
  unfold bind.
  destruct (loadUserPreferences S userId w) as [[p|e] w1]; [| done].
  destruct (quizFollowUp B S userInput currentContext w1) as [[[r|]|e] w2]; [done | | done].
  destruct (initialState S userId sessionId userInput currentContext p w2)
    as [[st|e] w3]; [| done].
  destruct (dispatch B S _ _ w3) as [[answer|e] w4]; [| done].
  destruct (pushHistory S userInput _ answer _ w4) as [[c|e] w5]; [| done].
  by rewrite !saveSessionState_value.
Qed.

(** X3.  Every turn returns, and it ends in one of three ways: as a quiz
    follow-up (the context holds a quiz and the input refers to a question
    by number), tagged quiz-generator and with the context handed back
    untouched; through the pipeline, at the node the router picks from the
    user input alone, whatever the context holds (a [requested_node] in it
    has no effect); or in the fallback, tagged concept-explainer and
    carrying the fixed apology text. *)
Theorem turn_ends_in_three_ways userId sessionId userInput currentContext w :
  exists r w',
    executeGraph B S userId sessionId userInput currentContext w = (Ok r, w') /\
    ((intercepts userInput currentContext = true /\
      current_node r = QuizGenerator /\ session_context r = currentContext) \/
     (intercepts userInput currentContext = false /\
      current_node r = determineNode B userInput ∅) \/
     (current_node r = ConceptExplainer /\ response r = fallbackResponse)).
Proof.
  destruct (executeGraph_runs B S userId sessionId userInput currentContext w)
    as (r & w' & Hrun).
  exists r, w'. split; [exact Hrun |]. by eapply executeGraph_outcome.
Qed.

(** X4.  The orchestrator cannot see whether its session write went
    through: with any other behaviour of the write, the turn returns the
    same result and leaves the same trace. *)
Theorem session_write_failure_is_invisible writes userId sessionId userInput
    currentContext w :
  executeGraph B (with_session_writes S writes) userId sessionId userInput currentContext w
  = executeGraph B S userId sessionId userInput currentContext w.
Proof. apply executeGraph_write_blind. Qed.

End TurnOutcome.

(** ** White space *)

Lemma rev_string_chars (s : string) :
  list_ascii_of_string (Text.rev_string s) = List.rev (list_ascii_of_string s).
Proof. unfold Text.rev_string. apply list_ascii_of_string_of_list_ascii. Qed.

Lemma rev_string_empty (s : string) : Text.rev_string s = "" <-> s = "".
Proof.
  split; [| by intros ->].
  intros H. apply (f_equal list_ascii_of_string) in H.
  rewrite rev_string_chars in H. simpl in H.
  destruct s as [|c s]; [done |]. simpl in H.
  by apply app_eq_nil in H as [_ ?].
Qed.

(** Skipping white space either stops at once or goes on from a shorter
    string. *)
Lemma skip_spaces_step (s : string) :
  Re.skip_spaces s = s \/
  exists r, (String.length r < String.length s)%nat /\
            Re.skip_spaces s = Re.skip_spaces r.
Proof.
  destruct s as [|a r]; [by left |]. cbn [Re.skip_spaces].
  destruct (Re.is_space a); [right; exists r; simpl; split; [lia | done] |].
  destruct r as [|b r1]; [by left |].
  destruct (Re.is_space2 a b); [right; exists r1; simpl; split; [lia | done] |].
  destruct r1 as [|c r2]; [by left |].
  destruct (Re.is_space3 a b c); [right; exists r2; simpl; split; [lia | done] |].
  by left.
Qed.

(** What is left after skipping white space does not start with any. *)
Lemma skip_spaces_fixed (s : string) :
  Re.skip_spaces (Re.skip_spaces s) = Re.skip_spaces s.
Proof.
  remember (String.length s) as n eqn:Hn. revert s Hn.
  induction n as [n IH] using lt_wf_ind. intros s ->.
  destruct (skip_spaces_step s) as [Hs | (r & Hlt & Hs)].
  - by rewrite !Hs.
  - rewrite Hs. by apply (IH (String.length r)).
Qed.

(** [trim] leaves nothing exactly of the strings made of white space. *)
Lemma trim_empty (s : string) : Text.trim s = "" <-> blank s = true.
Proof.
  unfold Text.trim, blank, Re.only_spaces.
  pose proof (skip_spaces_fixed s) as Hfix.
  destruct (Re.skip_spaces s) as [|c r] eqn:Hs; [done |].
  cbn [Text.trim_end]. unfold Re.only_spaces. rewrite Hfix.
  split; discriminate.
Qed.

(** ** Chat routes *)

Section ChatRouteFacts.

Context (B : Builtins) (S : Services) (env : StoreEnv).

Lemma runTurn_runs userId sessionId userInput context table w :
  exists r w',
    executeGraph B S userId sessionId userInput context w = (Ok r, w') /\
    runTurn B S env userId sessionId userInput context table w
      = (Ok r, commit S env (drop (List.length w) w') table, w').
Proof.
  destruct (executeGraph_runs B S userId sessionId userInput context w) as (r & w' & H).
  exists r, w'. split; [done |]. unfold runTurn. by rewrite H.
Qed.



Lemma chat_routes_total userId table w :
  (forall message sessionId sid,
      fst (fst (postMessage B S env userId message sessionId table w)) <> ChatFailure sid) /\
  (forall sessionId nodeType message,
      fst (fst (switchNode B S env userId sessionId nodeType message table w))
        <> SwitchFailure).
Proof.
  split.
  - intros message sessionId sid0. unfold postMessage.
    destruct message; try done.
    destruct (String.eqb _ ""); [done |].
    destruct (match sessionId with Some _ => _ | None => _ end) as [[sid t1]|];
      [| done].
    destruct (runTurn_runs userId sid (Text.trim s)
                (sessionContext (ChatDb.getChatSession sid t1)) t1 w)
      as (r & w1 & _ & ->).
    done.
  - intros sessionId nodeType message. unfold switchNode.
    repeat match goal with
    | |- context [if ?c then _ else _] => destruct c; try done
    | |- context [match ChatDb.getChatSession ?a ?b with _ => _ end] =>
        destruct (ChatDb.getChatSession a b); try done
    end.
    all: match goal with
         | |- context [runTurn B S env ?u ?s ?i ?c ?t ?w] =>
             destruct (runTurn_runs u s i c t w) as (r & w1 & _ & ->)
         end; done.
Qed.

(** X6.  Neither chat route ever reports a failed turn: the orchestrator
    returns a result on every input, so the [catch] around it in the
    message route and in the switch route is never entered. *)
Theorem chat_routes_never_report_failure userId table w :
  (forall message sessionId sid,
      fst (fst (postMessage B S env userId message sessionId table w)) <> ChatFailure sid) /\
  (forall sessionId nodeType message,
      fst (fst (switchNode B S env userId sessionId nodeType message table w))
        <> SwitchFailure).
Proof. apply chat_routes_total. Qed.

End ChatRouteFacts.


(** ** Conversations *)

Section Conversations.

Context (B : Builtins) (S : Services) (env : StoreEnv).


















End Conversations.






(** ** Conversations of several messages *)

Section LongConversations.

Context (B : Builtins) (S : Services) (env : StoreEnv).




(** The requests the rename route turns down leave the table as it is. *)
Lemma renameSession_rejects userId sid name table :
  name = JUndefined \/ name = JNull \/
  (exists n, name = JStr n /\
     (blank n = true \/ table !! sid = None
      \/ exists row, table !! sid = Some row /\ cs_user_id row <> userId)) ->
  exists msg,
    renameSession env userId sid name table = (RenameRejected (ValidationError msg), table).
Proof.
  unfold renameSession, ChatDb.getChatSession.
  intros [-> | [-> | (n & -> & Hn)]]; [by eexists | by eexists |].
  destruct (String.eqb (Text.trim n) "") eqn:Ht; [by eexists |].
  destruct Hn as [Hn | [-> | (row & -> & Hown)]]; [| by eexists |].
  - apply trim_empty in Hn. rewrite Hn in Ht. discriminate.
  - apply String.eqb_neq in Hown. rewrite Hown. by eexists.
Qed.



(** X11.  The rename route turns down an absent or blank name, an unknown
    session and a session of another user, each with a validation error,
    and leaves the table as it was. *)
Theorem rename_rejections_change_nothing userId sid name table :
  name = JUndefined \/ name = JNull \/
  (exists n, name = JStr n /\
     (blank n = true \/ table !! sid = None
      \/ exists row, table !! sid = Some row /\ cs_user_id row <> userId)) ->
  exists msg,
    renameSession env userId sid name table = (RenameRejected (ValidationError msg), table).
Proof. apply renameSession_rejects. Qed.

End LongConversations.



Lemma rename_rejections_change_nothing_witness :
  exists msg,
    renameSession demo_env "u2" "c0" (JStr "Mine now") demo_chats
      = (RenameRejected (ValidationError msg), demo_chats).
Proof.
  apply (rename_rejections_change_nothing demo_env "u2" "c0" (JStr "Mine now") demo_chats).
  right; right. exists "Mine now". split; [reflexivity |].
  right; right. exists demo_chat. split; [reflexivity | discriminate].
Defined.

(** ** Switching the node *)

Section SwitchNode.

Context (B : Builtins) (S : Services) (env : StoreEnv).


Lemma available_tag node :
  existsb (fun n => String.eqb (node_tag n) node) getAvailableNodes = true <->
  exists n, n <> Router /\ node = node_tag n.
Proof.
  split.
  - intros H. apply existsb_exists in H as (n & Hn & He).
    apply String.eqb_eq in He. exists n. split; [| done].
    intros ->. simpl in Hn. intuition discriminate.
  - intros (n & Hn & ->). by destruct n.
Qed.

(** The guards of the switch route: a turn is run exactly for a session of
    the caller and one of the four node tags; every other request is
    rejected with the store and the trace untouched. *)
Lemma switchNode_guards userId sessionId nodeType message table w :
  let allowed :=
    exists sid node row n,
      sessionId = Some sid /\ sid <> "" /\ nodeType = Some node /\
      table !! sid = Some row /\ cs_user_id row = userId /\
      n <> Router /\ node = node_tag n in
  (allowed ->
   exists data table' w',
     switchNode B S env userId sessionId nodeType message table w
       = (SwitchSuccess data, table', w') /\
     sd_message data = "Switched to " +:+ default "" nodeType +:+ " mode") /\
  (~ allowed ->
   exists msg,
     switchNode B S env userId sessionId nodeType message table w
       = (SwitchRejected (ValidationError msg), table, w)).
Proof.
  cbv zeta. split.
  - intros (sid & node & row & n & -> & Hsid & -> & Hrow & Hown & Hn & Hnode).
    unfold switchNode. apply String.eqb_neq in Hsid. rewrite Hsid.
    assert (String.eqb node "" = false) as ->.
    { subst node. by destruct n. }
    cbv zeta. change (default "" (Some ?x)) with x. unfold ChatDb.getChatSession. rewrite Hrow.
    apply String.eqb_eq in Hown. rewrite Hown. cbn [negb].
    assert (existsb (fun n => String.eqb (node_tag n) node) getAvailableNodes = true) as ->.
    { apply available_tag. eauto. }
    cbn [negb]. cbv iota.
    match goal with
    | |- context [runTurn B S env ?u ?s ?i ?c ?t ?w] =>
        destruct (runTurn_runs B S env u s i c t w) as (r & w1 & _ & ->)
    end.
    eauto.
  - intros Hno. unfold switchNode.
    destruct sessionId as [sid|]; [| by eexists]. cbv beta iota.
    destruct (String.eqb sid "") eqn:Hsid; [by eexists |].
    destruct nodeType as [node|]; [| by eexists]. cbv beta iota.
    destruct (String.eqb node "") eqn:Hnode; [by eexists |].
    unfold ChatDb.getChatSession. change (default "" (Some ?x)) with x.
    destruct (table !! sid) as [row|] eqn:Hrow; [| by eexists].
    destruct (String.eqb (cs_user_id row) userId) eqn:Hown; cbn [negb]; [| by eexists].
    destruct (existsb (fun n => String.eqb (node_tag n) node) getAvailableNodes) eqn:Hav;
      cbn [negb]; [| by eexists].
    exfalso. apply Hno. apply available_tag in Hav as (n & Hn & ->).
    apply String.eqb_neq in Hsid. apply String.eqb_eq in Hown.
    exists sid, (node_tag n), row, n. done.
Qed.



(** X12.  The switch route runs a turn exactly for a non-empty session id
    that names a row of the caller and a node type that is one of the four
    tags code-feedback, concept-explainer, quiz-generator and
    mistake-analyzer ("router" is not among them); its reply then reads
    "Switched to T mode" for the requested tag T.  Every other request is
    answered with a validation error and leaves the table and the trace
    untouched. *)
Theorem switch_route_guards userId sessionId nodeType message table w :
  let allowed :=
    exists sid node row n,
      sessionId = Some sid /\ sid <> "" /\ nodeType = Some node /\
      table !! sid = Some row /\ cs_user_id row = userId /\
      n <> Router /\ node = node_tag n in
  (allowed ->
   exists data table' w',
     switchNode B S env userId sessionId nodeType message table w
       = (SwitchSuccess data, table', w') /\
     sd_message data = "Switched to " +:+ default "" nodeType +:+ " mode") /\
  (~ allowed ->
   exists msg,
     switchNode B S env userId sessionId nodeType message table w
       = (SwitchRejected (ValidationError msg), table, w)).
Proof. apply switchNode_guards. Qed.



End SwitchNode.

Lemma switch_route_guards_witness :
  exists msg,
    switchNode ascii_builtins offline_services demo_env "u2" (Some "c0")
      (Some "quiz-generator") None demo_chats []
    = (SwitchRejected (ValidationError msg), demo_chats, []).
Proof.
  destruct (switch_route_guards ascii_builtins offline_services demo_env "u2"
              (Some "c0") (Some "quiz-generator") None demo_chats []) as [_ Hreject].
  apply Hreject. intros (sid & node & row & n & [= <-] & _ & _ & Hrow & Hown & _).
  vm_compute in Hrow. injection Hrow as <-. discriminate Hown.
Defined.



(** ** The socket handler and the message route *)

Section SocketFacts.

Context (B : Builtins) (S : Services) (env : StoreEnv).

Lemma onChatMessage_postMessage userId username message sessionId table w :
  let '(reply, table1, w1) := postMessage B S env userId message sessionId table w in
  let '(actions, table2, w2) :=
    onChatMessage B S env userId username message sessionId table w in
  table2 = table1 /\
  responses_of actions = reply_data reply /\
  w2 = (w1 ++ replicate (2 * List.length (reply_data reply)) EvClock)%list.
Proof.
  unfold postMessage, onChatMessage.
  destruct message as [| | | |m| |]; try (by rewrite app_nil_r).
  destruct (String.eqb (Text.trim m) ""); [by rewrite app_nil_r |].
  assert (forall created : option (string * gmap string ChatSession * list SocketAction),
            let '(reply, table1, w1) :=
              match option_map (fun c => (c.1.1, c.1.2)) created with
              | None =>
                  (ChatRejected (InternalError "Failed to create chat session"), table, w)
              | Some (currentSessionId, table1) =>
                  match runTurn B S env userId currentSessionId (Text.trim m)
                          (sessionContext (ChatDb.getChatSession currentSessionId table1))
                          table1 w with
                  | (Ok result, table2, w') =>
                      (ChatSuccess
                         {| cd_response := response result;
                            cd_sessionId := currentSessionId;
                            cd_currentNode := current_node result;
                            cd_availableTransitions := available_transitions result;
                            cd_metadata := metadata result |},
                       table2, w')
                  | (Throw _, table2, w') => (ChatFailure currentSessionId, table2, w')
                  end
              end in
            let '(actions, table2, w2) :=
              match created with
              | None =>
                  ([EmitThinking true; EmitError "Failed to create chat session"], table, w)
              | Some (currentSessionId, table1, joined) =>
                  match runTurn B S env userId currentSessionId (Text.trim m)
                          (sessionContext (ChatDb.getChatSession currentSessionId table1))
                          table1 w with
                  | (Ok result, table2, w1) =>
                      (((EmitThinking true :: joined) ++
                       [EmitThinking false;
                        EmitResponse
                          {| cd_response := response result;
                             cd_sessionId := currentSessionId;
                             cd_currentNode := current_node result;
                             cd_availableTransitions := available_transitions result;
                             cd_metadata := metadata result |}
                          (clock S (List.length w1));
                        EmitMessageReceived ("session:" +:+ currentSessionId) userId
                          username (Text.trim m)
                          (clock S (List.length (w1 ++ [EvClock])%list))])%list,
                       table2, ((w1 ++ [EvClock]) ++ [EvClock])%list)
                  | (Throw _, table2, w1) =>
                      (((EmitThinking true :: joined) ++
                       [EmitThinking false; EmitFailure sessionId])%list, table2, w1)
                  end
              end in
            (forall a, In a (default [] (option_map snd created)) ->
                       exists room, a = JoinRoom room) ->
            table2 = table1 /\
            responses_of actions = reply_data reply /\
            w2 = (w1 ++ replicate (2 * List.length (reply_data reply)) EvClock)%list)
    as Hcore.
  { intros [[[sid t1] joined]|]; simpl; [| intros _; by rewrite app_nil_r].
    destruct (runTurn B S env userId sid (Text.trim m) _ t1 w) as [[[r|e] t2] w1].
    - intros Hj. split; [done |]. split; [| by rewrite <- app_assoc].
      unfold responses_of. simpl. rewrite omap_app. simpl.
      assert (omap (fun a => match a with EmitResponse data _ => Some data | _ => None end)
                joined = []) as ->; [| done].
      clear -Hj. induction joined as [|a joined IH]; [done |].
      destruct (Hj a (or_introl eq_refl)) as [room ->]. simpl.
      apply IH. intros a' Ha'. apply Hj. by right.
    - intros Hj. split; [done |]. split; [| by rewrite app_nil_r].
      unfold responses_of. simpl. rewrite omap_app. simpl. rewrite app_nil_r.
      clear -Hj. induction joined as [|a joined IH]; [done |].
      destruct (Hj a (or_introl eq_refl)) as [room ->]. simpl.
      apply IH. intros a' Ha'. apply Hj. by right. }
  destruct sessionId as [sid|]; [destruct (String.eqb sid "") |].
  - specialize (Hcore
      match ChatDb.createChatSession env userId ("Chat Session " +:+ locale_date env)
              "router" (JArr []) (JObj ∅) (JArr []) table with
      | (Some row, table') => Some (cs_id row, table', [JoinRoom ("session:" +:+ cs_id row)])
      | (None, _) => None
      end).
    destruct (ChatDb.createChatSession env userId _ _ _ _ _ table) as [[row|] t1];
      simpl in Hcore |- *.
    + destruct (runTurn B S env userId (cs_id row) (Text.trim m) _ t1 w) as [[[r|e] t2] w1];
        apply Hcore; intros a [<- | []]; by eexists.
    + by apply Hcore.
  - specialize (Hcore (Some (sid, table, []))). simpl in Hcore.
    destruct (runTurn B S env userId sid (Text.trim m) _ table w) as [[[r|e] t2] w1];
      by apply Hcore.
  - specialize (Hcore
      match ChatDb.createChatSession env userId ("Chat Session " +:+ locale_date env)
              "router" (JArr []) (JObj ∅) (JArr []) table with
      | (Some row, table') => Some (cs_id row, table', [JoinRoom ("session:" +:+ cs_id row)])
      | (None, _) => None
      end).
    destruct (ChatDb.createChatSession env userId _ _ _ _ _ table) as [[row|] t1];
      simpl in Hcore |- *.
    + destruct (runTurn B S env userId (cs_id row) (Text.trim m) _ t1 w) as [[[r|e] t2] w1];
        apply Hcore; intros a [<- | []]; by eexists.
    + by apply Hcore.
Qed.

(** X15.  The socket handler of [chat:message] and the message route do
    the same work: started on the same request, table and trace, they
    leave the same table; the handler emits a chat response exactly when
    the route replies with success, and with the same data; and the
    handler's trace is the route's, followed by the two clock reads that
    stamp its response and its room message. *)
Theorem socket_handler_matches_route userId username message sessionId table w :
  let '(reply, table1, w1) := postMessage B S env userId message sessionId table w in
  let '(actions, table2, w2) :=
    onChatMessage B S env userId username message sessionId table w in
  table2 = table1 /\
  responses_of actions = reply_data reply /\
  w2 = (w1 ++ replicate (2 * List.length (reply_data reply)) EvClock)%list.
Proof. apply onChatMessage_postMessage. Qed.

End SocketFacts.

(** ** Generated quizzes *)

Lemma append_cons (c : ascii) (a b : string) : String c a +:+ b = String c (a +:+ b).
Proof. reflexivity. Qed.

(** A separator that occurs in neither prefix splits a string one way. *)
Lemma split_at_separator (sep : ascii) (p1 p2 r1 r2 : string) :
  ~ In sep (list_ascii_of_string p1) ->
  ~ In sep (list_ascii_of_string p2) ->
  p1 +:+ String sep r1 = p2 +:+ String sep r2 ->
  p1 = p2 /\ r1 = r2.
Proof.
  revert p2. induction p1 as [|c p1 IH]; intros [|d p2] H1 H2 He.
  - by injection He as ->.
  - rewrite append_cons in He. injection He as <- _. exfalso. apply H2. by left.
  - rewrite append_cons in He. injection He as -> _. exfalso. apply H1. by left.
  - rewrite !append_cons in He. injection He as -> He.
    destruct (IH p2) as [-> ->]; [| | exact He | done].
    + intros Hin. apply H1. by right.
    + intros Hin. apply H2. by right.
Qed.

Lemma uint_digits (d : Decimal.uint) (c : ascii) :
  In c (list_ascii_of_string (NilEmpty.string_of_uint d)) -> Re.is_digit c = true.
Proof.
  induction d; simpl; [tauto | ..];
    (intros [<- | H]; [reflexivity | by apply IHd]).
Qed.

(** The decimal form of an integer holds digits and at most a sign. *)
Lemma show_Z_chars (z : Z) (c : ascii) :
  In c (list_ascii_of_string (show_Z z)) -> c = "-"%char \/ Re.is_digit c = true.
Proof.
  unfold show_Z, NilZero.string_of_int, NilZero.string_of_uint.
  assert (forall d,
            In c (list_ascii_of_string
                    match d with
                    | Decimal.Nil => "0"
                    | _ => NilEmpty.string_of_uint d
                    end) -> Re.is_digit c = true) as Hu.
  { intros d. destruct d eqn:Hd; rewrite <- ?Hd; try apply uint_digits.
    simpl. intros [<- | []]. reflexivity. }
  destruct (Z.to_int z) as [d|d].
  - intros H. right. by apply (Hu d).
  - simpl. intros [<- | H]; [by left | right; by apply (Hu d)].
Qed.

Lemma show_Z_digits (z : Z) : ~ In "_"%char (list_ascii_of_string (show_Z z)).
Proof. intros H. by apply show_Z_chars in H as [H | H]. Qed.

(** No decimal form is a word. *)
Lemma show_Z_not_word (z : Z) (c : ascii) (rest : string) :
  c <> "-"%char -> Re.is_digit c = false -> show_Z z <> String c rest.
Proof.
  intros H1 H2 E.
  destruct (show_Z_chars z c) as [H | H]; [rewrite E; by left | done | congruence].
Qed.

Lemma show_Z_inj (a b : Z) : show_Z a = show_Z b -> a = b.
Proof.
  unfold show_Z. intros H. apply DecimalZ.to_int_inj.
  assert (forall z, Z.to_int z <> Decimal.Pos Decimal.Nil
                    /\ Z.to_int z <> Decimal.Neg Decimal.Nil) as Hn.
  { intros z. pose proof (DecimalZ.to_of (Z.to_int z)) as Hz. rewrite DecimalZ.of_to in Hz.
    split; intros E; rewrite E in Hz; discriminate. }
  assert (Some (Z.to_int a) = Some (Z.to_int b)) as [= ->]; [| done].
  rewrite <- (NilZero.isi (Z.to_int a)) by apply Hn.
  rewrite <- (NilZero.isi (Z.to_int b)) by apply Hn.
  by rewrite H.
Qed.

Section GeneratedQuiz.

Context (B : Builtins) (S : Services).

(** The question id written for index [idx] at a point of the trace. *)
Lemma question_id_inj (s1 s2 : Z) (i j : nat) :
  show_Z s1 +:+ "_" +:+ show_Z (Z.of_nat i) = show_Z s2 +:+ "_" +:+ show_Z (Z.of_nat j) ->
  i = j.
Proof.
  intros H.
  apply split_at_separator in H as [_ H]; try apply show_Z_digits.
  apply show_Z_inj in H. lia.
Qed.

Lemma text_or_blank_string (v : JSValue) :
  text_or_blank v = true -> is_string (JS.or_else v (JStr "")) = true.
Proof.
  unfold JS.or_else, text_or_blank.
  destruct v; try done; by destruct (JS.truthy _).
Qed.

Lemma optionsArr_strings (options : JSValue) :
  match options with
  | JObj m => forallb (fun key => text_or_blank (JS.field m key)) ["a"; "b"; "c"; "d"]
  | JArr l => forallb is_string l
  | _ => true
  end = true ->
  forallb is_string (optionsArr options) = true.
Proof.
  destruct options; try done. simpl.
  rewrite !andb_true_iff. intros (Ha & Hb & Hc & Hd & _).
  by rewrite !text_or_blank_string.
Qed.

(** One run of the mapping callback on an element that is not [null]. *)
Lemma mapQuestion_runs topic quizDifficulty idx q w :
  JS.nullish q = false ->
  exists m,
    mapQuestion S topic quizDifficulty idx q w = (Ok (JObj m), (w ++ [EvClock])%list) /\
    JS.field m "id"
      = JStr (show_Z (epoch_ms S (List.length w)) +:+ "_" +:+ show_Z (Z.of_nat idx)) /\
    JS.field m "difficulty" = JStr quizDifficulty /\
    JS.field m "concepts" = JArr [JStr topic] /\
    JS.field m "correct_answer" = JS.or_else (JS.opt_get q "answer") (JStr "") /\
    (raw_question_ok q = true -> is_QuizQuestion (JObj m) = true).
Proof.
  intros Hq. unfold mapQuestion, member, date_now, bind, ret. rewrite Hq.
  eexists. split; [reflexivity |].
  split; [reflexivity |]. split; [reflexivity |]. split; [reflexivity |].
  split; [reflexivity |].
  unfold raw_question_ok. rewrite Hq. cbn [negb andb].
  rewrite !andb_true_iff. intros ((((H1 & H2) & H3) & H4) & H5).
  unfold is_QuizQuestion.
  apply text_or_blank_string in H1, H2, H3, H4. apply optionsArr_strings in H5.
  change (is_string (JStr (show_Z (epoch_ms S (List.length w)) +:+ "_" +:+ show_Z (Z.of_nat idx)))
          && true
          && is_string (JS.or_else (JS.opt_get q "question") (JStr ""))
          && optional is_string_array (JArr (optionsArr (JS.opt_get q "options")))
          && optional is_string (JS.or_else (JS.opt_get q "code_snippet") (JStr ""))
          && is_string (JS.or_else (JS.opt_get q "answer") (JStr ""))
          && is_string (JS.or_else (JS.opt_get q "explanation") (JStr ""))
          && is_string (JStr quizDifficulty)
          && is_string_array (JArr [JStr topic]) = true).
  rewrite H1, H3, H4. cbn [is_string andb optional is_string_array forallb].
  rewrite H5. cbn [andb].
  destruct (JS.or_else (JS.opt_get q "code_snippet") (JStr "")); done.
Qed.

(** The whole mapping over an array without [null] elements. *)
Lemma mapQuestions_runs topic quizDifficulty qs : forall idx w,
  Forall (fun q => JS.nullish q = false) qs ->
  exists out,
    mapQuestions S topic quizDifficulty idx qs w
      = (Ok out, (w ++ replicate (List.length qs) EvClock)%list) /\
    List.length out = List.length qs /\
    forall i q, qs !! i = Some q ->
      exists m,
        out !! i = Some (JObj m) /\
        JS.field m "id"
          = JStr (show_Z (epoch_ms S (List.length w + i)) +:+ "_"
                  +:+ show_Z (Z.of_nat (idx + i))) /\
        JS.field m "difficulty" = JStr quizDifficulty /\
        JS.field m "concepts" = JArr [JStr topic] /\
        JS.field m "correct_answer" = JS.or_else (JS.opt_get q "answer") (JStr "") /\
        (raw_question_ok q = true -> is_QuizQuestion (JObj m) = true).
Proof.
  induction qs as [|q qs IH]; intros idx w Hall.
  - exists []. simpl. unfold ret. rewrite app_nil_r. by repeat split.
  - apply Forall_cons in Hall as [Hq Hall].
    destruct (mapQuestion_runs topic quizDifficulty idx q w Hq)
      as (m & Hrun & Hfields).
    destruct (IH (Datatypes.S idx) (w ++ [EvClock])%list Hall)
      as (out & Hrest & Hlen & Hout).
    exists (JObj m :: out). split; [| split].
    + cbn [mapQuestions]. rewrite (bind_run _ _ _ _ _ Hrun).
      rewrite (bind_run _ _ _ _ _ Hrest). unfold ret.
      by rewrite <- app_assoc.
    + simpl. by rewrite Hlen.
    + intros [|i] q' Hi.
      * injection Hi as <-. exists m. rewrite !Nat.add_0_r. by split.
      * destruct (Hout i q' Hi) as (m' & Ho & Hf). exists m'.
        rewrite length_app in Hf. simpl in Hf.
        replace (List.length w + Datatypes.S i)%nat with (List.length w + 1 + i)%nat by lia.
        replace (idx + Datatypes.S i)%nat with (Datatypes.S idx + i)%nat by lia.
        by split.
Qed.

Lemma null_or_not (qs : list JSValue) :
  Forall (fun q => JS.nullish q = false) qs \/ Exists (fun q => JS.nullish q = true) qs.
Proof.
  induction qs as [|q qs [IH | IH]]; [by left | |].
  - destruct (JS.nullish q) eqn:Hq; [right; by left | left; by constructor].
  - right. by right.
Qed.

(** A [null] element makes the mapping throw. *)
Lemma mapQuestions_throws topic quizDifficulty qs : forall idx w,
  Exists (fun q => JS.nullish q = true) qs ->
  exists e w', mapQuestions S topic quizDifficulty idx qs w = (Throw e, w').
Proof.
  induction qs as [|q qs IH]; intros idx w Hex; [by apply Exists_nil in Hex |].
  cbn [mapQuestions].
  destruct (JS.nullish q) eqn:Hq.
  - unfold bind at 1. unfold mapQuestion, member. rewrite Hq.
    unfold bind, throw. eauto.
  - apply Exists_cons in Hex as [Hex | Hex]; [congruence |].
    destruct (mapQuestion_runs topic quizDifficulty idx q w Hq) as (m & Hrun & _).
    rewrite (bind_run _ _ _ _ _ Hrun).
    destruct (IH (Datatypes.S idx) (w ++ [EvClock])%list Hex) as (e & w' & Hrest).
    unfold bind. rewrite Hrest. eauto.
Qed.

(** The generator on a reply that holds an array without [null] elements. *)
Lemma generateQuiz_maps topic total_questions userId difficulty w
    quizDifficulty prompt w1 reply text qs :
  quizPrelude B S topic total_questions userId difficulty w
    = (Ok (quizDifficulty, prompt), w1) ->
  openai_create S prompt = Content reply ->
  Text.find_array (Text.trim (Text.strip_fences reply)) = Some text ->
  JSON_parse B text = Some (JArr qs) ->
  Forall (fun q => JS.nullish q = false) qs ->
  exists out,
    generateQuizQuestions B S topic total_questions userId difficulty w
      = (Ok out, (w1 ++ EvCompletion prompt 1200 :: replicate (List.length qs) EvClock)%list) /\
    List.length out = List.length qs /\
    (forall i q, qs !! i = Some q ->
       exists m,
         out !! i = Some (JObj m) /\
         JS.field m "difficulty" = JStr quizDifficulty /\
         JS.field m "concepts" = JArr [JStr topic] /\
         JS.field m "correct_answer" = JS.or_else (JS.opt_get q "answer") (JStr "") /\
         (raw_question_ok q = true -> is_QuizQuestion (JObj m) = true)) /\
    (forall i j mi mj,
       out !! i = Some (JObj mi) -> out !! j = Some (JObj mj) ->
       JS.field mi "id" = JS.field mj "id" -> i = j).
Proof.
  intros Hpre Hreply Hfind Hparse Hall.
  destruct (mapQuestions_runs topic quizDifficulty qs 0%nat
              (w1 ++ [EvCompletion prompt 1200])%list Hall)
    as (out & Hrun & Hlen & Hout).
  exists out. split; [| split; [exact Hlen | split]].
  - unfold generateQuizQuestions. rewrite (bind_run _ _ _ _ _ Hpre). cbn [fst snd].
    unfold try_catch, generateQuiz_try, bind, emit, ret. rewrite Hreply.
    cbv beta iota. rewrite Hfind, Hparse. cbv beta iota. rewrite Hrun.
    by rewrite <- app_assoc.
  - intros i q Hi. destruct (Hout i q Hi) as (m & Ho & _ & Hrest). eauto.
  - intros i j mi mj Hi Hj Hid.
    destruct (lookup_lt_is_Some_2 qs i) as [qi Hqi];
      [rewrite <- Hlen; by eapply lookup_lt_Some |].
    destruct (lookup_lt_is_Some_2 qs j) as [qj Hqj];
      [rewrite <- Hlen; by eapply lookup_lt_Some |].
    destruct (Hout i qi Hqi) as (mi' & Hi' & Hidi & _).
    destruct (Hout j qj Hqj) as (mj' & Hj' & Hidj & _).
    rewrite Hi in Hi'. injection Hi' as <-. rewrite Hj in Hj'. injection Hj' as <-.
    rewrite Hidi, Hidj in Hid. injection Hid as Hid.
    by apply question_id_inj in Hid.
Qed.

(** Every way the generator ends once the prelude has completed. *)
Lemma generateQuiz_outcome topic total_questions userId difficulty w
    quizDifficulty prompt w1 :
  quizPrelude B S topic total_questions userId difficulty w
    = (Ok (quizDifficulty, prompt), w1) ->
  exists out w',
    generateQuizQuestions B S topic total_questions userId difficulty w = (Ok out, w') /\
    (out = [placeholderQuestion ("Failed to generate quiz for topic: " +:+ topic)]
     \/ out = [placeholderQuestion ("No quiz generated for topic: " +:+ topic)]
     \/ exists reply text qs,
          openai_create S prompt = Content reply /\
          Text.find_array (Text.trim (Text.strip_fences reply)) = Some text /\
          JSON_parse B text = Some (JArr qs) /\
          Forall (fun q => JS.nullish q = false) qs /\
          List.length out = List.length qs).
Proof.
  intros Hpre.
  destruct (openai_create S prompt) as [| |reply] eqn:Hreply.
  - eexists _, _. split; [| by left].
    unfold generateQuizQuestions. rewrite (bind_run _ _ _ _ _ Hpre). cbn [fst snd].
    unfold try_catch, generateQuiz_try, bind, emit, ret, throw. by rewrite Hreply.
  - eexists _, _. split; [| by right; left].
    unfold generateQuizQuestions. rewrite (bind_run _ _ _ _ _ Hpre). cbn [fst snd].
    unfold try_catch, generateQuiz_try, bind, emit, ret, throw. by rewrite Hreply.
  - destruct (Text.find_array (Text.trim (Text.strip_fences reply))) as [text|] eqn:Hfind.
    + destruct (JSON_parse B text) as [v|] eqn:Hparse.
      * assert ((exists qs, v = JArr qs /\ Forall (fun q => JS.nullish q = false) qs)
                \/ exists e w',
                     match v with
                     | JArr qs => mapQuestions S topic quizDifficulty 0 qs
                     | _ => throw (TypeError "rawQuestions.map is not a function")
                     end (w1 ++ [EvCompletion prompt 1200])%list = (Throw e, w'))
          as [(qs & -> & Hall) | (e & w' & Hthrow)].
        { destruct v as [| | | | |qs|]; try (right; unfold throw; by eauto).
          destruct (null_or_not qs) as [Hall | Hex]; [left; eauto | right].
          by apply mapQuestions_throws. }
        -- destruct (generateQuiz_maps _ _ _ _ _ _ _ _ _ _ _ Hpre Hreply Hfind Hparse Hall)
             as (out & Hrun & Hlen & _).
           eexists _, _. split; [exact Hrun |]. right; right. by exists reply, text, qs.
        -- eexists _, _. split; [| by left].
           unfold generateQuizQuestions. rewrite (bind_run _ _ _ _ _ Hpre). cbn [fst snd].
           unfold try_catch, generateQuiz_try, bind, emit, ret. rewrite Hreply.
           cbv beta iota. rewrite Hfind, Hparse. cbv beta iota. rewrite Hthrow.
           reflexivity.
      * eexists _, _. split; [| by left].
        unfold generateQuizQuestions. rewrite (bind_run _ _ _ _ _ Hpre). cbn [fst snd].
        unfold try_catch, generateQuiz_try, bind, emit, ret, throw. rewrite Hreply.
        cbv beta iota. by rewrite Hfind, Hparse.
    + eexists _, _. split; [| by right; left].
      unfold generateQuizQuestions. rewrite (bind_run _ _ _ _ _ Hpre). cbn [fst snd].
      unfold try_catch, generateQuiz_try, bind, emit, ret, throw. rewrite Hreply.
      cbv beta iota. by rewrite Hfind.
Qed.

(** X16.  When the completion holds a bracketed text that parses to an
    array without [null] elements, the generator returns one question per
    element, in order, after one completion request with 1200 tokens and
    one clock read per element.  Each question carries the difficulty in
    effect, the topic as its only concept and the element's [answer] as
    its correct answer; it is a full [QuizQuestion] whenever the element's
    texts are strings or falsy and its options are a labelled object of
    such texts, an array of strings, or no object.  No two questions of
    the list share an id. *)
Theorem generated_quiz_is_well_formed topic total_questions userId difficulty w
    quizDifficulty prompt w1 reply text qs :
  quizPrelude B S topic total_questions userId difficulty w
    = (Ok (quizDifficulty, prompt), w1) ->
  openai_create S prompt = Content reply ->
  Text.find_array (Text.trim (Text.strip_fences reply)) = Some text ->
  JSON_parse B text = Some (JArr qs) ->
  Forall (fun q => JS.nullish q = false) qs ->
  exists out,
    generateQuizQuestions B S topic total_questions userId difficulty w
      = (Ok out, (w1 ++ EvCompletion prompt 1200 :: replicate (List.length qs) EvClock)%list) /\
    List.length out = List.length qs /\
    (forall i q, qs !! i = Some q ->
       exists m,
         out !! i = Some (JObj m) /\
         JS.field m "difficulty" = JStr quizDifficulty /\
         JS.field m "concepts" = JArr [JStr topic] /\
         JS.field m "correct_answer" = JS.or_else (JS.opt_get q "answer") (JStr "") /\
         (raw_question_ok q = true -> is_QuizQuestion (JObj m) = true)) /\
    (forall i j mi mj,
       out !! i = Some (JObj mi) -> out !! j = Some (JObj mj) ->
       JS.field mi "id" = JS.field mj "id" -> i = j).
Proof. apply generateQuiz_maps. Qed.

(** X17.  Once the statements before its [try] have completed, the
    generator always returns a list and never throws.  The list is the
    one-element placeholder "Failed to generate quiz for topic: T", the
    one-element placeholder "No quiz generated for topic: T", or it has
    one question per element of the array parsed from the completion, and
    that array has no [null] element. *)
Theorem generator_ends_in_three_ways topic total_questions userId difficulty w
    quizDifficulty prompt w1 :
  quizPrelude B S topic total_questions userId difficulty w
    = (Ok (quizDifficulty, prompt), w1) ->
  exists out w',
    generateQuizQuestions B S topic total_questions userId difficulty w = (Ok out, w') /\
    (out = [placeholderQuestion ("Failed to generate quiz for topic: " +:+ topic)]
     \/ out = [placeholderQuestion ("No quiz generated for topic: " +:+ topic)]
     \/ exists reply text qs,
          openai_create S prompt = Content reply /\
          Text.find_array (Text.trim (Text.strip_fences reply)) = Some text /\
          JSON_parse B text = Some (JArr qs) /\
          Forall (fun q => JS.nullish q = false) qs /\
          List.length out = List.length qs).
Proof. apply generateQuiz_outcome. Qed.

End GeneratedQuiz.

Lemma generated_quiz_is_well_formed_witness :
  exists out,
    fst (generateQuizQuestions (scripted_builtins demo_parsed)
           (scripted_services "```json [two questions] ```")
           "arithmetic" (JNum 2) "u1" JUndefined []) = Ok out /\
    List.length out = 2%nat.
Proof.
  edestruct (generated_quiz_is_well_formed (scripted_builtins demo_parsed)
               (scripted_services "```json [two questions] ```")
               "arithmetic" (JNum 2) "u1" JUndefined [])
    as (out & Hrun & Hlen & _);
    [vm_compute; reflexivity | reflexivity | vm_compute; reflexivity
    | reflexivity | by repeat constructor |].
  exists out. split; [by rewrite Hrun | exact Hlen].
Defined.

Lemma generator_ends_in_three_ways_witness :
  exists out,
    fst (generateQuizQuestions ascii_builtins offline_services
           "JavaScript" (JNum 5) "u1" JUndefined []) = Ok out.
Proof.
  edestruct (generator_ends_in_three_ways ascii_builtins offline_services
               "JavaScript" (JNum 5) "u1" JUndefined [])
    as (out & w' & Hrun & _); [vm_compute; reflexivity |].
  exists out. by rewrite Hrun.
Defined.

(** ** The bracketed text of a completion *)

Lemma chars_app (a b : string) :
  list_ascii_of_string (a +:+ b) = (list_ascii_of_string a ++ list_ascii_of_string b)%list.
Proof. induction a as [|c a IH]; [done |]. rewrite append_cons. simpl. by rewrite IH. Qed.

Lemma string_of_chars_app (l1 l2 : list ascii) :
  string_of_list_ascii (l1 ++ l2) = string_of_list_ascii l1 +:+ string_of_list_ascii l2.
Proof. induction l1 as [|c l1 IH]; [done |]. simpl. rewrite append_cons. by rewrite IH. Qed.

Lemma rev_string_app (a b : string) :
  Text.rev_string (a +:+ b) = Text.rev_string b +:+ Text.rev_string a.
Proof.
  unfold Text.rev_string. by rewrite chars_app, rev_app_distr, string_of_chars_app.
Qed.

Lemma rev_string_involutive (s : string) : Text.rev_string (Text.rev_string s) = s.
Proof.
  unfold Text.rev_string.
  by rewrite list_ascii_of_string_of_list_ascii, rev_involutive,
    string_of_list_ascii_of_string.
Qed.

(** [drop_while] cuts a string in two: a prefix that satisfies the test
    throughout, and a rest that is empty or starts with a character that
    fails it. *)
Lemma drop_while_split (p : ascii -> bool) (s : string) :
  exists pre,
    s = pre +:+ Re.drop_while p s /\
    forallb p (list_ascii_of_string pre) = true /\
    forall c rest, Re.drop_while p s = String c rest -> p c = false.
Proof.
  induction s as [|c s (pre & Hs & Hpre & Hrest)].
  - exists "". by repeat split.
  - simpl. destruct (p c) eqn:Hc.
    + exists (String c pre). rewrite append_cons. split; [by rewrite <- Hs |].
      split; [simpl; by rewrite Hc | exact Hrest].
    + exists "". split; [done |]. split; [done |]. by intros c' rest [= <- _].
Qed.

Lemma forallb_not_in (c : ascii) (l : list ascii) :
  forallb (fun x => negb (Ascii.eqb x c)) l = true -> ~ In c l.
Proof.
  intros H Hin. rewrite forallb_forall in H. specialize (H c Hin).
  by rewrite Ascii.eqb_refl in H.
Qed.

Lemma upto_last_close_some (s t : string) :
  Text.upto_last_close s = Some t ->
  exists mid post,
    s = t +:+ post /\ t = mid +:+ "]" /\
    ~ In "]"%char (list_ascii_of_string post).
Proof.
  unfold Text.upto_last_close.
  destruct (drop_while_split (fun c => negb (Text.is_close c)) (Text.rev_string s))
    as (pre & Hs & Hpre & Hhead).
  destruct (Re.drop_while _ (Text.rev_string s)) as [|c rest] eqn:Hd.
  - by intros [=].
  - intros Ht.
    assert (t = Text.rev_string (String c rest)) as ->.
    { destruct (Text.rev_string (String c rest)); [done | by injection Ht]. }
    specialize (Hhead c rest eq_refl). apply negb_false_iff in Hhead.
    apply Ascii.eqb_eq in Hhead as ->.
    exists (Text.rev_string rest), (Text.rev_string pre). split; [| split].
    + rewrite <- rev_string_app, <- Hs. by rewrite rev_string_involutive.
    + change (String "]" rest) with ("]" +:+ rest). by rewrite rev_string_app.
    + rewrite rev_string_chars. intros Hin. apply in_rev in Hin.
      by apply (forallb_not_in _ _ Hpre).
Qed.

Lemma upto_last_close_none (s : string) :
  Text.upto_last_close s = None -> ~ In "]"%char (list_ascii_of_string s).
Proof.
  unfold Text.upto_last_close.
  destruct (drop_while_split (fun c => negb (Text.is_close c)) (Text.rev_string s))
    as (pre & Hs & Hpre & _).
  destruct (Re.drop_while _ (Text.rev_string s)) as [|c rest] eqn:Hd.
  - intros _. rewrite append_nil_r in Hs.
    rewrite <- (rev_string_involutive s), Hs, rev_string_chars.
    intros Hin. apply in_rev in Hin. by apply (forallb_not_in _ _ Hpre).
  - intros H. exfalso.
    assert (Text.rev_string (String c rest) <> "") as Hne.
    { intros E. apply (proj1 (rev_string_empty _)) in E. discriminate E. }
    by destruct (Text.rev_string (String c rest)).
Qed.

Lemma find_array_spans (s : string) :
  (forall a, Text.find_array s = Some a ->
     exists pre mid post,
       s = pre +:+ a +:+ post /\ a = "[" +:+ mid +:+ "]" /\
       ~ In "["%char (list_ascii_of_string pre) /\
       ~ In "]"%char (list_ascii_of_string post)) /\
  (Text.find_array s = None ->
     ~ In "["%char (list_ascii_of_string s) \/
     exists pre rest,
       s = pre +:+ "[" +:+ rest /\
       ~ In "["%char (list_ascii_of_string pre) /\
       ~ In "]"%char (list_ascii_of_string rest)).
Proof.
  unfold Text.find_array.
  destruct (drop_while_split (fun c => negb (Text.is_open c)) s)
    as (pre & Hs & Hpre & Hhead).
  apply forallb_not_in in Hpre.
  destruct (Re.drop_while _ s) as [|c rest] eqn:Hd.
  - split; [by intros a [=] |]. intros _. left.
    rewrite append_nil_r in Hs. by rewrite Hs.
  - specialize (Hhead c rest eq_refl). apply negb_false_iff in Hhead.
    apply Ascii.eqb_eq in Hhead as ->.
    destruct (Text.upto_last_close rest) as [t|] eqn:Ht.
    + split; [| by intros [=]]. intros a [= <-].
      apply upto_last_close_some in Ht as (mid & post & Hrest & Hmid & Hpost).
      exists pre, mid, post. split; [| split; [| done]].
      * rewrite Hs, Hrest. by rewrite append_cons.
      * by rewrite Hmid.
    + split; [by intros a [=] |]. intros _. right.
      exists pre, rest. split; [exact Hs |]. split; [done |].
      by apply upto_last_close_none.
Qed.

(** X18.  The bracketed text the generator hands to the parser runs from
    the first opening bracket of the cleaned completion to its last
    closing bracket: no opening bracket comes before it and no closing
    bracket after it.  When there is none, the completion has no opening
    bracket, or no closing bracket after the first opening one. *)
Theorem bracketed_text_spans_first_to_last (s : string) :
  match Text.find_array s with
  | Some a =>
      exists pre mid post,
        s = pre +:+ a +:+ post /\ a = "[" +:+ mid +:+ "]" /\
        ~ In "["%char (list_ascii_of_string pre) /\
        ~ In "]"%char (list_ascii_of_string post)
  | None =>
      ~ In "["%char (list_ascii_of_string s) \/
      exists pre rest,
        s = pre +:+ "[" +:+ rest /\
        ~ In "["%char (list_ascii_of_string pre) /\
        ~ In "]"%char (list_ascii_of_string rest)
  end.
Proof.
  destruct (find_array_spans s) as [Hsome Hnone].
  destruct (Text.find_array s) as [a|]; [by apply Hsome | by apply Hnone].
Qed.

(** ** Quiz routes *)

Lemma owned_session_id userId sessionId table session :
  owned_session userId sessionId table = Some session ->
  qs_id session = sessionId /\ qs_user_id session = userId /\ In session table.
Proof.
  unfold owned_session, Db.getUserQuizSessions. intros H.
  apply find_some in H as [Hin Hid]. apply filter_In in Hin as [Hin Hu].
  apply String.eqb_eq in Hid, Hu. done.
Qed.

Lemma owned_session_none userId sessionId table :
  owned_session userId sessionId table = None <->
  forall s, In s table -> qs_id s = sessionId -> qs_user_id s <> userId.
Proof.
  unfold owned_session, Db.getUserQuizSessions. split.
  - intros H s Hin Hid Hu.
    assert (String.eqb (qs_id s) sessionId = false) as Hf.
    { apply (find_none _ _ H s). apply filter_In. split; [done |].
      by apply String.eqb_eq. }
    apply String.eqb_neq in Hf. done.
  - intros H.
    destruct (List.find _ _) as [s|] eqn:Hf; [| done].
    apply find_some in Hf as [Hin Hid]. apply filter_In in Hin as [Hin Hu].
    apply String.eqb_eq in Hid, Hu. by destruct (H s Hin Hid).
Qed.

(** A user who owns no session with the addressed id. *)
Lemma quiz_routes_guarded del userId sessionId A stamp table :
  userId <> "" ->
  (forall s, In s table -> qs_id s = sessionId -> qs_user_id s <> userId) ->
  submitAnswers (Some userId) sessionId A stamp table = (NotFound, table) /\
  getSession (Some userId) sessionId table = SessionNotFound /\
  deleteSession del (Some userId) sessionId table = (DeleteNotFound, table).
Proof.
  intros Hu Hno. apply owned_session_none in Hno. unfold owned_session in Hno.
  apply String.eqb_neq in Hu.
  unfold submitAnswers, getSession, deleteSession. by rewrite Hu, Hno.
Qed.

Lemma filter_split_length {A : Type} (p : A -> bool) (l : list A) :
  (List.length (List.filter p l)
   + List.length (List.filter (fun x => negb (p x)) l))%nat = List.length l.
Proof.
  induction l as [|x l IH]; simpl; [done |].
  destruct (p x); simpl; lia.
Qed.

(** Every answer is counted once: right, or explained. *)
Lemma submit_accounts userId sessionId A stamp table session :
  userId <> "" ->
  owned_session userId sessionId table = Some session ->
  exists score wrong,
    fst (submitAnswers (Some userId) sessionId A stamp table)
      = Graded score (Z.of_nat (List.length (qs_questions session))) wrong /\
    0 <= score <= Z.of_nat (List.length A) /\
    score + Z.of_nat (List.length wrong) = Z.of_nat (List.length A).
Proof.
  intros Hu Ho. rewrite (submitAnswers_found _ _ _ _ _ _ Hu Ho). cbn [fst].
  eexists _, _. split; [reflexivity |].
  pose proof (filter_split_length (answered_correctly (qs_questions session)) A).
  rewrite length_map. lia.
Qed.

Lemma apply_updates_twice u1 u2 s :
  up_answers u2 <> None -> up_score u2 <> None ->
  up_completed u2 <> None -> up_completed_at u2 <> None ->
  up_user_id u1 = None -> up_questions u1 = None ->
  up_total_questions u1 = None -> up_time_taken u1 = None ->
  apply_updates u2 (apply_updates u1 s) = apply_updates u2 s.
Proof.
  destruct u1 as [a1 b1 c1 d1 e1 f1 g1 h1], u2 as [a2 b2 c2 d2 e2 f2 g2 h2]; simpl.
  intros ? ? ? ? -> -> -> ->. unfold apply_updates; simpl.
  destruct c2, d2, f2, h2; done.
Qed.

(** Only the last submission counts. *)
Lemma submit_again req_user sessionId A1 stamp1 A2 stamp2 table :
  submitAnswers req_user sessionId A2 stamp2
    (snd (submitAnswers req_user sessionId A1 stamp1 table))
  = submitAnswers req_user sessionId A2 stamp2 table.
Proof.
  destruct req_user as [userId|]; [| done].
  destruct (String.eqb_spec userId "") as [-> | Hu]; [done |].
  destruct (owned_session userId sessionId table) as [session|] eqn:Ho.
  - destruct (owned_session_id _ _ _ _ Ho) as (Hid & _ & _).
    rewrite (submitAnswers_found _ _ A1 stamp1 _ _ Hu Ho). cbn [snd].
    rewrite (submitAnswers_found _ _ A2 stamp2 table _ Hu Ho).
    erewrite (submitAnswers_found _ _ A2 stamp2 _ _ Hu).
    2:{ rewrite owned_session_updated by done. rewrite Ho. simpl.
        apply String.eqb_eq in Hid. rewrite Hid. reflexivity. }
    cbn [apply_updates qs_questions up_questions default from_option id].
    f_equal. unfold Db.updateQuizSession. rewrite List.map_map.
    apply List.map_ext. intros s.
    destruct (String.eqb (qs_id s) sessionId) eqn:Hs; [| by rewrite Hs].
    change (qs_id (apply_updates ?u s)) with (qs_id s). rewrite Hs.
    by apply apply_updates_twice.
  - assert (submitAnswers (Some userId) sessionId A1 stamp1 table = (NotFound, table)) as ->.
    { unfold submitAnswers, owned_session in *. apply String.eqb_neq in Hu.
      by rewrite Hu, Ho. }
    reflexivity.
Qed.

(** Grading reads an answer at three fields only. *)
Lemma detailAnswers_fields Q stamp A A' score :
  Forall2 same_answer A A' ->
  detailAnswers Q stamp A score = detailAnswers Q stamp A' score.
Proof.
  intros H. revert score. induction H as [|a a' A A' (H1 & H2 & H3) _ IH]; intros score.
  - reflexivity.
  - cbn [detailAnswers].
    assert (is_correct Q a = is_correct Q a') as ->.
    { unfold is_correct. by rewrite H1, H2. }
    rewrite IH. unfold detailedAnswer. by rewrite H1, H2, H3.
Qed.

Lemma submit_reads_three_fields req_user sessionId A A' stamp table :
  Forall2 same_answer A A' ->
  submitAnswers req_user sessionId A stamp table
  = submitAnswers req_user sessionId A' stamp table.
Proof.
  intros H. unfold submitAnswers.
  destruct req_user as [userId|]; [| done].
  destruct (String.eqb userId ""); [done |].
  destruct (List.find _ _) as [session|]; [| done].
  by rewrite (detailAnswers_fields _ _ _ _ _ H).
Qed.

(** What the store shows after a submission. *)
Lemma submit_then_get userId sessionId A stamp table session :
  userId <> "" ->
  owned_session userId sessionId table = Some session ->
  exists score wrong stored,
    fst (submitAnswers (Some userId) sessionId A stamp table)
      = Graded score (Z.of_nat (List.length (qs_questions session))) wrong /\
    getSession (Some userId) sessionId
      (snd (submitAnswers (Some userId) sessionId A stamp table))
      = SessionFound stored /\
    qs_score stored = score /\
    qs_completed stored = true /\
    qs_completed_at stored = Some stamp /\
    qs_questions stored = qs_questions session /\
    qs_user_id stored = userId /\
    List.map (fun a => JS.field a "question_id") (qs_answers stored)
      = List.map (fun a => JS.field a "question_id") A /\
    List.map (fun a => JS.field a "user_answer") (qs_answers stored)
      = List.map (fun a => JS.field a "user_answer") A /\
    score = Z.of_nat (List.length
              (List.filter (fun a => JS.truthy (JS.field a "is_correct"))
                           (qs_answers stored))).
Proof.
  intros Hu Ho. destruct (owned_session_id _ _ _ _ Ho) as (Hid & Hown & _).
  rewrite (submitAnswers_found _ _ _ _ _ _ Hu Ho). cbn [fst snd].
  eexists _, _, _. split; [reflexivity |]. split.
  - unfold getSession. apply String.eqb_neq in Hu. rewrite Hu.
    fold (owned_session userId sessionId
            (Db.updateQuizSession sessionId
               {| up_user_id := None; up_questions := None;
                  up_answers :=
                    Some (List.map (fun a => detailedAnswer a
                                     (is_correct (qs_questions session) a) stamp) A);
                  up_score :=
                    Some (Z.of_nat (List.length
                            (List.filter (answered_correctly (qs_questions session)) A)));
                  up_total_questions := None; up_completed := Some true;
                  up_time_taken := None; up_completed_at := Some stamp |} table)).
    rewrite owned_session_updated by done. rewrite Ho. simpl.
    apply String.eqb_eq in Hid. rewrite Hid. reflexivity.
  - cbn [apply_updates qs_score qs_completed qs_completed_at qs_questions
         qs_user_id qs_answers default from_option id
         up_user_id up_questions up_answers up_score up_completed up_completed_at].
    repeat split; try done.
    + rewrite List.map_map. by apply List.map_ext.
    + rewrite List.map_map. by apply List.map_ext.
    + f_equal. clear. induction A as [|a A IH]; simpl; [done |].
      change (JS.field (detailedAnswer a (is_correct (qs_questions session) a) stamp)
                "is_correct") with (is_correct (qs_questions session) a).
      rewrite is_correct_truthy.
      destruct (answered_correctly (qs_questions session) a); simpl; by rewrite IH.
Qed.

(** ** The answer sheet of the front end, graded by the back end *)

Lemma findQuestion_own (Q : list (gmap string JSValue)) (q : gmap string JSValue) :
  NoDup (question_ids Q) ->
  In q Q ->
  (exists s, JS.field q "id" = JStr s) ->
  findQuestion Q (JS.field q "id") = Some q.
Proof.
  intros Hnd Hin [s Hs]. unfold findQuestion. rewrite Hs.
  induction Q as [|x Q IH]; [done |].
  simpl in Hnd. apply NoDup_cons in Hnd as [Hx Hnd]. simpl.
  destruct Hin as [-> | Hin].
  - rewrite Hs. simpl. by rewrite String.eqb_refl.
  - destruct (JS.strict_eq (JS.field x "id") (JStr s)) eqn:He; [| by apply IH].
    exfalso. apply Hx. unfold question_ids.
    assert (JS.field x "id" = JStr s) as ->.
    { destruct (JS.field x "id"); try done. simpl in He.
      by apply String.eqb_eq in He as ->. }
    apply list_elem_of_In. rewrite <- Hs.
    exact (in_map (fun q0 => JS.field q0 "id") Q q Hin).
Qed.

Lemma filter_map_length {A B : Type} (p : B -> bool) (q : A -> bool) (f : A -> B)
    (l : list A) :
  (forall x, In x l -> p (f x) = q x) ->
  List.length (List.filter p (List.map f l)) = List.length (List.filter q l).
Proof.
  induction l as [|x l IH]; intros H; simpl; [done |].
  rewrite (H x) by (by left). destruct (q x); simpl; rewrite IH; auto.
  all: intros y Hy; apply H; by right.
Qed.

Lemma answer_sheet_right quiz chosen :
  NoDup (question_ids (qs_questions quiz)) ->
  Forall (fun q => exists s, JS.field q "id" = JStr s) (qs_questions quiz) ->
  List.length (List.filter (answered_correctly (qs_questions quiz))
                 (upgradeAnswers quiz chosen))
  = List.length (List.filter (chosen_right chosen) (qs_questions quiz)).
Proof.
  intros Hnd Hids. unfold upgradeAnswers.
  apply filter_map_length. intros q Hin.
  unfold answered_correctly.
  change (JS.field (list_to_map _) "question_id") with (JS.field q "id").
  rewrite findQuestion_own; [done | done | done |].
  rewrite Forall_forall in Hids. apply Hids. by apply list_elem_of_In.
Qed.

(** The sheet built from the stored questions gets one point per question
    answered with the stored answer. *)
Lemma answer_sheet_graded userId sessionId stamp table session quiz chosen :
  userId <> "" ->
  owned_session userId sessionId table = Some session ->
  qs_questions quiz = qs_questions session ->
  NoDup (question_ids (qs_questions session)) ->
  Forall (fun q => exists s, JS.field q "id" = JStr s) (qs_questions session) ->
  exists wrong,
    fst (submitAnswers (Some userId) sessionId (quizAnswerSheet quiz chosen) stamp table)
      = Graded (Z.of_nat (List.length
                  (List.filter (chosen_right chosen) (qs_questions session))))
               (Z.of_nat (List.length (qs_questions session))) wrong /\
    (List.length wrong
     + List.length (List.filter (chosen_right chosen) (qs_questions session)))%nat
      = List.length (qs_questions session).
Proof.
  intros Hu Ho Hq Hnd Hids. unfold quizAnswerSheet.
  rewrite (submitAnswers_found _ _ _ _ _ _ Hu Ho). cbn [fst].
  rewrite <- Hq in *. rewrite answer_sheet_right by done.
  eexists. split; [reflexivity |]. rewrite length_map.
  pose proof (filter_split_length (answered_correctly (qs_questions quiz))
                (upgradeAnswers quiz chosen)) as Hsplit.
  rewrite answer_sheet_right in Hsplit by done.
  unfold upgradeAnswers in Hsplit at 2. rewrite length_map in Hsplit. lia.
Qed.

(** X19.  A user who owns no session with the addressed id, whoever else
    owns one, is answered "not found" by the submit route, the read route
    and the delete route alike; the table stays as it was and the store's
    delete is not reached. *)
Theorem foreign_quiz_session_is_not_found del userId sessionId A stamp table :
  userId <> "" ->
  (forall s, In s table -> qs_id s = sessionId -> qs_user_id s <> userId) ->
  submitAnswers (Some userId) sessionId A stamp table = (NotFound, table) /\
  getSession (Some userId) sessionId table = SessionNotFound /\
  deleteSession del (Some userId) sessionId table = (DeleteNotFound, table).
Proof. apply quiz_routes_guarded. Qed.

Lemma foreign_quiz_session_is_not_found_witness :
  submitAnswers (Some "u2") "s1" demo_answers "2024-05-01T10:00:00.000Z" demo_table
    = (NotFound, demo_table) /\
  getSession (Some "u2") "s1" demo_table = SessionNotFound /\
  deleteSession (fun _ _ => (true, [])) (Some "u2") "s1" demo_table
    = (DeleteNotFound, demo_table).
Proof.
  apply (foreign_quiz_session_is_not_found (fun _ _ => (true, [])) "u2" "s1");
    [discriminate |].
  intros s [<- | []] _. discriminate.
Defined.

(** X20.  In a graded submission every answer is counted exactly once, as
    right or as explained: the score lies between 0 and the number of
    submitted answers, and score plus the number of wrong explanations is
    the number of submitted answers.  The reported total is the number of
    stored questions, whatever the number of answers. *)
Theorem submission_accounts_for_every_answer userId sessionId A stamp table session :
  userId <> "" ->
  owned_session userId sessionId table = Some session ->
  exists score wrong,
    fst (submitAnswers (Some userId) sessionId A stamp table)
      = Graded score (Z.of_nat (List.length (qs_questions session))) wrong /\
    0 <= score <= Z.of_nat (List.length A) /\
    score + Z.of_nat (List.length wrong) = Z.of_nat (List.length A).
Proof. apply submit_accounts. Qed.

Lemma submission_accounts_for_every_answer_witness :
  exists score wrong,
    fst (submitAnswers (Some "u1") "s1" demo_answers "2024-05-01T10:00:00.000Z" demo_table)
      = Graded score 5 wrong /\
    score + Z.of_nat (List.length wrong) = 5.
Proof.
  destruct (submission_accounts_for_every_answer "u1" "s1" demo_answers
              "2024-05-01T10:00:00.000Z" demo_table demo_session)
    as (score & wrong & Hrun & _ & Hsum); [discriminate | reflexivity |].
  exists score, wrong. split; [exact Hrun | exact Hsum].
Defined.

(** X21.  Only the last submission counts: submitting a second answer
    list after a first one gives the reply and the table that the second
    list alone would have given.  The first grading leaves no trace in the
    store, and a session that is already completed is graded again like a
    fresh one. *)
Theorem last_submission_wins req_user sessionId A1 stamp1 A2 stamp2 table :
  submitAnswers req_user sessionId A2 stamp2
    (snd (submitAnswers req_user sessionId A1 stamp1 table))
  = submitAnswers req_user sessionId A2 stamp2 table.
Proof. apply submit_again. Qed.

(** X22.  Grading reads an answer at [question_id], [user_answer] and
    [time_taken] only: two answer lists that agree on these three fields,
    answer by answer, get the same reply and leave the same table.  An
    [is_correct] or [timestamp] sent by the client has no effect. *)
Theorem grading_reads_three_fields req_user sessionId A A' stamp table :
  Forall2 same_answer A A' ->
  submitAnswers req_user sessionId A stamp table
  = submitAnswers req_user sessionId A' stamp table.
Proof. apply submit_reads_three_fields. Qed.

Lemma grading_reads_three_fields_witness :
  submitAnswers (Some "u1") "s1" [demo_answer "q1" "b"] "2024-05-01T10:00:00.000Z"
    demo_table
  = submitAnswers (Some "u1") "s1" [<["is_correct" := JBool true]> (demo_answer "q1" "b")]
      "2024-05-01T10:00:00.000Z" demo_table.
Proof.
  apply grading_reads_three_fields. constructor; [| constructor].
  by repeat split.
Defined.

(** X23.  What a graded submission reports is what the store shows
    afterwards: the read route returns the session with the reported
    score, marked completed at the time of the submission, with the
    questions and the owner it had and with one stored answer per
    submitted answer, in order; the stored answers flagged correct are as
    many as the score. *)
Theorem submission_is_read_back userId sessionId A stamp table session :
  userId <> "" ->
  owned_session userId sessionId table = Some session ->
  exists score wrong stored,
    fst (submitAnswers (Some userId) sessionId A stamp table)
      = Graded score (Z.of_nat (List.length (qs_questions session))) wrong /\
    getSession (Some userId) sessionId
      (snd (submitAnswers (Some userId) sessionId A stamp table))
      = SessionFound stored /\
    qs_score stored = score /\
    qs_completed stored = true /\
    qs_completed_at stored = Some stamp /\
    qs_questions stored = qs_questions session /\
    qs_user_id stored = userId /\
    List.map (fun a => JS.field a "question_id") (qs_answers stored)
      = List.map (fun a => JS.field a "question_id") A /\
    List.map (fun a => JS.field a "user_answer") (qs_answers stored)
      = List.map (fun a => JS.field a "user_answer") A /\
    score = Z.of_nat (List.length
              (List.filter (fun a => JS.truthy (JS.field a "is_correct"))
                           (qs_answers stored))).
Proof. apply submit_then_get. Qed.

Lemma submission_is_read_back_witness :
  exists stored,
    getSession (Some "u1") "s1"
      (snd (submitAnswers (Some "u1") "s1" demo_answers "2024-05-01T10:00:00.000Z"
              demo_table))
      = SessionFound stored /\
    qs_completed stored = true /\
    qs_completed_at stored = Some "2024-05-01T10:00:00.000Z".
Proof.
  destruct (submission_is_read_back "u1" "s1" demo_answers
              "2024-05-01T10:00:00.000Z" demo_table demo_session)
    as (score & wrong & stored & _ & Hget & _ & Hdone & Hat & _);
    [discriminate | reflexivity |].
  exists stored. split; [exact Hget |]. split; [exact Hdone | exact Hat].
Defined.

(** X24.  The answer sheet the front end builds from a quiz (one answer
    per question, carrying the option ticked for that question's id),
    submitted for a stored session with the same questions whose ids are
    pairwise distinct strings, scores one point for each question whose
    ticked option is strictly equal to its stored correct answer, and
    gets one explanation for each other question.  So such a sheet never
    scores more than the number of questions, and a question left
    unticked counts as wrong. *)
Theorem answer_sheet_scores_per_question userId sessionId stamp table session quiz chosen :
  userId <> "" ->
  owned_session userId sessionId table = Some session ->
  qs_questions quiz = qs_questions session ->
  NoDup (question_ids (qs_questions session)) ->
  Forall (fun q => exists s, JS.field q "id" = JStr s) (qs_questions session) ->
  exists wrong,
    fst (submitAnswers (Some userId) sessionId (quizAnswerSheet quiz chosen) stamp table)
      = Graded (Z.of_nat (List.length
                  (List.filter (chosen_right chosen) (qs_questions session))))
               (Z.of_nat (List.length (qs_questions session))) wrong /\
    (List.length wrong
     + List.length (List.filter (chosen_right chosen) (qs_questions session)))%nat
      = List.length (qs_questions session).
Proof. apply answer_sheet_graded. Qed.

Lemma demo_questions_distinct : NoDup (question_ids demo_questions).
Proof.
  repeat (apply NoDup_cons; split;
          [intros H; repeat (apply elem_of_cons in H as [H | H]; [discriminate H |]);
           by apply elem_of_nil in H |]).
  apply NoDup_nil_2.
Qed.

Lemma answer_sheet_scores_per_question_witness :
  exists wrong,
    fst (submitAnswers (Some "u1") "s1" (quizAnswerSheet demo_session demo_chosen)
           "2024-05-01T10:00:00.000Z" demo_table)
      = Graded 1 5 wrong /\
    List.length wrong = 4%nat.
Proof.
  destruct (answer_sheet_scores_per_question "u1" "s1" "2024-05-01T10:00:00.000Z"
              demo_table demo_session demo_session demo_chosen)
    as (wrong & Hrun & Hlen);
    [discriminate | reflexivity | reflexivity | exact demo_questions_distinct
    | repeat constructor; by eexists |].
  exists wrong. split; [exact Hrun |].
  change (List.length wrong + 1 = 5)%nat in Hlen. lia.
Defined.

(** ** Profile updates *)

Section Profile.

Context (env : StoreEnv).

Lemma valid_choice_passes valid v :
  JS.truthy v && negb (includes_string valid v) = negb (valid_choice valid v).
Proof. unfold valid_choice. by destruct (JS.truthy v), (includes_string valid v). Qed.




Lemma imap_keys {A : Type} (k : string) (l : list A) :
  forall f : nat -> A -> string * JSValue,
  (forall i x, (f i x).1 <> k) ->
  (list_to_map (imap f l) : gmap string JSValue) !! k = None.
Proof.
  induction l as [|x l IH]; intros f Hf; [done |].
  simpl. rewrite lookup_insert_ne by apply Hf. apply IH. intros i y. apply Hf.
Qed.

(** The spread of a string or an array has index keys only. *)
Lemma spread_word_key (v : JSValue) (c : ascii) (rest : string) :
  match v with JObj _ => False | _ => True end ->
  c <> "-"%char -> Re.is_digit c = false ->
  JS.spread v !! String c rest = None.
Proof.
  intros Hv H1 H2.
  destruct v; try done; simpl; apply imap_keys; intros i x; simpl;
    by apply show_Z_not_word.
Qed.

(** The difficulty in effect stays one of the three tiers. *)
Lemma putProfile_keeps_tier userId name preferences users reply users' u u' :
  putProfile env userId name preferences users = (reply, users') ->
  users !! userId = Some u ->
  users' !! userId = Some u' ->
  tier_ok u = true ->
  tier_ok u' = true.
Proof.
  unfold putProfile, UserDb.getUserById, UserDb.updateUserPreferences.
  destruct (negb match name with JStr _ => true | _ => negb (JS.truthy name) end);
    [intros [= <- <-] -> [= <-]; done |].
  destruct (JS.truthy preferences) eqn:Htruthy.
  2:{ intros E Hu E'. rewrite Hu in E. injection E as _ <-.
      rewrite Hu in E'. by injection E' as <-. }
  rewrite !valid_choice_passes.
  destruct (valid_choice validDifficulties (JS.opt_get preferences "difficulty")) eqn:Hd;
    [| intros [= <- <-] -> [= <-]; done].
  destruct (valid_choice validLearningStyles _); [| intros [= <- <-] -> [= <-]; done].
  destruct (valid_choice validExplanationModes _); [| intros [= <- <-] -> [= <-]; done].
  cbn [negb]. intros H Hu. rewrite Hu in H. injection H as _ <-.
  rewrite lookup_insert_eq. intros [= <-]. unfold tier_ok.
  unfold JS.field at 1 2. rewrite lookup_insert_ne by done.
  rewrite !lookup_insert_eq. cbn [default from_option id JS.spread].
  unfold effective_difficulty. cbn [JS.opt_get]. unfold JS.field at 1 2.
  assert (forall v, JS.spread preferences !! "difficulty" = Some v ->
                    valid_choice validDifficulties v = true) as Hsent.
  { intros v Hv. destruct preferences as [| | | | | |p];
      try (rewrite (spread_word_key _ "d" "ifficulty") in Hv by done; done);
      try done.
    simpl in Hv, Hd. unfold JS.field in Hd. by rewrite Hv in Hd. }
  assert (includes_string validDifficulties
              (JS.or_else (JS.opt_get (default JUndefined (u !! "preferences")) "difficulty")
                          (JStr "beginner")) = true ->
            includes_string validDifficulties
              (JS.or_else
                 (default JUndefined
                    (JS.spread (default JUndefined (u !! "preferences")) !! "difficulty"))
                 (JStr "beginner")) = true) as Hstored.
  {
    destruct (default JUndefined (u !! "preferences")) as [| | | | | |m] eqn:Hm;
      try done;
      rewrite (spread_word_key _ "d" "ifficulty") by done; done. }
  destruct (JS.spread preferences !! "difficulty") as [v|] eqn:Hp.
  - rewrite (lookup_union_Some_l _ _ _ _ Hp). simpl.
    specialize (Hsent v eq_refl). unfold valid_choice in Hsent.
    unfold JS.or_else. destruct (JS.truthy v); [done | reflexivity].
  - rewrite lookup_union_r by done. by apply Hstored.
Qed.




(** X28.  The profile route keeps the difficulty in effect one of the
    three tiers: if the stored preferences of the caller give beginner,
    intermediate or advanced (a missing or falsy difficulty counts as
    beginner), so do the preferences stored after any request, accepted or
    not, whatever the body holds. *)
Theorem profile_keeps_tier userId name preferences users reply users' u u' :
  putProfile env userId name preferences users = (reply, users') ->
  users !! userId = Some u ->
  users' !! userId = Some u' ->
  tier_ok u = true ->
  tier_ok u' = true.
Proof. apply putProfile_keeps_tier. Qed.

End Profile.




Lemma profile_keeps_tier_witness :
  exists u',
    snd (putProfile demo_env "u1" JUndefined (JObj {[ "difficulty" := JNum 0 ]})
           demo_users) !! "u1" = Some u' /\
    tier_ok u' = true.
Proof.
  eexists. split; [reflexivity |].
  eapply (profile_keeps_tier demo_env "u1" JUndefined
            (JObj {[ "difficulty" := JNum 0 ]}) demo_users _ _ demo_user);
    reflexivity.
Defined.

(** ** The upgrade handler in every case *)

Lemma newLevel_promotes (d : JSValue) :
  newLevel d = JStr "intermediate" \/ newLevel d = JStr "advanced".
Proof.
  unfold newLevel.
  destruct (JS.strict_eq d (JStr "beginner")); [by left |].
  destruct (JS.strict_eq d (JStr "intermediate")); by right.
Qed.

Lemma upgrade_update_sent api st sent :
  In (UpdateUserPreferences sent) (snd (fst (handleUpgradeQuizSubmit api st))) ->
  exists quiz score total u,
    upgradeQuiz st = Some quiz /\
    submitQuizAnswers api (qs_id quiz) (upgradeAnswers quiz (upgradeQuizAnswers st))
      = Some (score, total) /\
    6 <= score /\
    user st = Some u /\
    (sent !! "difficulty" = Some (JStr "intermediate")
     \/ sent !! "difficulty" = Some (JStr "advanced")) /\
    (forall k, k <> "difficulty" ->
               sent !! k = JS.spread (JS.field u "preferences") !! k).
Proof.
  unfold handleUpgradeQuizSubmit.
  destruct (upgradeQuiz st) as [quiz|] eqn:Hq; [| by intros []].
  cbn [upgradeQuizAnswers setUpgradeQuizSubmitting].
  destruct (submitQuizAnswers api _ _) as [[score total]|] eqn:Hs;
    [| by intros [[=] | []]].
  cbn [user setUpgradeQuizResult setUpgradeQuizSubmitting].
  destruct (6 <=? score) eqn:Hp; [| by intros [[=] | []]].
  destruct (user st) as [u|] eqn:Hu; [| by intros [[=] | []]].
  destruct (JS.nullish (JS.field u "preferences")); [by intros [[=] | []] |].
  intros Hin.
  assert (sent = <["difficulty" := newLevel (JS.opt_get (JS.field u "preferences") "difficulty")]>
                   (JS.spread (JS.field u "preferences"))) as ->.
  { destruct (updateUserPreferences api _) as [[u'|]|]; cbn [fst snd] in Hin;
      destruct Hin as [[=] | [[= <-] | []]]; reflexivity. }
  exists quiz, score, total, u. apply Z.leb_le in Hp.
  do 4 (split; [done |]). split.
  - rewrite lookup_insert_eq.
    destruct (newLevel_promotes (JS.opt_get (JS.field u "preferences") "difficulty"))
      as [-> | ->]; [by left | by right].
  - intros k Hk. by rewrite lookup_insert_ne.
Qed.

Lemma upgrade_handler_cases api st quiz :
  upgradeQuiz st = Some quiz ->
  let '(st', calls, finished) := handleUpgradeQuizSubmit api st in
  let submitted :=
    SubmitQuizAnswers (qs_id quiz) (upgradeAnswers quiz (upgradeQuizAnswers st)) in
  (calls = [submitted] \/ exists sent, calls = [submitted; UpdateUserPreferences sent]) /\
  upgradeQuizSubmitting st' = negb finished /\
  upgradeQuiz st' = upgradeQuiz st /\
  upgradeQuizAnswers st' = upgradeQuizAnswers st /\
  (submitQuizAnswers api (qs_id quiz) (upgradeAnswers quiz (upgradeQuizAnswers st)) = None ->
   finished = false /\ upgradeQuizResult st' = upgradeQuizResult st /\ user st' = user st) /\
  (forall score total,
     submitQuizAnswers api (qs_id quiz) (upgradeAnswers quiz (upgradeQuizAnswers st))
       = Some (score, total) ->
     upgradeQuizResult st'
       = Some {| ur_score := score; ur_total := total; ur_passed := 6 <=? score |}) /\
  (user st' <> user st -> finished = true /\ exists sent, In (UpdateUserPreferences sent) calls).
Proof.
  intros Hq. unfold handleUpgradeQuizSubmit. rewrite Hq.
  cbn [upgradeQuizAnswers setUpgradeQuizSubmitting].
  destruct (submitQuizAnswers api _ _) as [[score total]|] eqn:Hs;
    cbn [user setUpgradeQuizResult setUpgradeQuizSubmitting];
    [destruct (6 <=? score) eqn:Hp;
     [destruct (user st) as [u|] eqn:Hu;
      [destruct (JS.nullish (JS.field u "preferences"));
       [| destruct (updateUserPreferences api _) as [[u'|]|]] |] |] |];
    cbn;
    (split; [first [by left | right; by eexists] |]);
    (split; [done |]); (split; [done |]); (split; [done |]);
    (split; [try done |]);
    (split; [try (by intros ? ? [= <- <-]; rewrite ?Hp) |]);
    try (by intros []; rewrite ?Hu);
    try (intros _; split; [done |]; eexists; right; by left).
  all: try done.
Qed.

(** X29.  The upgrade handler sends a preferences update only after a
    submit call that reported 6 points or more, for a signed-in user, and
    the update never carries the lowest tier: its difficulty is
    intermediate or advanced whatever the stored difficulty is (a missing
    or unknown one gives advanced), and every other field is the stored
    one. *)
Theorem upgrade_never_demotes api st sent :
  In (UpdateUserPreferences sent) (snd (fst (handleUpgradeQuizSubmit api st))) ->
  exists quiz score total u,
    upgradeQuiz st = Some quiz /\
    submitQuizAnswers api (qs_id quiz) (upgradeAnswers quiz (upgradeQuizAnswers st))
      = Some (score, total) /\
    6 <= score /\
    user st = Some u /\
    (sent !! "difficulty" = Some (JStr "intermediate")
     \/ sent !! "difficulty" = Some (JStr "advanced")) /\
    (forall k, k <> "difficulty" ->
               sent !! k = JS.spread (JS.field u "preferences") !! k).
Proof. apply upgrade_update_sent. Qed.

Lemma upgrade_never_demotes_witness :
  exists score,
    submitQuizAnswers (scoring_api 7) "s1" (upgradeAnswers demo_session ∅)
      = Some (score, 10) /\
    6 <= score.
Proof.
  destruct (upgrade_never_demotes (scoring_api 7) demo_client
              (<["difficulty" := JStr "intermediate"]> demo_preferences))
    as (quiz & score & total & u & Hq & Hs & Hpass & _);
    [right; left; reflexivity |].
  injection Hq as <-. change (Some (7, 10) = Some (score, total)) in Hs.
  injection Hs as <- <-. exists 7. split; [reflexivity | exact Hpass].
Defined.

(** X30.  With an upgrade quiz in place the handler makes the submit call
    and, after it, at most one preferences update.  The busy flag ends
    cleared exactly when the handler ran to its end: a rejected request
    leaves it set, with the user as before and, when it was the submit
    call, no result recorded.  A submit call that returns records its
    score, its total and whether the score reached 6.  The user changes
    only in a run that ended and sent an update; the quiz and the ticked
    answers are left alone. *)
Theorem upgrade_handler_shape api st quiz :
  upgradeQuiz st = Some quiz ->
  let '(st', calls, finished) := handleUpgradeQuizSubmit api st in
  let submitted :=
    SubmitQuizAnswers (qs_id quiz) (upgradeAnswers quiz (upgradeQuizAnswers st)) in
  (calls = [submitted] \/ exists sent, calls = [submitted; UpdateUserPreferences sent]) /\
  upgradeQuizSubmitting st' = negb finished /\
  upgradeQuiz st' = upgradeQuiz st /\
  upgradeQuizAnswers st' = upgradeQuizAnswers st /\
  (submitQuizAnswers api (qs_id quiz) (upgradeAnswers quiz (upgradeQuizAnswers st)) = None ->
   finished = false /\ upgradeQuizResult st' = upgradeQuizResult st /\ user st' = user st) /\
  (forall score total,
     submitQuizAnswers api (qs_id quiz) (upgradeAnswers quiz (upgradeQuizAnswers st))
       = Some (score, total) ->
     upgradeQuizResult st'
       = Some {| ur_score := score; ur_total := total; ur_passed := 6 <=? score |}) /\
  (user st' <> user st -> finished = true /\ exists sent, In (UpdateUserPreferences sent) calls).
Proof. apply upgrade_handler_cases. Qed.

Lemma upgrade_handler_shape_witness :
  upgradeQuizSubmitting
    (fst (fst (handleUpgradeQuizSubmit
                 {| submitQuizAnswers := fun _ _ => None;
                    updateUserPreferences := fun _ => None |} demo_client)))
  = true.
Proof.
  pose proof (upgrade_handler_shape
                {| submitQuizAnswers := fun _ _ => None;
                   updateUserPreferences := fun _ => None |}
                demo_client demo_session eq_refl) as H.
  destruct (handleUpgradeQuizSubmit _ demo_client) as [[st' calls] finished].
  destruct H as (_ & Hflag & _ & _ & Hrejected & _).
  destruct (Hrejected eq_refl) as (-> & _). exact Hflag.
Defined.
